(** * Mock US railway cargo server: simulation engine and filter layer

    A shallow embedding of [server.js]: the station registry and the
    haversine distance, the creation of the fleet, the tick
    [updateTrains], the projection [getTrainSnapshots], the filter
    [applyFilters] and the handler of [GET /SSE/Stream].

    JavaScript numbers that the program only ever uses as integers
    (indices, counts, speeds) are [Z]; the numbers it uses as fractions
    (coordinates, leg progress, hours) are idealised as real numbers [R],
    so the rounding of IEEE doubles and NaN are not modelled.  Strings are
    [string] with the ASCII case mapping.  A value that may be
    [undefined] or [null] is an [option].  [Math.random] is a tape of
    draws in [0,1) that the code consumes in program order, threaded
    through the functions that draw; [new Date().toISOString()] is an
    input of the functions that read the clock. *)

From Stdlib Require Import Reals Lra Lia ZArith List String Ascii Bool.
From Stdlib Require Import DecimalString DecimalPos.
Import ListNotations.

(** ** JavaScript primitives used by the program *)

Module Js.

Definition toLowerChar (c : ascii) : ascii :=
  let n := nat_of_ascii c in
  if (65 <=? n)%nat && (n <=? 90)%nat then ascii_of_nat (n + 32) else c.

Definition toUpperChar (c : ascii) : ascii :=
  let n := nat_of_ascii c in
  if (97 <=? n)%nat && (n <=? 122)%nat then ascii_of_nat (n - 32) else c.

Fixpoint mapStr (f : ascii -> ascii) (s : string) : string :=
  match s with
  | EmptyString => EmptyString
  | String c s' => String (f c) (mapStr f s')
  end.

Definition toLowerCase : string -> string := mapStr toLowerChar.
Definition toUpperCase : string -> string := mapStr toUpperChar.

(** [s.includes(sub)] *)
Fixpoint includes (s sub : string) : bool :=
  if String.prefix sub s then true
  else match s with
       | EmptyString => false
       | String _ s' => includes s' sub
       end.

Fixpoint repeatChar (n : nat) (c : ascii) : string :=
  match n with
  | O => EmptyString
  | S k => String c (repeatChar k c)
  end.

(** [s.padStart(n, c)] for a one-character filler *)
Definition padStart (n : nat) (c : ascii) (s : string) : string :=
  (repeatChar (n - String.length s) c ++ s)%string.

(** [s.slice(1)] *)
Definition slice1 (s : string) : string :=
  match s with
  | EmptyString => EmptyString
  | String _ s' => s'
  end.

(** An integer-valued number, or NaN. *)
Definition int := option Z.

Definition showInt (n : int) : string :=
  match n with
  | Some z => NilZero.string_of_int (Z.to_int z)
  | None => "NaN"%string
  end.

Definition addInt (n : int) (k : Z) : int := option_map (fun z => (z + k)%Z) n.

Definition digitOf (c : ascii) : option Z :=
  let n := nat_of_ascii c in
  if (48 <=? n)%nat && (n <=? 57)%nat then Some (Z.of_nat (n - 48)) else None.

Fixpoint parseDigits (acc : int) (s : string) : int :=
  match s with
  | EmptyString => acc
  | String c s' =>
      match digitOf c with
      | Some d =>
          parseDigits (Some (match acc with Some a => 10 * a + d | None => d end)%Z) s'
      | None => acc
      end
  end.

(** [parseInt(s)]: the longest decimal prefix, NaN when there is none
    (leading blanks and the hexadecimal prefix are left out). *)
Definition parseInt (s : string) : int :=
  match s with
  | String "-" s' => option_map Z.opp (parseDigits None s')
  | String "+" s' => parseDigits None s'
  | _ => parseDigits None s
  end.

(** [arr[i]], [undefined] outside the array *)
Definition index {A} (arr : list A) (i : Z) : option A :=
  if (i <? 0)%Z then None else nth_error arr (Z.to_nat i).

(** a string-valued expression used as a condition *)
Definition truthy (o : option string) : bool :=
  match o with
  | Some EmptyString => false
  | Some _ => true
  | None => false
  end.

(** [a || b] on possibly missing strings *)
Definition orElse (a b : option string) : option string :=
  if truthy a then a else b.

Definition optStrEqb (a b : option string) : bool :=
  match a, b with
  | Some x, Some y => String.eqb x y
  | None, None => true
  | _, _ => false
  end.

(** [Math.atan2(y, x)] *)
Definition atan2 (y x : R) : R :=
  if Rlt_dec 0 x then atan (y / x)
  else if Rlt_dec x 0 then
         if Rle_dec 0 y then (atan (y / x) + PI)%R else (atan (y / x) - PI)%R
       else if Rlt_dec 0 y then (PI / 2)%R
            else if Rlt_dec y 0 then (- PI / 2)%R else 0%R.

(** [parseFloat(x.toFixed(k))]: nearest multiple of [10^-k], ties away
    from zero *)
Definition roundHalfUp (x : R) : Z := Zfloor (x + / 2).

Definition toFixed (k : nat) (x : R) : R :=
  if Rle_dec 0 x
  then (IZR (roundHalfUp (x * 10 ^ k)) / 10 ^ k)%R
  else (- (IZR (roundHalfUp (- x * 10 ^ k)) / 10 ^ k))%R.

End Js.

(** ** The random source *)

(** The tape of [Math.random()] results still to be drawn.  Every draw
    lies in [0,1), which is the contract of [Math.random]. *)
Record rng := mkRng {
  draw : nat -> R;
  draw_ok : forall n, (0 <= draw n < 1)%R
}.

Definition rngTail (g : rng) : rng :=
  {| draw := fun n => draw g (S n); draw_ok := fun n => draw_ok g (S n) |}.

(** The tape after [n] draws. *)
Fixpoint rngDrop (n : nat) (g : rng) : rng :=
  match n with
  | O => g
  | S k => rngDrop k (rngTail g)
  end.

(** Computations that consume draws. *)
Definition Rand (A : Type) : Type := rng -> A * rng.

Definition ret {A} (a : A) : Rand A := fun g => (a, g).

Definition bind {A B} (m : Rand A) (k : A -> Rand B) : Rand B :=
  fun g => let (a, g') := m g in k a g'.

Declare Scope rand_scope.
Delimit Scope rand_scope with rand.
Notation "x <- m ;; k" := (bind m (fun x => k))
  (at level 61, m at next level, right associativity) : rand_scope.
Open Scope rand_scope.

Fixpoint mapM {A B} (f : A -> Rand B) (l : list A) : Rand (list B) :=
  match l with
  | [] => ret []
  | a :: l' => b <- f a ;; bs <- mapM f l' ;; ret (b :: bs)
  end.

(** [Math.random()] *)
Definition random : Rand R := fun g => (draw g 0, rngTail g).

(** [randInt(min, max)]: [Math.floor(Math.random() * (max - min + 1)) + min] *)
Definition randInt (min max : Z) : Rand Z :=
  u <- random ;; ret (Zfloor (u * IZR (max - min + 1)) + min)%Z.

(** [randChoice(arr)] on a literal, non-empty array [first :: rest] *)
Definition randChoice {A} (first : A) (rest : list A) : Rand A :=
  i <- randInt 0 (Z.of_nat (List.length (first :: rest)) - 1) ;;
  ret (nth (Z.to_nat i) (first :: rest) first).

(** ** Geo model *)

Module Station.
Record t := mk {
  code : string;
  name : string;
  city : string;
  state : string;
  lat : R;
  lon : R
}.
End Station.

Definition STATIONS : list Station.t :=
  [ Station.mk "LA" "Los Angeles Freight Yard" "Los Angeles" "CA" 34.033 (-118.238);
    Station.mk "KC" "Kansas City Intermodal" "Kansas City" "MO" 39.104 (-94.598);
    Station.mk "CHI" "Chicago Rail Hub" "Chicago" "IL" 41.874 (-87.64);
    Station.mk "MEM" "Memphis Freight Terminal" "Memphis" "TN" 35.149 (-90.049);
    Station.mk "ATL" "Atlanta Distribution Center" "Atlanta" "GA" 33.749 (-84.388);
    Station.mk "NYC" "New York Consolidation Yard" "New York" "NY" 40.713 (-74.006) ].

(** [ROUTES], given as its first route and the others: [randChoice] is
    applied to it, and needs it non-empty. *)
Definition ROUTE_0 : list string := ["LA"; "KC"; "CHI"; "NYC"]%string.

Definition ROUTES_rest : list (list string) :=
  [ ["LA"; "MEM"; "ATL"; "NYC"];
    ["CHI"; "KC"; "MEM"; "ATL"];
    ["NYC"; "CHI"; "KC"; "LA"] ]%string.

Definition ROUTES : list (list string) := ROUTE_0 :: ROUTES_rest.

(** [STATIONS.find((s) => s.code === code)] *)
Definition stationByCode (code : option string) : option Station.t :=
  match code with
  | Some c => List.find (fun s => String.eqb (Station.code s) c) STATIONS
  | None => None
  end.

Definition earthRadiusKm : R := 6371.

Definition toRad (d : R) : R := (d * PI / 180)%R.

Definition haversineA (lat1 lon1 lat2 lon2 : R) : R :=
  let dLat := toRad (lat2 - lat1) in
  let dLon := toRad (lon2 - lon1) in
  (sin (dLat / 2) * sin (dLat / 2) +
   cos (toRad lat1) * cos (toRad lat2) * sin (dLon / 2) * sin (dLon / 2))%R.

(** [R * c], before the guard against zero *)
Definition haversineRaw (lat1 lon1 lat2 lon2 : R) : R :=
  let a := haversineA lat1 lon1 lat2 lon2 in
  let c := (2 * Js.atan2 (sqrt a) (sqrt (1 - a)))%R in
  (earthRadiusKm * c)%R.

(** [return R * c || 1] *)
Definition haversineKm (lat1 lon1 lat2 lon2 : R) : R :=
  let d := haversineRaw lat1 lon1 lat2 lon2 in
  if Req_dec_T d 0 then 1%R else d.

(** ** Configuration (environment variables) *)

Record config := mkConfig {
  TICK_MS : Z;
  TRAIN_COUNT : Z;
  MAX_CARS_PER_TRAIN : Z;
  MAX_AWBS_PER_CAR : Z;
  TIME_SCALE : R;
  MIN_DWELL_MINUTES : Z;
  MAX_DWELL_MINUTES : Z
}.

(** The values used when the environment sets nothing. *)
Definition defaultConfig : config :=
  {| TICK_MS := 5000; TRAIN_COUNT := 10; MAX_CARS_PER_TRAIN := 12;
     MAX_AWBS_PER_CAR := 5; TIME_SCALE := 60;
     MIN_DWELL_MINUTES := 5; MAX_DWELL_MINUTES := 20 |}.

(** How many simulated hours pass per tick:
    [(TICK_MS / 3600000) * TIME_SCALE] *)
Definition dtHours (cfg : config) : R :=
  (IZR (TICK_MS cfg) / 3600000 * TIME_SCALE cfg)%R.

(** ** Cargo items, cars and trains *)

Inductive awbStatus := LOADED | IN_TRANSIT | DELIVERED.

Definition statusString (s : awbStatus) : string :=
  match s with
  | LOADED => "LOADED"
  | IN_TRANSIT => "IN_TRANSIT"
  | DELIVERED => "DELIVERED"
  end.

Definition statusRank (s : awbStatus) : nat :=
  match s with
  | LOADED => 0
  | IN_TRANSIT => 1
  | DELIVERED => 2
  end.

Definition isDelivered (s : awbStatus) : bool :=
  match s with DELIVERED => true | _ => false end.

Definition isLoaded (s : awbStatus) : bool :=
  match s with LOADED => true | _ => false end.

Module Awb.
Record t := mk {
  awbNumber : string;
  originStationCode : option string;
  destStationCode : option string;
  pieces : Z;
  weightKg : Z;
  status : awbStatus;
  lastUpdated : string;
  loadedAt : string;
  deliveredAt : option string;
  offloadedAtStationCode : option string
}.
End Awb.

Module Car.
Record t := mk {
  carNumber : string;
  type : string;
  airwayBills : list Awb.t
}.

Definition setAirwayBills (c : t) (l : list Awb.t) : t :=
  mk (carNumber c) (type c) l.
End Car.

Module Train.
Record t := mk {
  id : string;
  name : string;
  route : list string;
  currentLegIndex : Z;
  legProgress : R;
  speedKmh : Z;
  displaySpeedKmh : Z;
  dwellRemainingHours : R;
  cars : list Car.t;
  lastUpdated : option string
}.
End Train.

(** [`R${trainIndex + 1}${String(carIndex + 1).padStart(3, "0")}`] *)
Definition generateCarNumber (trainIndex carIndex : Z) : string :=
  ("R" ++ Js.showInt (Some (trainIndex + 1)%Z)
       ++ Js.padStart 3 "0" (Js.showInt (Some (carIndex + 1)%Z)))%string.

(** [`AWB-${trainIndex + 1}${carIndex + 1}${String(awbIndex + 1).padStart(4, "0")}`] *)
Definition generateAwbNumber (trainIndex : Js.int) (carIndex awbIndex : Z) : string :=
  ("AWB-" ++ Js.showInt (Js.addInt trainIndex 1)
          ++ Js.showInt (Some (carIndex + 1)%Z)
          ++ Js.padStart 4 "0" (Js.showInt (Some (awbIndex + 1)%Z)))%string.

(** The indices [0, 1, ..., n-1] of a counting loop; empty when [n <= 0]. *)
Definition upto (n : Z) : list Z := map Z.of_nat (seq 0 (Z.to_nat n)).

Section Engine.

Variable cfg : config.

(** One iteration of the loop of [createAirwayBillsForCar]. *)
Definition createAirwayBill (now : string) (route : list string)
    (trainIndex carIndex i : Z) : Rand Awb.t :=
  let len := Z.of_nat (List.length route) in
  originIdx <- randInt 0 (len - 2) ;;
  destIdx <- randInt (originIdx + 1) (len - 1) ;;
  pieces <- randInt 1 10 ;;
  weightKg <- randInt 500 20000 ;;
  ret {| Awb.awbNumber := generateAwbNumber (Some trainIndex) carIndex i;
         Awb.originStationCode := Js.index route originIdx;
         Awb.destStationCode := Js.index route destIdx;
         Awb.pieces := pieces;
         Awb.weightKg := weightKg;
         Awb.status := LOADED;
         Awb.lastUpdated := now;
         Awb.loadedAt := now;
         Awb.deliveredAt := None;
         Awb.offloadedAtStationCode := None |}.

Definition createAirwayBillsForCar (now : string) (route : list string)
    (trainIndex carIndex : Z) : Rand (list Awb.t) :=
  count <- randInt 1 (MAX_AWBS_PER_CAR cfg) ;;
  mapM (createAirwayBill now route trainIndex carIndex) (upto count).

Definition createCar (now : string) (route : list string) (i c : Z) : Rand Car.t :=
  type <- randChoice "BOXCAR"%string ["TANK"; "HOPPER"; "INTERMODAL"; "FLATCAR"]%string ;;
  awbs <- createAirwayBillsForCar now route i c ;;
  ret {| Car.carNumber := generateCarNumber i c;
         Car.type := type;
         Car.airwayBills := awbs |}.

(** One iteration of the outer loop of [createInitialTrains].  [now c]
    is the clock reading of the call of [createAirwayBillsForCar] for the
    car of index [c]. *)
Definition createTrain (now : Z -> string) (i : Z) : Rand Train.t :=
  route <- randChoice ROUTE_0 ROUTES_rest ;;
  speedKmh <- randInt 40 80 ;;
  carCount <- randInt 5 (MAX_CARS_PER_TRAIN cfg) ;;
  cars <- mapM (fun c => createCar (now c) route i c) (upto carCount) ;;
  nm <- randChoice "Pacific Runner"%string
          ["Continental Freight"; "Atlantic Express";
           "Heartland Cargo"; "Mountain Hauler"]%string ;;
  legProgress <- random ;;
  ret {| Train.id := ("T" ++ Js.showInt (Some (i + 1)%Z))%string;
         Train.name := (nm ++ " " ++ Js.showInt (Some (i + 1)%Z))%string;
         Train.route := route;
         Train.currentLegIndex := 0;
         Train.legProgress := legProgress;
         Train.speedKmh := speedKmh;
         Train.displaySpeedKmh := speedKmh;
         Train.dwellRemainingHours := 0;
         Train.cars := cars;
         Train.lastUpdated := None |}.

Definition createInitialTrains (now : Z -> Z -> string) : Rand (list Train.t) :=
  mapM (fun i => createTrain (now i) i) (upto (TRAIN_COUNT cfg)).

End Engine.

(** ** The simulation clock: [updateTrains] *)

Section Clock.

Variable cfg : config.
Variable nowIso : string.

(** Step 1: the train is dwelling; only the timer counts down. *)
Definition dwellStep (t : Train.t) : Train.t :=
  {| Train.id := Train.id t;
     Train.name := Train.name t;
     Train.route := Train.route t;
     Train.currentLegIndex := Train.currentLegIndex t;
     Train.legProgress := Train.legProgress t;
     Train.speedKmh := Train.speedKmh t;
     Train.displaySpeedKmh := 0;
     Train.dwellRemainingHours :=
       Rmax 0 (Train.dwellRemainingHours t - dtHours cfg);
     Train.cars := Train.cars t;
     Train.lastUpdated := Some nowIso |}.

(** Step 2: the leg was completed on an earlier tick; move to the next
    leg, back to leg 0 after the last one. *)
Definition rollover (t : Train.t) : Train.t :=
  if Rle_dec 1 (Train.legProgress t) then
    let next := (Train.currentLegIndex t + 1)%Z in
    {| Train.id := Train.id t;
       Train.name := Train.name t;
       Train.route := Train.route t;
       Train.currentLegIndex :=
         if (Z.of_nat (List.length (Train.route t)) - 1 <=? next)%Z
         then 0%Z else next;
       Train.legProgress := 0;
       Train.speedKmh := Train.speedKmh t;
       Train.displaySpeedKmh := Train.displaySpeedKmh t;
       Train.dwellRemainingHours := Train.dwellRemainingHours t;
       Train.cars := Train.cars t;
       Train.lastUpdated := Train.lastUpdated t |}
  else t.

(** [distanceThisTickKm / legDistanceKm] *)
Definition progressIncrement (speedKmh : Z) (from to : Station.t) : R :=
  let legDistanceKm :=
    haversineKm (Station.lat from) (Station.lon from)
                (Station.lat to) (Station.lon to) in
  let distanceThisTickKm := (IZR speedKmh * dtHours cfg)%R in
  (distanceThisTickKm / legDistanceKm)%R.

(** Arrival, one item: mark it delivered when this is its destination. *)
Definition deliverAwb (arrivalStationCode : option string) (awb : Awb.t) : Awb.t :=
  if Js.optStrEqb (Awb.destStationCode awb) arrivalStationCode
     && negb (isDelivered (Awb.status awb))
  then {| Awb.awbNumber := Awb.awbNumber awb;
          Awb.originStationCode := Awb.originStationCode awb;
          Awb.destStationCode := Awb.destStationCode awb;
          Awb.pieces := Awb.pieces awb;
          Awb.weightKg := Awb.weightKg awb;
          Awb.status := DELIVERED;
          Awb.lastUpdated := nowIso;
          Awb.loadedAt := Awb.loadedAt awb;
          Awb.deliveredAt := Some nowIso;
          Awb.offloadedAtStationCode := arrivalStationCode |}
  else awb.

(** Arrival: the item loaded at the arrival station. *)
Definition newAwb (t : Train.t) (arrivalStationCode : option string) : Rand Awb.t :=
  let route := Train.route t in
  k <- randInt 100 999 ;;
  destIdx <- randInt (Train.currentLegIndex t + 1)
                     (Z.of_nat (List.length route) - 1) ;;
  pieces <- randInt 1 10 ;;
  weightKg <- randInt 500 20000 ;;
  ret {| Awb.awbNumber :=
           generateAwbNumber
             (Js.addInt (Js.parseInt (Js.slice1 (Train.id t))) (-1)) 0 k;
         Awb.originStationCode := arrivalStationCode;
         Awb.destStationCode := Js.index route destIdx;
         Awb.pieces := pieces;
         Awb.weightKg := weightKg;
         Awb.status := LOADED;
         Awb.lastUpdated := nowIso;
         Awb.loadedAt := nowIso;
         Awb.deliveredAt := None;
         Awb.offloadedAtStationCode := None |}.

(** Arrival, one car: deliver, then load a new item with probability 0.35. *)
Definition arriveCar (t : Train.t) (arrivalStationCode : option string)
    (car : Car.t) : Rand Car.t :=
  let delivered := map (deliverAwb arrivalStationCode) (Car.airwayBills car) in
  u <- random ;;
  if Rlt_dec u 0.35 then
    a <- newAwb t arrivalStationCode ;;
    ret (Car.setAirwayBills car (delivered ++ [a]))
  else ret (Car.setAirwayBills car delivered).

(** In transit, one item: LOADED becomes IN_TRANSIT shortly after the
    train left the item's origin. *)
Definition departAwb (originCode : option string) (legProgress : R)
    (awb : Awb.t) : Awb.t :=
  if Js.optStrEqb (Awb.originStationCode awb) originCode
     && isLoaded (Awb.status awb)
     && (if Rlt_dec 0.05 legProgress then true else false)
  then {| Awb.awbNumber := Awb.awbNumber awb;
          Awb.originStationCode := Awb.originStationCode awb;
          Awb.destStationCode := Awb.destStationCode awb;
          Awb.pieces := Awb.pieces awb;
          Awb.weightKg := Awb.weightKg awb;
          Awb.status := IN_TRANSIT;
          Awb.lastUpdated := nowIso;
          Awb.loadedAt := Awb.loadedAt awb;
          Awb.deliveredAt := Awb.deliveredAt awb;
          Awb.offloadedAtStationCode := Awb.offloadedAtStationCode awb |}
  else awb.

Definition departCar (originCode : option string) (legProgress : R)
    (car : Car.t) : Car.t :=
  Car.setAirwayBills car
    (map (departAwb originCode legProgress) (Car.airwayBills car)).

(** In transit: the speed changes a little with probability 0.05. *)
Definition tweakSpeed (speedKmh : Z) : Rand Z :=
  u <- random ;;
  if Rlt_dec u 0.05 then
    d <- randInt (-5) 5 ;;
    ret (Z.max 30 (Z.min 110 (speedKmh + d)))
  else ret speedKmh.

(** Step 4: the train reaches the end of the leg on this tick. *)
Definition arrive (t : Train.t) (toCode : option string) : Rand Train.t :=
  cars <- mapM (arriveCar t toCode) (Train.cars t) ;;
  dwellMinutes <- randInt (MIN_DWELL_MINUTES cfg) (MAX_DWELL_MINUTES cfg) ;;
  ret {| Train.id := Train.id t;
         Train.name := Train.name t;
         Train.route := Train.route t;
         Train.currentLegIndex := Train.currentLegIndex t;
         Train.legProgress := 1;
         Train.speedKmh := Train.speedKmh t;
         Train.displaySpeedKmh := 0;
         Train.dwellRemainingHours := (IZR dwellMinutes / 60)%R;
         Train.cars := cars;
         Train.lastUpdated := Some nowIso |}.

(** Step 5: the train is still between the two stations. *)
Definition transit (t : Train.t) (legProgress : R) : Rand Train.t :=
  let originCode := Js.index (Train.route t) (Train.currentLegIndex t) in
  let cars := map (departCar originCode legProgress) (Train.cars t) in
  speedKmh <- tweakSpeed (Train.speedKmh t) ;;
  ret {| Train.id := Train.id t;
         Train.name := Train.name t;
         Train.route := Train.route t;
         Train.currentLegIndex := Train.currentLegIndex t;
         Train.legProgress := legProgress;
         Train.speedKmh := speedKmh;
         Train.displaySpeedKmh := Train.speedKmh t;
         Train.dwellRemainingHours := Train.dwellRemainingHours t;
         Train.cars := cars;
         Train.lastUpdated := Some nowIso |}.

(** The body of [trains.forEach] in [updateTrains]. *)
Definition updateTrain (t : Train.t) : Rand Train.t :=
  if (List.length (Train.route t) <? 2)%nat then ret t
  else if Rlt_dec 0 (Train.dwellRemainingHours t) then ret (dwellStep t)
  else
    let t1 := rollover t in
    let route := Train.route t1 in
    let fromCode := Js.index route (Train.currentLegIndex t1) in
    let toCode := Js.index route (Train.currentLegIndex t1 + 1) in
    match stationByCode fromCode, stationByCode toCode with
    | Some fromStation, Some toStation =>
        let legProgress :=
          (Train.legProgress t1
           + progressIncrement (Train.speedKmh t1) fromStation toStation)%R in
        if Rle_dec 1 legProgress then arrive t1 toCode
        else transit t1 legProgress
    | _, _ => ret t1
    end.

Definition updateTrains (trains : list Train.t) : Rand (list Train.t) :=
  mapM updateTrain trains.

End Clock.

(** A run of the clock: one [updateTrains] per clock reading of [ticks]. *)
Fixpoint runTicks (cfg : config) (ticks : list string) (trains : list Train.t)
  : Rand (list Train.t) :=
  match ticks with
  | [] => ret trains
  | nowIso :: rest =>
      trains' <- updateTrains cfg nowIso trains ;;
      runTicks cfg rest trains'
  end.

(** ** The snapshot projector: [getTrainSnapshots] *)

Module Snapshot.
Record t := mk {
  id : string;
  name : string;
  speedKmh : Z;
  route : list string;
  fromStationCode : option string;
  toStationCode : option string;
  legProgress : R;
  currentLocation : option R * option R;
  cars : list Car.t;
  lastUpdated : string
}.

Definition setCars (s : t) (l : list Car.t) : t :=
  mk (id s) (name s) (speedKmh s) (route s) (fromStationCode s)
     (toStationCode s) (legProgress s) (currentLocation s) l (lastUpdated s).
End Snapshot.

Definition trainSnapshot (now : string) (train : Train.t) : Snapshot.t :=
  let route := Train.route train in
  let baseSpeed := Train.displaySpeedKmh train in
  if (if Rlt_dec 0 (Train.dwellRemainingHours train) then true else false)
     && (if Rle_dec 1 (Train.legProgress train) then true else false)
  then
    let stationCode :=
      Js.orElse (Js.index route (Train.currentLegIndex train + 1))
                (Js.index route (Train.currentLegIndex train)) in
    let station := stationByCode stationCode in
    {| Snapshot.id := Train.id train;
       Snapshot.name := Train.name train;
       Snapshot.speedKmh := 0;
       Snapshot.route := route;
       Snapshot.fromStationCode := stationCode;
       Snapshot.toStationCode := stationCode;
       Snapshot.legProgress := 0;
       Snapshot.currentLocation :=
         (option_map Station.lat station, option_map Station.lon station);
       Snapshot.cars := Train.cars train;
       Snapshot.lastUpdated := now |}
  else
    let fromCode := Js.index route (Train.currentLegIndex train) in
    let toCode := Js.orElse (Js.index route (Train.currentLegIndex train + 1)) fromCode in
    match stationByCode fromCode, stationByCode toCode with
    | Some fromStation, Some toStation =>
        let t := Rmin (Rmax (Train.legProgress train) 0) 1 in
        let lat := (Station.lat fromStation
                    + (Station.lat toStation - Station.lat fromStation) * t)%R in
        let lon := (Station.lon fromStation
                    + (Station.lon toStation - Station.lon fromStation) * t)%R in
        {| Snapshot.id := Train.id train;
           Snapshot.name := Train.name train;
           Snapshot.speedKmh := baseSpeed;
           Snapshot.route := route;
           Snapshot.fromStationCode := fromCode;
           Snapshot.toStationCode := toCode;
           Snapshot.legProgress := Js.toFixed 3 t;
           Snapshot.currentLocation :=
             (Some (Js.toFixed 5 lat), Some (Js.toFixed 5 lon));
           Snapshot.cars := Train.cars train;
           Snapshot.lastUpdated := now |}
    | _, _ =>
        {| Snapshot.id := Train.id train;
           Snapshot.name := Train.name train;
           Snapshot.speedKmh := baseSpeed;
           Snapshot.route := route;
           Snapshot.fromStationCode := fromCode;
           Snapshot.toStationCode := toCode;
           Snapshot.legProgress := Train.legProgress train;
           Snapshot.currentLocation := (None, None);
           Snapshot.cars := Train.cars train;
           Snapshot.lastUpdated := now |}
    end.

Definition getTrainSnapshots (now : string) (trains : list Train.t) : list Snapshot.t :=
  map (trainSnapshot now) trains.

(** ** The filter engine: [applyFilters] *)

(** [req.query]: each parameter is a string or is missing.  (A parameter
    given several times, which the framework parses to an array, is not
    modelled.) *)
Module Query.
Record t := mk {
  awb : option string;
  airwayBill : option string;
  trainName : option string;
  carNumber : option string;
  station : option string;
  status : option string
}.

Definition empty : t := mk None None None None None None.
End Query.

(** [typeof value === "string" && typeof filter === "string" &&
    value.toLowerCase().includes(filter.toLowerCase())] *)
Definition matchesString (value filter : option string) : bool :=
  match value, filter with
  | Some v, Some f => Js.includes (Js.toLowerCase v) (Js.toLowerCase f)
  | _, _ => false
  end.

(** [arr.map(f).filter(Boolean)], where [f] returns an object or [null] *)
Fixpoint mapFilter {A B} (f : A -> option B) (l : list A) : list B :=
  match l with
  | [] => []
  | a :: l' =>
      match f a with
      | Some b => b :: mapFilter f l'
      | None => mapFilter f l'
      end
  end.

(** [awbObj.status !== status.toUpperCase()] *)
Definition statusDiffers (awbObj : Awb.t) (status : option string) : bool :=
  match status with
  | Some st => negb (String.eqb (statusString (Awb.status awbObj)) (Js.toUpperCase st))
  | None => true
  end.

Section Filter.

Variable query : Query.t.

Definition awbFilter : option string :=
  Js.orElse (Query.awb query) (Query.airwayBill query).

(** The callback of [car.airwayBills.filter]. *)
Definition awbSurvives (awbObj : Awb.t) : bool :=
  if Js.truthy awbFilter
     && negb (matchesString (Some (Awb.awbNumber awbObj)) awbFilter)
  then false
  else if Js.truthy (Query.station query)
          && negb (matchesString (Awb.originStationCode awbObj) (Query.station query)
                   || matchesString (Awb.destStationCode awbObj) (Query.station query)
                   || matchesString
                        (Js.orElse (Awb.offloadedAtStationCode awbObj) (Some ""%string))
                        (Query.station query))
  then false
  else if Js.truthy (Query.status query)
          && statusDiffers awbObj (Query.status query)
  then false
  else true.

(** The callback of [filteredCars.map]: [None] stands for [null]. *)
Definition filterCar (car : Car.t) : option Car.t :=
  let filteredAwbs := List.filter awbSurvives (Car.airwayBills car) in
  match filteredAwbs with
  | [] => None
  | _ => Some (Car.setAirwayBills car filteredAwbs)
  end.

(** The callback of [snapshots.map]. *)
Definition filterTrain (train : Snapshot.t) : option Snapshot.t :=
  if Js.truthy (Query.trainName query)
     && negb (matchesString (Some (Snapshot.name train)) (Query.trainName query))
  then None
  else
    let filteredCars := Snapshot.cars train in
    let filteredCars :=
      if Js.truthy (Query.carNumber query)
      then List.filter
             (fun car => matchesString (Some (Car.carNumber car)) (Query.carNumber query))
             filteredCars
      else filteredCars in
    let filteredCars :=
      if Js.truthy awbFilter || Js.truthy (Query.station query)
         || Js.truthy (Query.status query)
      then mapFilter filterCar filteredCars
      else filteredCars in
    match filteredCars with
    | [] => None
    | _ => Some (Snapshot.setCars train filteredCars)
    end.

Definition applyFilters (snapshots : list Snapshot.t) : list Snapshot.t :=
  mapFilter filterTrain snapshots.

End Filter.

(** ** The stream endpoint: [GET /SSE/Stream] *)

Module Sse.

(** The three readings of the clock made by one [sendUpdate]. *)
Record reads := mkReads {
  atUpdate : string;
  atSnapshot : string;
  atPayload : string
}.

(** The [filtersApplied] object of a payload: each filter or [null]. *)
Record filters := mkFilters {
  awb : option string;
  trainName : option string;
  carNumber : option string;
  station : option string;
  status : option string
}.

Record payload := mkPayload {
  timestamp : string;
  filtersApplied : filters;
  trains : list Snapshot.t;
  stationCatalog : list Station.t
}.

(** One open connection: its request, and the [eventId] of its closure. *)
Record client := mkClient {
  conn : nat;
  query : Query.t;
  eventId : nat
}.

(** The process: the global [trains], the open connections with their
    interval timers in the order they were set, what was written to each
    response, and a count of the calls of [updateTrains] made so far. *)
Record server := mkServer {
  fleet : list Train.t;
  clients : list client;
  written : list (nat * nat * payload);
  clockSteps : nat
}.

Definition filtersOf (q : Query.t) : filters :=
  {| awb := Js.orElse (Js.orElse (Query.awb q) (Query.airwayBill q)) None;
     trainName := Js.orElse (Query.trainName q) None;
     carNumber := Js.orElse (Query.carNumber q) None;
     station := Js.orElse (Query.station q) None;
     status := Js.orElse (Query.status q) None |}.

Definition bumpClient (c : nat) (l : list client) : list client :=
  map (fun k => if Nat.eqb (conn k) c
                then mkClient (conn k) (query k) (S (eventId k)) else k) l.

Section Handlers.

Variable cfg : config.

(** [sendUpdate] of the connection [c]. *)
Definition sendUpdate (now : reads) (c : client) (s : server) : Rand server :=
  fleet' <- updateTrains cfg (atUpdate now) (fleet s) ;;
  let snapshots := getTrainSnapshots (atSnapshot now) fleet' in
  let filteredSnapshots := applyFilters (query c) snapshots in
  let p := {| timestamp := atPayload now;
              filtersApplied := filtersOf (query c);
              trains := filteredSnapshots;
              stationCatalog := STATIONS |} in
  ret {| fleet := fleet';
         clients := bumpClient (conn c) (clients s);
         written := written s ++ [(conn c, eventId c, p)];
         clockSteps := S (clockSteps s) |}.

(** A request arrives: the first update is sent at once, then the
    interval timer is set. *)
Definition connect (now : reads) (c : nat) (q : Query.t) (s : server) : Rand server :=
  let k := mkClient c q 1 in
  sendUpdate now k
    {| fleet := fleet s; clients := clients s ++ [k];
       written := written s; clockSteps := clockSteps s |}.

(** The interval timer of connection [c] fires. *)
Definition timerFires (now : reads) (c : nat) (s : server) : Rand server :=
  match List.find (fun k => Nat.eqb (conn k) c) (clients s) with
  | Some k => sendUpdate now k s
  | None => ret s
  end.

(** The client of connection [c] goes away: [clearInterval]. *)
Definition close (c : nat) (s : server) : server :=
  {| fleet := fleet s;
     clients := List.filter (fun k => negb (Nat.eqb (conn k) c)) (clients s);
     written := written s; clockSteps := clockSteps s |}.

(** [TICK_MS] of real time pass with no request and no disconnection:
    every timer has the same period, so each fires once, in the
    order the timers were set. *)
Fixpoint fireAll (now : reads) (cs : list nat) (s : server) : Rand server :=
  match cs with
  | [] => ret s
  | c :: rest => s' <- timerFires now c s ;; fireAll now rest s'
  end.

Definition intervalElapses (now : reads) (s : server) : Rand server :=
  fireAll now (map conn (clients s)) s.

End Handlers.

End Sse.

(** ** Vocabulary of the properties *)

(** The life cycle only moves forward, and a delivered item is frozen. *)
Definition awbAdvances (a a' : Awb.t) : Prop :=
  Awb.awbNumber a' = Awb.awbNumber a
  /\ (statusRank (Awb.status a) <= statusRank (Awb.status a'))%nat
  /\ (Awb.status a = DELIVERED -> a' = a).

(** A car keeps its items, in place, and may gain new ones at the end. *)
Definition carAdvances (c c' : Car.t) : Prop :=
  Car.carNumber c' = Car.carNumber c
  /\ exists kept loaded,
       Car.airwayBills c' = kept ++ loaded
       /\ Forall2 awbAdvances (Car.airwayBills c) kept.

Definition trainAdvances (t t' : Train.t) : Prop :=
  Train.id t' = Train.id t
  /\ Forall2 carAdvances (Train.cars t) (Train.cars t').

Definition fleetAdvances : list Train.t -> list Train.t -> Prop :=
  Forall2 trainAdvances.

(** The leg position of a train is well formed. *)
Definition legInvariant (t : Train.t) : Prop :=
  (0 <= Train.legProgress t <= 1)%R
  /\ (0 <= Train.currentLegIndex t <= Z.of_nat (List.length (Train.route t)) - 2)%Z.

(** What one tick needs of a train to keep the leg position well formed. *)
Definition trainSane (t : Train.t) : Prop :=
  (2 <= List.length (Train.route t))%nat
  /\ legInvariant t
  /\ (0 <= Train.speedKmh t)%Z.

(** The train stands on its last leg and has completed it. *)
Definition finalLegCompleted (t : Train.t) : Prop :=
  (2 <= List.length (Train.route t))%nat
  /\ ~ (0 < Train.dwellRemainingHours t)%R
  /\ (1 <= Train.legProgress t)%R
  /\ Train.currentLegIndex t = (Z.of_nat (List.length (Train.route t)) - 2)%Z.

(** The train is due to reach the end of its leg on this tick. *)
Definition arrivesThisTick (cfg : config) (t : Train.t) : Prop :=
  (2 <= List.length (Train.route t))%nat
  /\ ~ (0 < Train.dwellRemainingHours t)%R
  /\ exists fromStation toStation,
       let t1 := rollover t in
       stationByCode (Js.index (Train.route t1) (Train.currentLegIndex t1))
         = Some fromStation
       /\ stationByCode (Js.index (Train.route t1) (Train.currentLegIndex t1 + 1))
         = Some toStation
       /\ (1 <= Train.legProgress t1
                + progressIncrement cfg (Train.speedKmh t1) fromStation toStation)%R.

(** The distance of a leg as [updateTrains] computes it. *)
Definition legDistanceKm (fromCode toCode : string) : option R :=
  match stationByCode (Some fromCode), stationByCode (Some toCode) with
  | Some fromStation, Some toStation =>
      Some (haversineKm (Station.lat fromStation) (Station.lon fromStation)
                        (Station.lat toStation) (Station.lon toStation))
  | _, _ => None
  end.

(** The leg distance LA to KC that [updateTrains] divides by. *)
Definition scenarioDistance : R := haversineKm 34.033 (-118.238) 39.104 (-94.598).

(** A train running at 60 km/h on the first leg of the first route, a
    fraction [p] of the way. *)
Definition onFirstLeg (t : Train.t) (p : R) : Prop :=
  Train.route t = ROUTE_0 /\ Train.currentLegIndex t = 0%Z
  /\ Train.legProgress t = p /\ Train.speedKmh t = 60%Z
  /\ Train.dwellRemainingHours t = 0%R.

(** ** Tapes for examples *)

(** A number taken as a draw: itself when it lies in [0,1), else one half. *)
Definition unit01 (x : R) : R :=
  if Rle_dec 0 x then if Rlt_dec x 1 then x else (/ 2)%R else (/ 2)%R.

Definition unit01_ok (x : R) : (0 <= unit01 x < 1)%R.
Proof.
  unfold unit01. destruct (Rle_dec 0 x); [destruct (Rlt_dec x 1)|]; lra.
Qed.

(** The tape that yields the numbers of [l], then one half for ever. *)
Definition tapeRng (l : list R) : rng :=
  {| draw := fun n => unit01 (nth n l (/ 2)%R);
     draw_ok := fun n => unit01_ok (nth n l (/ 2)%R) |}.

(** ** Vocabulary of the filter properties *)

(** At least one of the cargo-level matchers is present. *)
Definition cargoMatcherPresent (q : Query.t) : bool :=
  Js.truthy (awbFilter q) || Js.truthy (Query.station q) || Js.truthy (Query.status q).

(** No criterion at all is present. *)
Definition noCriteria (q : Query.t) : Prop :=
  Js.truthy (Query.awb q) = false /\ Js.truthy (Query.airwayBill q) = false
  /\ Js.truthy (Query.trainName q) = false /\ Js.truthy (Query.carNumber q) = false
  /\ Js.truthy (Query.station q) = false /\ Js.truthy (Query.status q) = false.

(** The train passes the train-name matcher, or there is none. *)
Definition trainNameOk (q : Query.t) (t : Snapshot.t) : bool :=
  if Js.truthy (Query.trainName q)
  then matchesString (Some (Snapshot.name t)) (Query.trainName q) else true.

(** The car passes the car-number matcher, or there is none. *)
Definition carNumberOk (q : Query.t) (c : Car.t) : bool :=
  if Js.truthy (Query.carNumber q)
  then matchesString (Some (Car.carNumber c)) (Query.carNumber q) else true.

Definition isEmpty {A} (l : list A) : bool :=
  match l with [] => true | _ => false end.



(** [f] occurs in [value], whatever the case of the letters. *)
Definition containsCI (value f : string) : Prop :=
  Js.includes (Js.toLowerCase value) (Js.toLowerCase f) = true.

(** The offload station of an item, the empty string when it has none. *)
Definition offloadOrEmpty (a : Awb.t) : string :=
  match Awb.offloadedAtStationCode a with
  | Some s => s
  | None => ""%string
  end.

(** The three cargo-level matchers, each satisfied when it is absent. *)
Definition satisfiesCargoId (q : Query.t) (a : Awb.t) : Prop :=
  Js.truthy (awbFilter q) = true ->
  exists f, awbFilter q = Some f /\ containsCI (Awb.awbNumber a) f.

Definition satisfiesStation (q : Query.t) (a : Awb.t) : Prop :=
  Js.truthy (Query.station q) = true ->
  exists f, Query.station q = Some f
    /\ ((exists c, Awb.originStationCode a = Some c /\ containsCI c f)
        \/ (exists c, Awb.destStationCode a = Some c /\ containsCI c f)
        \/ containsCI (offloadOrEmpty a) f).

Definition satisfiesStatus (q : Query.t) (a : Awb.t) : Prop :=
  Js.truthy (Query.status q) = true ->
  exists f, Query.status q = Some f
    /\ statusString (Awb.status a) = Js.toUpperCase f.

(** The station filter [f] occurs in none of the station codes of [a]. *)
Definition stationMatchesNoCode (f : string) (a : Awb.t) : Prop :=
  (forall c, Awb.originStationCode a = Some c -> ~ containsCI c f)
  /\ (forall c, Awb.destStationCode a = Some c -> ~ containsCI c f)
  /\ ~ containsCI (offloadOrEmpty a) f.

(** The items carried by the trains of a snapshot list. *)
Definition itemOf (snapshots : list Snapshot.t) (a : Awb.t) : Prop :=
  exists t c, In t snapshots /\ In c (Snapshot.cars t) /\ In a (Car.airwayBills c).

(** The station codes of [a] are codes of the station registry. *)
Definition codesInRegistry (a : Awb.t) : Prop :=
  let known (code : option string) :=
    exists st, In st STATIONS /\ code = Some (Station.code st) in
  known (Awb.originStationCode a) /\ known (Awb.destStationCode a)
  /\ (Awb.offloadedAtStationCode a = None \/ known (Awb.offloadedAtStationCode a)).

(** ** Sample data *)

Module Sample.

Definition stamp0 : string := "2025-01-01T00:00:00.000Z".
Definition stamp1 : string := "2025-01-01T00:00:05.000Z".
Definition stamp2 : string := "2025-01-01T00:00:10.000Z".

Definition awbLoaded : Awb.t :=
{| Awb.awbNumber := "AWB-110001";
   Awb.originStationCode := Some "KC"%string;
   Awb.destStationCode := Some "CHI"%string;
   Awb.pieces := 4; Awb.weightKg := 1200; Awb.status := LOADED;
   Awb.lastUpdated := stamp0; Awb.loadedAt := stamp0;
   Awb.deliveredAt := None; Awb.offloadedAtStationCode := None |}.

Definition awbDelivered : Awb.t :=
{| Awb.awbNumber := "AWB-110002";
   Awb.originStationCode := Some "LA"%string;
   Awb.destStationCode := Some "KC"%string;
   Awb.pieces := 7; Awb.weightKg := 800; Awb.status := DELIVERED;
   Awb.lastUpdated := stamp1; Awb.loadedAt := stamp0;
   Awb.deliveredAt := Some stamp1;
   Awb.offloadedAtStationCode := Some "KC"%string |}.

Definition awbInTransit : Awb.t :=
{| Awb.awbNumber := "AWB-120001";
   Awb.originStationCode := Some "LA"%string;
   Awb.destStationCode := Some "NYC"%string;
   Awb.pieces := 2; Awb.weightKg := 15000; Awb.status := IN_TRANSIT;
   Awb.lastUpdated := stamp1; Awb.loadedAt := stamp0;
   Awb.deliveredAt := None; Awb.offloadedAtStationCode := None |}.

Definition carA : Car.t :=
{| Car.carNumber := "R1001"; Car.type := "BOXCAR";
   Car.airwayBills := [awbLoaded; awbDelivered] |}.

Definition carB : Car.t :=
{| Car.carNumber := "R1002"; Car.type := "TANK";
   Car.airwayBills := [awbInTransit] |}.

(** A train with three items, one of them delivered. *)
Definition snapshot : Snapshot.t :=
{| Snapshot.id := "T1"; Snapshot.name := "Pacific Runner 1";
   Snapshot.speedKmh := 60; Snapshot.route := ROUTE_0;
   Snapshot.fromStationCode := Some "KC"%string;
   Snapshot.toStationCode := Some "CHI"%string;
   Snapshot.legProgress := 0.25;
   Snapshot.currentLocation := (Some 39.7965%R, Some (-92.8585)%R);
   Snapshot.cars := [carA; carB];
   Snapshot.lastUpdated := stamp2 |}.

(** A train that pulls no car. *)
Definition emptySnapshot : Snapshot.t :=
Snapshot.setCars snapshot [].

Definition byStatus (s : string) : Query.t :=
Query.mk None None None None None (Some s).

Definition byStation (s : string) : Query.t :=
Query.mk None None None None (Some s) None.

(** A train as [createInitialTrains] leaves it, on the first route. *)
Definition freshAwb (number origin dest : string) : Awb.t :=
{| Awb.awbNumber := number;
   Awb.originStationCode := Some origin;
   Awb.destStationCode := Some dest;
   Awb.pieces := 3; Awb.weightKg := 900; Awb.status := LOADED;
   Awb.lastUpdated := stamp0; Awb.loadedAt := stamp0;
   Awb.deliveredAt := None; Awb.offloadedAtStationCode := None |}.

Definition freshCars : list Car.t :=
[ Car.mk "R1001" "BOXCAR" [freshAwb "AWB-110001" "LA" "CHI"];
  Car.mk "R1002" "TANK" [freshAwb "AWB-120001" "LA" "KC"];
  Car.mk "R1003" "HOPPER" [freshAwb "AWB-130001" "KC" "NYC"];
  Car.mk "R1004" "FLATCAR" [freshAwb "AWB-140001" "CHI" "NYC"];
  Car.mk "R1005" "BOXCAR" [freshAwb "AWB-150001" "LA" "NYC"] ]%string.

Definition freshTrain (speedKmh : Z) (legProgress : R) (cars : list Car.t)
: Train.t :=
{| Train.id := "T1"; Train.name := "Pacific Runner 1";
   Train.route := ROUTE_0; Train.currentLegIndex := 0;
   Train.legProgress := legProgress;
   Train.speedKmh := speedKmh; Train.displaySpeedKmh := speedKmh;
   Train.dwellRemainingHours := 0;
   Train.cars := cars; Train.lastUpdated := None |}.

(** The train just before it reaches KC, the end of its first leg. *)
Definition nearKC : Train.t := freshTrain 60 0.9999 freshCars.

(** The tape of the tick on which [nearKC] reaches KC: the first two cars
  load a new item (draws 0.2), and for both the draw of the item index
  is 0.5; the other cars load nothing (draws 0.9); the last draw is the
  dwell time. *)
Definition arrivalTape : list R :=
[ 0.2; 0.5; 0.1; 0.3; 0.4;
  0.2; 0.5; 0.7; 0.6; 0.1;
  0.9; 0.9; 0.9;
  0.5 ]%R.

(** The two items loaded at KC on that tick. *)
Definition loadedInCar1 : Awb.t :=
{| Awb.awbNumber := "AWB-110551";
   Awb.originStationCode := Some "KC"%string;
   Awb.destStationCode := Some "KC"%string;
   Awb.pieces := 4; Awb.weightKg := 8300; Awb.status := LOADED;
   Awb.lastUpdated := stamp1; Awb.loadedAt := stamp1;
   Awb.deliveredAt := None; Awb.offloadedAtStationCode := None |}.

Definition loadedInCar2 : Awb.t :=
{| Awb.awbNumber := "AWB-110551";
   Awb.originStationCode := Some "KC"%string;
   Awb.destStationCode := Some "NYC"%string;
   Awb.pieces := 7; Awb.weightKg := 2450; Awb.status := LOADED;
   Awb.lastUpdated := stamp1; Awb.loadedAt := stamp1;
   Awb.deliveredAt := None; Awb.offloadedAtStationCode := None |}.

(** The item of the second car that was bound for KC, once delivered. *)
Definition deliveredAtKC : Awb.t :=
{| Awb.awbNumber := "AWB-120001";
   Awb.originStationCode := Some "LA"%string;
   Awb.destStationCode := Some "KC"%string;
   Awb.pieces := 3; Awb.weightKg := 900; Awb.status := DELIVERED;
   Awb.lastUpdated := stamp1; Awb.loadedAt := stamp0;
   Awb.deliveredAt := Some stamp1;
   Awb.offloadedAtStationCode := Some "KC"%string |}.

Definition carsAtKC : list Car.t :=
[ Car.mk "R1001" "BOXCAR" [freshAwb "AWB-110001" "LA" "CHI"; loadedInCar1];
  Car.mk "R1002" "TANK" [deliveredAtKC; loadedInCar2];
  Car.mk "R1003" "HOPPER" [freshAwb "AWB-130001" "KC" "NYC"];
  Car.mk "R1004" "FLATCAR" [freshAwb "AWB-140001" "CHI" "NYC"];
  Car.mk "R1005" "BOXCAR" [freshAwb "AWB-150001" "LA" "NYC"] ]%string.

(** [nearKC] after that tick: stopped at KC for 13 simulated minutes. *)
Definition atKC : Train.t :=
{| Train.id := "T1"; Train.name := "Pacific Runner 1";
   Train.route := ROUTE_0; Train.currentLegIndex := 0;
   Train.legProgress := 1;
   Train.speedKmh := 60; Train.displaySpeedKmh := 0;
   Train.dwellRemainingHours := (13 / 60)%R;
   Train.cars := carsAtKC; Train.lastUpdated := Some stamp1 |}.

(** A configuration whose tick is one simulated hour. *)
Definition hourlyConfig : config :=
{| TICK_MS := 3600000; TRAIN_COUNT := 10; MAX_CARS_PER_TRAIN := 12;
   MAX_AWBS_PER_CAR := 5; TIME_SCALE := 1;
   MIN_DWELL_MINUTES := 5; MAX_DWELL_MINUTES := 20 |}.

(** The train of the scenario: at LA, about to leave for KC. *)
Definition atLA : Train.t := freshTrain 60 0 freshCars.

(** The default configuration but for [TIME_SCALE=-60]: the value is read
    with [parseFloat] and used as it is, so simulated time runs backward. *)
Definition backwardConfig : config :=
{| TICK_MS := 5000; TRAIN_COUNT := 10; MAX_CARS_PER_TRAIN := 12;
   MAX_AWBS_PER_CAR := 5; TIME_SCALE := -60;
   MIN_DWELL_MINUTES := 5; MAX_DWELL_MINUTES := 20 |}.

(** A train whose dwell at NYC, the end of its route, is over. *)
Definition leavingNYC : Train.t :=
{| Train.id := "T1"; Train.name := "Pacific Runner 1";
   Train.route := ROUTE_0; Train.currentLegIndex := 2;
   Train.legProgress := 1;
   Train.speedKmh := 60; Train.displaySpeedKmh := 0;
   Train.dwellRemainingHours := 0;
   Train.cars := freshCars; Train.lastUpdated := Some stamp1 |}.

(** The clock readings of one [sendUpdate]. *)
Definition reads : Sse.reads := Sse.mkReads stamp2 stamp2 stamp2.

(** Two open connections, and a fleet of one train that stands at KC. *)
Definition twoSubscribers : Sse.server :=
{| Sse.fleet := [atKC];
   Sse.clients := [ Sse.mkClient 1 Query.empty 2;
                    Sse.mkClient 2 (byStatus "DELIVERED") 2 ];
   Sse.written := [];
   Sse.clockSteps := 2 |}.

End Sample.

(** ** Vocabulary of the further properties *)

(** An item as it is when it has just been created at time [now]. *)
Definition isFresh (now : string) (a : Awb.t) : Prop :=
  Awb.status a = LOADED
  /\ Awb.lastUpdated a = now /\ Awb.loadedAt a = now
  /\ Awb.deliveredAt a = None /\ Awb.offloadedAtStationCode a = None
  /\ (1 <= Awb.pieces a <= 10)%Z /\ (500 <= Awb.weightKg a <= 20000)%Z.

(** The item goes from a station of [route] to a later one. *)
Definition boundForward (route : list string) (a : Awb.t) : Prop :=
  exists originIdx destIdx : nat,
    (originIdx < destIdx)%nat
    /\ nth_error route originIdx = Awb.originStationCode a
    /\ nth_error route destIdx = Awb.destStationCode a
    /\ Awb.originStationCode a <> None /\ Awb.destStationCode a <> None.

(** The car types and the train names that the creation chooses from. *)
Definition CAR_TYPES : list string :=
  ["BOXCAR"; "TANK"; "HOPPER"; "INTERMODAL"; "FLATCAR"]%string.

Definition TRAIN_NAMES : list string :=
  ["Pacific Runner"; "Continental Freight"; "Atlantic Express";
   "Heartland Cargo"; "Mountain Hauler"]%string.

(** The identifier of the train of index [i]. *)
Definition trainId (i : Z) : string := ("T" ++ Js.showInt (Some (i + 1)%Z))%string.

(** A train as the creation loop makes it for the index [i]. *)
Definition isInitialTrain (cfg : config) (i : Z) (t : Train.t) : Prop :=
  Train.id t = trainId i
  /\ (exists nm, In nm TRAIN_NAMES
        /\ Train.name t = (nm ++ " " ++ Js.showInt (Some (i + 1)%Z))%string)
  /\ In (Train.route t) ROUTES
  /\ Train.currentLegIndex t = 0%Z
  /\ (0 <= Train.legProgress t < 1)%R
  /\ (40 <= Train.speedKmh t <= 80)%Z
  /\ Train.displaySpeedKmh t = Train.speedKmh t
  /\ Train.dwellRemainingHours t = 0%R
  /\ Train.lastUpdated t = None
  /\ ((5 <= MAX_CARS_PER_TRAIN cfg)%Z ->
      (5 <= Z.of_nat (List.length (Train.cars t)) <= MAX_CARS_PER_TRAIN cfg)%Z)
  /\ ((MAX_CARS_PER_TRAIN cfg < 5)%Z ->
      (Z.of_nat (List.length (Train.cars t)) <= 5)%Z)
  /\ map Car.carNumber (Train.cars t)
     = map (generateCarNumber i) (upto (Z.of_nat (List.length (Train.cars t))))
  /\ Forall (fun c => In (Car.type c) CAR_TYPES) (Train.cars t).

(** What never changes of a train: its id, name and route, and the number
    and type of each of its cars, in order. *)
Definition sameIdentity (t t' : Train.t) : Prop :=
  Train.id t' = Train.id t /\ Train.name t' = Train.name t
  /\ Train.route t' = Train.route t
  /\ map (fun c => (Car.carNumber c, Car.type c)) (Train.cars t')
     = map (fun c => (Car.carNumber c, Car.type c)) (Train.cars t).

(** The speed limits that [updateTrains] keeps. *)
Definition speedInRange (t : Train.t) : Prop :=
  (30 <= Train.speedKmh t <= 110)%Z
  /\ (Train.displaySpeedKmh t = 0%Z \/ (30 <= Train.displaySpeedKmh t <= 110)%Z).

(** The train runs on a predefined route, on one of its legs. *)
Definition onPredefinedRoute (t : Train.t) : Prop :=
  In (Train.route t) ROUTES /\ (0 <= Train.currentLegIndex t <= 2)%Z.

(** The two items describe the same cargo: number, stations, pieces,
    weight and loading time. *)
Definition sameCargo (a a' : Awb.t) : Prop :=
  Awb.awbNumber a' = Awb.awbNumber a
  /\ Awb.originStationCode a' = Awb.originStationCode a
  /\ Awb.destStationCode a' = Awb.destStationCode a
  /\ Awb.pieces a' = Awb.pieces a /\ Awb.weightKg a' = Awb.weightKg a
  /\ Awb.loadedAt a' = Awb.loadedAt a.

(** What the arrival at the station [st] at time [nowIso] makes of an
    item: delivered there if it was bound for [st] and not yet delivered,
    left alone otherwise. *)
Definition deliveredOrKept (nowIso : string) (st : option string)
    (a a' : Awb.t) : Prop :=
  (Awb.destStationCode a = st /\ Awb.status a <> DELIVERED ->
   sameCargo a a' /\ Awb.status a' = DELIVERED
   /\ Awb.deliveredAt a' = Some nowIso
   /\ Awb.offloadedAtStationCode a' = st
   /\ Awb.lastUpdated a' = nowIso)
  /\ (~ (Awb.destStationCode a = st /\ Awb.status a <> DELIVERED) -> a' = a).

(** What a tick under way, [p] of the leg from [originCode] done, makes of
    an item: in transit if it was loaded at [originCode] and the train is
    more than 0.05 of the leg away, left alone otherwise. *)
Definition departedOrKept (nowIso : string) (originCode : option string) (p : R)
    (a a' : Awb.t) : Prop :=
  (Awb.originStationCode a = originCode /\ Awb.status a = LOADED /\ (0.05 < p)%R ->
   sameCargo a a' /\ Awb.status a' = IN_TRANSIT
   /\ Awb.lastUpdated a' = nowIso
   /\ Awb.deliveredAt a' = Awb.deliveredAt a
   /\ Awb.offloadedAtStationCode a' = Awb.offloadedAtStationCode a)
  /\ (~ (Awb.originStationCode a = originCode /\ Awb.status a = LOADED
         /\ (0.05 < p)%R) -> a' = a).

(** The train is under way and stays under way on this tick. *)
Definition staysUnderWay (cfg : config) (t : Train.t) : Prop :=
  (2 <= List.length (Train.route t))%nat
  /\ ~ (0 < Train.dwellRemainingHours t)%R
  /\ exists fromStation toStation,
       let t1 := rollover t in
       stationByCode (Js.index (Train.route t1) (Train.currentLegIndex t1))
         = Some fromStation
       /\ stationByCode (Js.index (Train.route t1) (Train.currentLegIndex t1 + 1))
         = Some toStation
       /\ (Train.legProgress t1
           + progressIncrement cfg (Train.speedKmh t1) fromStation toStation < 1)%R.

(** The progress of the train on its leg at the end of a tick under way. *)
Definition progressAfter (cfg : config) (t : Train.t) : R :=
  let t1 := rollover t in
  match stationByCode (Js.index (Train.route t1) (Train.currentLegIndex t1)),
        stationByCode (Js.index (Train.route t1) (Train.currentLegIndex t1 + 1)) with
  | Some fromStation, Some toStation =>
      (Train.legProgress t1
       + progressIncrement cfg (Train.speedKmh t1) fromStation toStation)%R
  | _, _ => Train.legProgress t1
  end.

(** The delivery fields of an item agree with its status. *)
Definition deliveryConsistent (a : Awb.t) : Prop :=
  (Awb.status a = DELIVERED <-> Awb.deliveredAt a <> None)
  /\ (Awb.status a = DELIVERED <-> Awb.offloadedAtStationCode a <> None)
  /\ (Awb.status a = DELIVERED ->
      Awb.offloadedAtStationCode a = Awb.destStationCode a
      /\ Awb.deliveredAt a = Some (Awb.lastUpdated a)).

(** Every item of every car of the train satisfies [P]. *)
Definition everyItem (P : Awb.t -> Prop) (t : Train.t) : Prop :=
  Forall (fun c => Forall P (Car.airwayBills c)) (Train.cars t).

(** What the arrival at [st] makes of a car: its items in place, each
    delivered or kept, followed by at most one item loaded at [st]. *)
Definition arrivedCar (nowIso : string) (st : option string) (c c' : Car.t) : Prop :=
  Car.carNumber c' = Car.carNumber c /\ Car.type c' = Car.type c
  /\ exists kept loaded,
       Car.airwayBills c' = kept ++ loaded
       /\ Forall2 (deliveredOrKept nowIso st) (Car.airwayBills c) kept
       /\ (List.length loaded <= 1)%nat
       /\ Forall (fun a => isFresh nowIso a /\ Awb.originStationCode a = st) loaded.

(** What a tick under way makes of a car: its items in place, each put in
    transit or kept, and no other item. *)
Definition departedCar (nowIso : string) (originCode : option string) (p : R)
    (c c' : Car.t) : Prop :=
  Car.carNumber c' = Car.carNumber c /\ Car.type c' = Car.type c
  /\ Forall2 (departedOrKept nowIso originCode p)
       (Car.airwayBills c) (Car.airwayBills c').

(** A car keeps the cargo data of its items, in place, and may gain new
    items at the end. *)
Definition carKeepsCargo (c c' : Car.t) : Prop :=
  exists kept loaded,
    Car.airwayBills c' = kept ++ loaded
    /\ Forall2 sameCargo (Car.airwayBills c) kept.

Definition trainKeepsCargo (t t' : Train.t) : Prop :=
  Forall2 carKeepsCargo (Train.cars t) (Train.cars t').

(** The numbers of all the cars of a fleet, train after train. *)
Definition carNumbers (fleet : list Train.t) : list string :=
  flat_map (fun t => map Car.carNumber (Train.cars t)) fleet.

(** The cars of the train of index [i] are numbered as at creation, and
    there are at most 999 of them. *)
Definition numberedFrom (i : Z) (t : Train.t) : Prop :=
  exists n : nat,
    (n <= 999)%nat
    /\ map Car.carNumber (Train.cars t)
       = map (generateCarNumber i) (upto (Z.of_nat n)).

(** The snapshot [s] shows the train [t] as it is: same id, name, route
    and cars, and the time [now] of the snapshot as lastUpdated. *)
Definition showsTrain (now : string) (t : Train.t) (s : Snapshot.t) : Prop :=
  Snapshot.id s = Train.id t /\ Snapshot.name s = Train.name t
  /\ Snapshot.route s = Train.route t /\ Snapshot.cars s = Train.cars t
  /\ Snapshot.lastUpdated s = now.

(** The snapshot [s] puts the train at the fraction [p] of the straight
    line from [fromStation] to [toStation] in latitude and longitude: the
    coordinates are given to 5 decimals and the progress to 3. *)
Definition reportsPosition (s : Snapshot.t) (fromStation toStation : Station.t)
    (p : R) : Prop :=
  Snapshot.fromStationCode s = Some (Station.code fromStation)
  /\ Snapshot.toStationCode s = Some (Station.code toStation)
  /\ (Rabs (Snapshot.legProgress s - p) <= / 2000)%R
  /\ exists lat lon : R,
       Snapshot.currentLocation s = (Some lat, Some lon)
       /\ (Rabs (lat - (Station.lat fromStation
                        + (Station.lat toStation - Station.lat fromStation) * p))
           <= / 200000)%R
       /\ (Rabs (lon - (Station.lon fromStation
                        + (Station.lon toStation - Station.lon fromStation) * p))
           <= / 200000)%R.

(** The train stands at a station after its arrival. *)
Definition dwellingAtStation (t : Train.t) : Prop :=
  (0 < Train.dwellRemainingHours t)%R /\ (1 <= Train.legProgress t)%R.

(** The snapshot puts the train on a leg between two stations of the
    registry that are on its route. *)
Definition placedOnRoute (s : Snapshot.t) : Prop :=
  exists (fromStation toStation : Station.t) (p : R),
    In fromStation STATIONS /\ In toStation STATIONS
    /\ In (Station.code fromStation) (Snapshot.route s)
    /\ In (Station.code toStation) (Snapshot.route s)
    /\ (0 <= p <= 1)%R
    /\ reportsPosition s fromStation toStation p.

(** The speed shown is 0 or between 30 and 110 km/h. *)
Definition showsSpeedInRange (s : Snapshot.t) : Prop :=
  Snapshot.speedKmh s = 0%Z \/ (30 <= Snapshot.speedKmh s <= 110)%Z.

(** The cars of the snapshot that pass the car-number matcher. *)
Definition matchingCars (q : Query.t) (t : Snapshot.t) : list Car.t :=
  List.filter (carNumberOk q) (Snapshot.cars t).

(** The string has ASCII characters only; on these [Js.toLowerCase] and
    [Js.toUpperCase] are the JavaScript methods. *)
Definition isAscii (s : string) : bool :=
  forallb (fun c => (nat_of_ascii c <? 128)%nat) (list_ascii_of_string s).

Definition optAscii (o : option string) : bool :=
  match o with Some s => isAscii s | None => true end.

Definition asciiQuery (q : Query.t) : bool :=
  optAscii (Query.awb q) && optAscii (Query.airwayBill q)
  && optAscii (Query.trainName q) && optAscii (Query.carNumber q)
  && optAscii (Query.station q) && optAscii (Query.status q).

(** Two query values that differ at most in the case of their letters. *)
Definition sameUpToCase (a b : option string) : Prop :=
  option_map Js.toLowerCase a = option_map Js.toLowerCase b.

Definition queriesAgreeUpToCase (q1 q2 : Query.t) : Prop :=
  sameUpToCase (Query.awb q1) (Query.awb q2)
  /\ sameUpToCase (Query.airwayBill q1) (Query.airwayBill q2)
  /\ sameUpToCase (Query.trainName q1) (Query.trainName q2)
  /\ sameUpToCase (Query.carNumber q1) (Query.carNumber q2)
  /\ sameUpToCase (Query.station q1) (Query.station q2)
  /\ sameUpToCase (Query.status q1) (Query.status q2).

(** ** Histories of the stream endpoint *)

(** What can happen to the process: a request arrives on a new
    connection, the interval timer of a connection fires, the client of a
    connection goes away. *)
Inductive sseEvent :=
| SseConnect (now : Sse.reads) (c : nat) (q : Query.t)
| SseTimer (now : Sse.reads) (c : nat)
| SseClose (c : nat).

Definition sseStep (cfg : config) (e : sseEvent) (s : Sse.server) : Rand Sse.server :=
  match e with
  | SseConnect now c q => Sse.connect cfg now c q s
  | SseTimer now c => Sse.timerFires cfg now c s
  | SseClose c => ret (Sse.close c s)
  end.

Fixpoint sseRun (cfg : config) (es : list sseEvent) (s : Sse.server) : Rand Sse.server :=
  match es with
  | [] => ret s
  | e :: rest => s' <- sseStep cfg e s ;; sseRun cfg rest s'
  end.

(** The connections opened in a history. *)
Fixpoint connects (es : list sseEvent) : list nat :=
  match es with
  | [] => []
  | SseConnect _ c _ :: rest => c :: connects rest
  | _ :: rest => connects rest
  end.

(** The process when it starts listening: no connection, nothing written. *)
Definition started (fleet : list Train.t) : Sse.server :=
  {| Sse.fleet := fleet; Sse.clients := []; Sse.written := []; Sse.clockSteps := 0 |}.

(** The events written to the connection [c], and their ids. *)
Definition writtenTo (c : nat) (w : list (nat * nat * Sse.payload))
    : list (nat * nat * Sse.payload) :=
  List.filter (fun x => Nat.eqb (fst (fst x)) c) w.

Definition idsOf (c : nat) (w : list (nat * nat * Sse.payload)) : list nat :=
  map (fun x => snd (fst x)) (writtenTo c w).

(** What holds of the process after a history that opened the
    connections [used]. *)
Definition streamInvariant (used : list nat) (s : Sse.server) : Prop :=
  (forall k, In k (Sse.clients s) -> In (Sse.conn k) used)
  /\ NoDup (map Sse.conn (Sse.clients s))
  /\ (forall c, ~ In c used -> writtenTo c (Sse.written s) = [])
  /\ (forall c, exists n,
        idsOf c (Sse.written s) = seq 1 n
        /\ forall k, In k (Sse.clients s) -> Sse.conn k = c -> Sse.eventId k = S n)
  /\ List.length (Sse.written s) = Sse.clockSteps s
  /\ Forall (fun x => Sse.stationCatalog (snd x) = STATIONS) (Sse.written s).

(** The least part of a leg that a train under way covers in one tick:
    it runs at 30 km/h or faster, and no leg is longer than 25484 km. *)
Definition minProgressPerTick (cfg : config) : R :=
  (30 * dtHours cfg / 25484)%R.

(** [r] is [x] rounded to [k] decimals as [toFixed] does it: the multiple
    of [10^-k] nearest to [x], the one farther from zero when two are
    equally near. *)
Definition roundedTo (k : nat) (x r : R) : Prop :=
  (exists n : Z, r = (IZR n / 10 ^ k)%R)
  /\ ((0 <= x)%R -> (x - / 2 / 10 ^ k < r <= x + / 2 / 10 ^ k)%R)
  /\ ((x < 0)%R -> (x - / 2 / 10 ^ k <= r < x + / 2 / 10 ^ k)%R).

(** After [k] ticks of a clock that runs backward: the train is under
    way on a leg of a predefined route and its progress has gone down by
    [k] times the least step. *)
Definition drifting (cfg : config) (k : nat) (t : Train.t) : Prop :=
  onPredefinedRoute t /\ speedInRange t
  /\ ~ (0 < Train.dwellRemainingHours t)%R
  /\ (Train.legProgress t < 1 + INR k * minProgressPerTick cfg)%R.


(** * Properties *)

(** ** Geo model *)

Section GeoFacts.

Local Open Scope R_scope.

Lemma atan_nonneg (x : R) : 0 <= x -> 0 <= atan x.
Proof.
  intros [Hx | <-].
  - left. rewrite <- atan_0. now apply atan_increasing.
  - rewrite atan_0. lra.
Qed.

Lemma atan2_nonneg (y x : R) : 0 <= y -> 0 <= Js.atan2 y x.
Proof.
  intros Hy. unfold Js.atan2.
  destruct (Rlt_dec 0 x) as [Hx | Hx].
  - apply atan_nonneg. apply Rmult_le_pos; [lra|].
    left. now apply Rinv_0_lt_compat.
  - destruct (Rlt_dec x 0) as [Hx' | Hx'].
    + destruct (Rle_dec 0 y) as [_ | Hn]; [|lra].
      pose proof (atan_bound (y / x)). pose proof PI_RGT_0. lra.
    + destruct (Rlt_dec 0 y); [pose proof PI_RGT_0; lra|].
      destruct (Rlt_dec y 0); lra.
Qed.

Lemma atan2_le_half_pi (y x : R) : 0 <= y -> 0 <= x -> Js.atan2 y x <= PI / 2.
Proof.
  intros Hy Hx. unfold Js.atan2. pose proof PI_RGT_0.
  destruct (Rlt_dec 0 x).
  - pose proof (atan_bound (y / x)). lra.
  - destruct (Rlt_dec x 0); [lra|].
    destruct (Rlt_dec 0 y); [lra|].
    destruct (Rlt_dec y 0); lra.
Qed.

Lemma haversineRaw_nonneg (lat1 lon1 lat2 lon2 : R) :
  0 <= haversineRaw lat1 lon1 lat2 lon2.
Proof.
  unfold haversineRaw, earthRadiusKm. cbv zeta.
  pose proof (atan2_nonneg _ (sqrt (1 - haversineA lat1 lon1 lat2 lon2))
                (sqrt_pos (haversineA lat1 lon1 lat2 lon2))).
  nra.
Qed.

Lemma haversineRaw_le (lat1 lon1 lat2 lon2 : R) :
  haversineRaw lat1 lon1 lat2 lon2 <= 6371 * PI.
Proof.
  unfold haversineRaw, earthRadiusKm. cbv zeta.
  pose proof (atan2_le_half_pi _ _
                (sqrt_pos (haversineA lat1 lon1 lat2 lon2))
                (sqrt_pos (1 - haversineA lat1 lon1 lat2 lon2))).
  nra.
Qed.

Lemma haversineKm_pos (lat1 lon1 lat2 lon2 : R) :
  0 < haversineKm lat1 lon1 lat2 lon2.
Proof.
  unfold haversineKm. cbv zeta.
  pose proof (haversineRaw_nonneg lat1 lon1 lat2 lon2).
  destruct (Req_dec_T _ 0); lra.
Qed.

Lemma haversineKm_le (lat1 lon1 lat2 lon2 : R) :
  haversineKm lat1 lon1 lat2 lon2 <= 6371 * 4.
Proof.
  unfold haversineKm. cbv zeta.
  pose proof (haversineRaw_le lat1 lon1 lat2 lon2). pose proof PI_4.
  destruct (Req_dec_T _ 0); lra.
Qed.

Lemma haversineA_same (lat lon : R) : haversineA lat lon lat lon = 0.
Proof.
  unfold haversineA, toRad. cbv zeta.
  replace ((lat - lat) * PI / 180 / 2) with 0 by field.
  replace ((lon - lon) * PI / 180 / 2) with 0 by field.
  rewrite sin_0. ring.
Qed.

Lemma haversineRaw_same (lat lon : R) : haversineRaw lat lon lat lon = 0.
Proof.
  unfold haversineRaw. cbv zeta. rewrite haversineA_same.
  rewrite sqrt_0, Rminus_0_r, sqrt_1.
  unfold Js.atan2. destruct (Rlt_dec 0 1); [|lra].
  replace (0 / 1) with 0 by field. rewrite atan_0. ring.
Qed.

End GeoFacts.

(** C6.  The great-circle distance is strictly positive for every pair
    of coordinates: the raw haversine value (Earth radius 6371 km) is
    never negative, and where it is zero, as it is for identical
    coordinates, the function returns the floor of 1 km; so the progress
    increment never divides by zero. *)
Theorem C6_haversineKm_strictly_positive :
  forall lat1 lon1 lat2 lon2 : R,
    (0 < haversineKm lat1 lon1 lat2 lon2)%R
    /\ (haversineRaw lat1 lon1 lat2 lon2 = 0%R ->
        haversineKm lat1 lon1 lat2 lon2 = 1%R)
    /\ (haversineRaw lat1 lon1 lat2 lon2 <> 0%R ->
        haversineKm lat1 lon1 lat2 lon2 = haversineRaw lat1 lon1 lat2 lon2)
    /\ haversineKm lat1 lon1 lat1 lon1 = 1%R
    /\ haversineKm lat1 lon1 lat2 lon2 <> 0%R.
Proof.
  intros lat1 lon1 lat2 lon2.
  pose proof (haversineKm_pos lat1 lon1 lat2 lon2) as Hpos.
  repeat split.
  - exact Hpos.
  - intros H0. unfold haversineKm. cbv zeta.
    destruct (Req_dec_T _ 0%R); [reflexivity | contradiction].
  - intros Hn. unfold haversineKm. cbv zeta.
    destruct (Req_dec_T _ 0%R); [contradiction | reflexivity].
  - unfold haversineKm. cbv zeta.
    destruct (Req_dec_T _ 0%R) as [_ | Hn]; [reflexivity|].
    exfalso. apply Hn, haversineRaw_same.
  - lra.
Qed.

(** ** Computations that consume draws *)

Section RandFacts.

Context {A B : Type}.

Lemma mapM_cons (f : A -> Rand B) (a : A) (l : list A) (g : rng) :
  mapM f (a :: l) g =
  (fst (f a g) :: fst (mapM f l (snd (f a g))), snd (mapM f l (snd (f a g)))).
Proof.
  cbn [mapM]. unfold bind, ret.
  destruct (f a g) as [b g1]. cbn [fst snd].
  destruct (mapM f l g1) as [bs g2]. reflexivity.
Qed.

Lemma mapM_Forall2 (P : A -> B -> Prop) (f : A -> Rand B) :
  (forall a g, P a (fst (f a g))) ->
  forall l g, Forall2 P l (fst (mapM f l g)).
Proof.
  intros Hf l. induction l as [|a l IH]; intros g.
  - constructor.
  - rewrite mapM_cons. cbn [fst]. constructor; [apply Hf | apply IH].
Qed.

Lemma mapM_Forall (P : B -> Prop) (f : A -> Rand B) (l : list A) :
  (forall a g, In a l -> P (fst (f a g))) ->
  forall g, Forall P (fst (mapM f l g)).
Proof.
  induction l as [|a l IH]; intros Hf g.
  - constructor.
  - rewrite mapM_cons. cbn [fst]. constructor.
    + apply Hf. now left.
    + apply IH. intros a' g' Hin. apply Hf. now right.
Qed.

End RandFacts.

(** ** The cargo life cycle *)

Section Lifecycle.

Lemma awbAdvances_refl (a : Awb.t) : awbAdvances a a.
Proof. repeat split; auto. Qed.

Lemma awbAdvances_trans (a b c : Awb.t) :
  awbAdvances a b -> awbAdvances b c -> awbAdvances a c.
Proof.
  intros (Hn1 & Hr1 & Hd1) (Hn2 & Hr2 & Hd2). repeat split.
  - congruence.
  - lia.
  - intros Hd. specialize (Hd1 Hd). subst b. auto.
Qed.

Lemma Forall2_awbAdvances_refl (l : list Awb.t) : Forall2 awbAdvances l l.
Proof. induction l; constructor; auto using awbAdvances_refl. Qed.

Lemma Forall2_trans_gen {X} (P : X -> X -> Prop) :
  (forall a b c, P a b -> P b c -> P a c) ->
  forall l1 l2 l3, Forall2 P l1 l2 -> Forall2 P l2 l3 -> Forall2 P l1 l3.
Proof.
  intros Ht l1 l2 l3 H12. revert l3.
  induction H12; intros l3 H23; inversion H23; subst; constructor; eauto.
Qed.

Lemma carAdvances_refl (c : Car.t) : carAdvances c c.
Proof.
  split; [reflexivity|]. exists (Car.airwayBills c), [].
  rewrite app_nil_r. auto using Forall2_awbAdvances_refl.
Qed.

Lemma carAdvances_trans (a b c : Car.t) :
  carAdvances a b -> carAdvances b c -> carAdvances a c.
Proof.
  intros (Hn1 & k1 & n1 & E1 & F1) (Hn2 & k2 & n2 & E2 & F2).
  split; [congruence|].
  rewrite E1 in F2. apply Forall2_app_inv_l in F2.
  destruct F2 as (k2a & k2b & Fa & Fb & ->).
  exists k2a, (k2b ++ n2). split.
  - now rewrite E2, app_assoc.
  - eapply Forall2_trans_gen; eauto using awbAdvances_trans.
Qed.

Lemma trainAdvances_refl (t : Train.t) : trainAdvances t t.
Proof.
  split; [reflexivity|].
  induction (Train.cars t); constructor; auto using carAdvances_refl.
Qed.

Lemma trainAdvances_trans (a b c : Train.t) :
  trainAdvances a b -> trainAdvances b c -> trainAdvances a c.
Proof.
  intros [Hi1 H1] [Hi2 H2]. split; [congruence|].
  eapply Forall2_trans_gen; eauto using carAdvances_trans.
Qed.

Lemma fleetAdvances_trans (a b c : list Train.t) :
  fleetAdvances a b -> fleetAdvances b c -> fleetAdvances a c.
Proof. apply Forall2_trans_gen, trainAdvances_trans. Qed.

Lemma fleetAdvances_refl (l : list Train.t) : fleetAdvances l l.
Proof. induction l; constructor; auto using trainAdvances_refl. Qed.

Variable cfg : config.
Variable nowIso : string.

Lemma deliverAwb_advances (st : option string) (a : Awb.t) :
  awbAdvances a (deliverAwb nowIso st a).
Proof.
  unfold deliverAwb.
  destruct (Js.optStrEqb _ _ && negb (isDelivered (Awb.status a))) eqn:E.
  - apply andb_prop in E as [_ E]. repeat split; cbn.
    + destruct (Awb.status a); cbn; lia.
    + intros Hd. rewrite Hd in E. discriminate.
  - apply awbAdvances_refl.
Qed.

Lemma deliverAwb_frozen (st : option string) (a : Awb.t) :
  Awb.status a = DELIVERED -> deliverAwb nowIso st a = a.
Proof.
  intros Hd. unfold deliverAwb. rewrite Hd. cbn.
  now rewrite andb_false_r.
Qed.

Lemma departAwb_advances (oc : option string) (p : R) (a : Awb.t) :
  awbAdvances a (departAwb nowIso oc p a).
Proof.
  unfold departAwb.
  destruct (Js.optStrEqb _ _ && isLoaded (Awb.status a) && _) eqn:E.
  - apply andb_prop in E as [E _]. apply andb_prop in E as [_ E].
    repeat split; cbn.
    + destruct (Awb.status a); cbn in *; try discriminate; lia.
    + intros Hd. rewrite Hd in E. discriminate.
  - apply awbAdvances_refl.
Qed.

Lemma map_Forall2 {X Y} (P : X -> Y -> Prop) (f : X -> Y) (l : list X) :
  (forall x, P x (f x)) -> Forall2 P l (map f l).
Proof. intros H. induction l; constructor; auto. Qed.

Lemma arriveCar_advances (t : Train.t) (st : option string) (c : Car.t) (g : rng) :
  carAdvances c (fst (arriveCar nowIso t st c g)).
Proof.
  unfold arriveCar, bind, random, ret.
  destruct (Rlt_dec (draw g 0) 0.35).
  - destruct (newAwb nowIso t st (rngTail g)) as [a g']. cbn.
    split; [reflexivity|].
    exists (map (deliverAwb nowIso st) (Car.airwayBills c)), [a].
    split; [reflexivity|]. apply map_Forall2, deliverAwb_advances.
  - cbn. split; [reflexivity|].
    exists (map (deliverAwb nowIso st) (Car.airwayBills c)), [].
    rewrite app_nil_r. split; [reflexivity|].
    apply map_Forall2, deliverAwb_advances.
Qed.

Lemma departCar_advances (oc : option string) (p : R) (c : Car.t) :
  carAdvances c (departCar nowIso oc p c).
Proof.
  split; [reflexivity|].
  exists (map (departAwb nowIso oc p) (Car.airwayBills c)), [].
  rewrite app_nil_r. split; [reflexivity|].
  apply map_Forall2, departAwb_advances.
Qed.

Lemma rollover_cars (t : Train.t) :
  Train.cars (rollover t) = Train.cars t /\ Train.id (rollover t) = Train.id t
  /\ Train.route (rollover t) = Train.route t
  /\ Train.speedKmh (rollover t) = Train.speedKmh t
  /\ Train.dwellRemainingHours (rollover t) = Train.dwellRemainingHours t.
Proof. unfold rollover. destruct (Rle_dec 1 _); auto. Qed.

Lemma arrive_advances (t : Train.t) (st : option string) (g : rng) :
  trainAdvances t (fst (arrive cfg nowIso t st g)).
Proof.
  unfold arrive, bind, ret.
  pose proof (mapM_Forall2 carAdvances (arriveCar nowIso t st)
                (arriveCar_advances t st) (Train.cars t) g) as H.
  destruct (mapM _ _ g) as [cs g1]. destruct (randInt _ _ g1) as [d g2].
  cbn in *. split; auto.
Qed.

Lemma transit_advances (t : Train.t) (p : R) (g : rng) :
  trainAdvances t (fst (transit nowIso t p g)).
Proof.
  unfold transit, bind, ret.
  destruct (tweakSpeed _ g) as [s g1]. cbn. split; [reflexivity|].
  apply map_Forall2, departCar_advances.
Qed.

Lemma updateTrain_advances (t : Train.t) (g : rng) :
  trainAdvances t (fst (updateTrain cfg nowIso t g)).
Proof.
  unfold updateTrain.
  destruct (_ <? 2)%nat; [apply trainAdvances_refl|].
  destruct (Rlt_dec 0 _).
  - cbn. split; [reflexivity|].
    apply (proj2 (trainAdvances_refl t)).
  - cbv zeta.
    assert (Hr : trainAdvances t (rollover t)).
    { destruct (rollover_cars t) as (Hc & Hi & _). split; [auto|].
      rewrite Hc. apply (proj2 (trainAdvances_refl t)). }
    destruct (stationByCode _); [destruct (stationByCode _)|]; cbn [ret fst]; auto.
    destruct (Rle_dec 1 _).
    + eapply trainAdvances_trans; [exact Hr | apply arrive_advances].
    + eapply trainAdvances_trans; [exact Hr | apply transit_advances].
Qed.

Lemma updateTrains_advances (trains : list Train.t) (g : rng) :
  fleetAdvances trains (fst (updateTrains cfg nowIso trains g)).
Proof. apply mapM_Forall2, updateTrain_advances. Qed.

End Lifecycle.

Lemma runTicks_advances (cfg : config) (ticks : list string) :
  forall (trains : list Train.t) (g : rng),
    fleetAdvances trains (fst (runTicks cfg ticks trains g)).
Proof.
  induction ticks as [|now rest IH]; intros trains g.
  - apply fleetAdvances_refl.
  - cbn [runTicks]. unfold bind.
    pose proof (updateTrains_advances cfg now trains g) as H1.
    destruct (updateTrains cfg now trains g) as [trains' g']. cbn [fst] in H1.
    eapply fleetAdvances_trans; [exact H1 | apply IH].
Qed.

Lemma runTicks_app (cfg : config) (l1 l2 : list string) :
  forall (trains : list Train.t) (g : rng),
    runTicks cfg (l1 ++ l2) trains g
    = runTicks cfg l2 (fst (runTicks cfg l1 trains g)) (snd (runTicks cfg l1 trains g)).
Proof.
  induction l1 as [|now rest IH]; intros trains g; [reflexivity|].
  cbn [app runTicks]. unfold bind.
  destruct (updateTrains cfg now trains g) as [trains' g']. apply IH.
Qed.

Lemma Forall2_nth_error {X Y} (P : X -> Y -> Prop) (l : list X) (l' : list Y) :
  Forall2 P l l' ->
  forall i x, nth_error l i = Some x -> exists y, nth_error l' i = Some y /\ P x y.
Proof.
  induction 1 as [|a b l l' Hab Hl IH]; intros i x Hi.
  - destruct i; discriminate.
  - destruct i as [|i]; cbn in *.
    + injection Hi as <-. eauto.
    + eauto.
Qed.

(** An item keeps its place in its car, its car in its train, its train
    in the fleet. *)
Lemma fleetAdvances_item (fleet fleet' : list Train.t) :
  fleetAdvances fleet fleet' ->
  forall (i j k : nat) (t : Train.t) (c : Car.t) (a : Awb.t),
    nth_error fleet i = Some t ->
    nth_error (Train.cars t) j = Some c ->
    nth_error (Car.airwayBills c) k = Some a ->
    exists t' c' a',
      nth_error fleet' i = Some t'
      /\ nth_error (Train.cars t') j = Some c'
      /\ nth_error (Car.airwayBills c') k = Some a'
      /\ awbAdvances a a'.
Proof.
  intros Hf i j k t c a Ht Hc Ha.
  destruct (Forall2_nth_error _ _ _ Hf i _ Ht) as (t' & Ht' & _ & Hcars).
  destruct (Forall2_nth_error _ _ _ Hcars j _ Hc) as (c' & Hc' & _ & kept & loaded & E & Hk).
  destruct (Forall2_nth_error _ _ _ Hk k _ Ha) as (a' & Ha' & Haa).
  exists t', c', a'. repeat split; try assumption; try apply Haa.
  rewrite E. rewrite nth_error_app1; [exact Ha'|].
  apply nth_error_Some. congruence.
Qed.

(** C1.  Take the fleet after any ticks, and again after any further
    ticks.  Every cargo item of the earlier fleet is found at the same
    place in the later one, with the same awbNumber, and its status has
    only moved forward along LOADED, IN_TRANSIT, DELIVERED; an item that
    was DELIVERED is unchanged in every field (status, deliveredAt,
    offloadedAtStationCode, lastUpdated).  A second pass of the arrival
    delivery, at any station and time, returns a delivered item as the
    first pass left it. *)
Theorem C1_status_monotone_and_delivered_frozen :
  forall (cfg : config) (before after : list string)
         (trains : list Train.t) (g : rng),
    let earlier := fst (runTicks cfg before trains g) in
    let later := fst (runTicks cfg (before ++ after) trains g) in
    fleetAdvances earlier later
    /\ (forall (i j k : nat) (t : Train.t) (c : Car.t) (a : Awb.t),
          nth_error earlier i = Some t ->
          nth_error (Train.cars t) j = Some c ->
          nth_error (Car.airwayBills c) k = Some a ->
          exists t' c' a',
            nth_error later i = Some t'
            /\ nth_error (Train.cars t') j = Some c'
            /\ nth_error (Car.airwayBills c') k = Some a'
            /\ Awb.awbNumber a' = Awb.awbNumber a
            /\ (statusRank (Awb.status a) <= statusRank (Awb.status a'))%nat
            /\ (Awb.status a = DELIVERED -> a' = a))
    /\ (forall (now1 now2 : string) (st1 st2 : option string) (a : Awb.t),
          Awb.status (deliverAwb now1 st1 a) = DELIVERED ->
          deliverAwb now2 st2 (deliverAwb now1 st1 a) = deliverAwb now1 st1 a).
Proof.
  intros cfg before after trains g earlier later.
  assert (Hadv : fleetAdvances earlier later).
  { unfold earlier, later. rewrite runTicks_app. apply runTicks_advances. }
  split; [exact Hadv|]. split.
  - intros i j k t c a Ht Hc Ha.
    destruct (fleetAdvances_item _ _ Hadv i j k _ _ _ Ht Hc Ha)
      as (t' & c' & a' & Ht' & Hc' & Ha' & Hn & Hr & Hd).
    exists t', c', a'. repeat split; assumption.
  - intros now1 now2 st1 st2 a Hd. now apply deliverAwb_frozen.
Qed.

(** ** The random source *)

Section RandomFacts.

Lemma randInt_fst (min max : Z) (g : rng) :
  fst (randInt min max g) = (Zfloor (draw g 0 * IZR (max - min + 1)) + min)%Z.
Proof. reflexivity. Qed.

Lemma randInt_range (min max : Z) (g : rng) :
  (min <= max)%Z -> (min <= fst (randInt min max g) <= max)%Z.
Proof.
  intros Hmm. rewrite randInt_fst.
  pose proof (draw_ok g 0) as [Hu0 Hu1].
  set (n := (max - min + 1)%Z).
  assert (Hn : (1 <= IZR n)%R) by (apply IZR_le; unfold n; lia).
  assert (H0 : (0 <= Zfloor (draw g 0 * IZR n))%Z).
  { apply Zfloor_lub. simpl. nra. }
  assert (H1 : (Zfloor (draw g 0 * IZR n) < n)%Z).
  { apply lt_IZR. pose proof (Zfloor_bound (draw g 0 * IZR n)). nra. }
  unfold n in *. lia.
Qed.

Lemma randChoice_In {A} (first : A) (rest : list A) (g : rng) :
  In (fst (randChoice first rest g)) (first :: rest).
Proof.
  unfold randChoice, bind, ret.
  pose proof (randInt_range 0 (Z.of_nat (List.length (first :: rest)) - 1) g) as H.
  destruct (randInt _ _ g) as [i g']. cbn [fst] in *.
  apply nth_In. cbn [List.length] in *. lia.
Qed.

End RandomFacts.

(** ** Leg position *)

Section LegFacts.

Variable cfg : config.
Hypothesis dt_nonneg : (0 <= dtHours cfg)%R.

Lemma progressIncrement_nonneg (speed : Z) (from to : Station.t) :
  (0 <= speed)%Z -> (0 <= progressIncrement cfg speed from to)%R.
Proof.
  intros Hs. unfold progressIncrement. cbv zeta.
  pose proof (haversineKm_pos (Station.lat from) (Station.lon from)
                (Station.lat to) (Station.lon to)) as Hd.
  apply Rmult_le_pos.
  - apply Rmult_le_pos; [now apply IZR_le | assumption].
  - left. now apply Rinv_0_lt_compat.
Qed.

Lemma rollover_sane (t : Train.t) : trainSane t -> trainSane (rollover t).
Proof.
  intros (Hlen & (Hp & Hi) & Hs). unfold rollover.
  destruct (Rle_dec 1 _); [|repeat split; tauto].
  repeat split; cbn; try lra; try lia; try assumption;
    destruct (_ <=? _)%Z eqn:E; lia.
Qed.

Lemma tweakSpeed_nonneg (s : Z) (g : rng) :
  (0 <= s)%Z -> (0 <= fst (tweakSpeed s g))%Z.
Proof.
  intros Hs. unfold tweakSpeed, bind, random, ret.
  destruct (Rlt_dec _ _); cbn; lia.
Qed.

Lemma updateTrain_sane (nowIso : string) (t : Train.t) (g : rng) :
  trainSane t -> trainSane (fst (updateTrain cfg nowIso t g)).
Proof.
  intros Ht. unfold updateTrain.
  destruct (_ <? 2)%nat; [exact Ht|].
  destruct (Rlt_dec 0 _); [exact Ht|].
  cbv zeta. pose proof (rollover_sane _ Ht) as Hr.
  destruct (stationByCode _) as [from|]; [|exact Hr].
  destruct (stationByCode _) as [to|]; [|exact Hr].
  destruct Hr as (Hlen & (Hp & Hi) & Hs).
  pose proof (progressIncrement_nonneg _ from to Hs) as Hinc.
  destruct (Rle_dec 1 _) as [Harr | Htr].
  - unfold arrive, bind, ret.
    destruct (mapM _ _ g) as [cs g1]. destruct (randInt _ _ g1) as [d g2].
    repeat split; cbn; try lra; try lia; assumption.
  - unfold transit, bind, ret.
    pose proof (tweakSpeed_nonneg _ g Hs) as Hsp.
    destruct (tweakSpeed _ g) as [s g1].
    repeat split; cbn in *; try lra; try lia; assumption.
Qed.

Lemma updateTrains_sane (nowIso : string) (trains : list Train.t) (g : rng) :
  Forall trainSane trains ->
  Forall trainSane (fst (updateTrains cfg nowIso trains g)).
Proof.
  revert g. induction trains as [|t l IH]; intros g Hall.
  - constructor.
  - inversion Hall; subst. unfold updateTrains in *. rewrite mapM_cons.
    cbn [fst]. constructor; [now apply updateTrain_sane | now apply IH].
Qed.

Lemma updateTrain_arrival_clamps (nowIso : string) (t : Train.t) (g : rng) :
  arrivesThisTick cfg t ->
  Train.legProgress (fst (updateTrain cfg nowIso t g)) = 1%R.
Proof.
  intros (Hlen & Hdw & from & to & Hf & Hto & Harr). cbv zeta in *.
  unfold updateTrain.
  destruct (_ <? 2)%nat eqn:E; [apply Nat.ltb_lt in E; lia|].
  destruct (Rlt_dec 0 _); [contradiction|].
  cbv zeta. rewrite Hf, Hto.
  destruct (Rle_dec 1 _); [|contradiction].
  unfold arrive, bind, ret.
  destruct (mapM _ _ g) as [cs g1]. destruct (randInt _ _ g1) as [d g2].
  reflexivity.
Qed.

Lemma updateTrain_keeps_rolled_index (nowIso : string) (t : Train.t) (g : rng) :
  (2 <= List.length (Train.route t))%nat ->
  ~ (0 < Train.dwellRemainingHours t)%R ->
  Train.currentLegIndex (fst (updateTrain cfg nowIso t g))
  = Train.currentLegIndex (rollover t).
Proof.
  intros Hlen Hdw. unfold updateTrain.
  destruct (_ <? 2)%nat eqn:E; [apply Nat.ltb_lt in E; lia|].
  destruct (Rlt_dec 0 _); [contradiction|].
  cbv zeta.
  destruct (stationByCode _); [|reflexivity].
  destruct (stationByCode _); [|reflexivity].
  destruct (Rle_dec 1 _).
  - unfold arrive, bind, ret.
    destruct (mapM _ _ g) as [cs g1]. destruct (randInt _ _ g1) as [d g2].
    reflexivity.
  - unfold transit, bind, ret. destruct (tweakSpeed _ g) as [s g1]. reflexivity.
Qed.

Lemma rollover_wraps (t : Train.t) :
  finalLegCompleted t ->
  Train.currentLegIndex (rollover t) = 0%Z /\ Train.legProgress (rollover t) = 0%R.
Proof.
  intros (Hlen & _ & Hp & Hi). unfold rollover.
  destruct (Rle_dec 1 _); [|contradiction]. cbn. split; [|reflexivity].
  destruct (_ <=? _)%Z eqn:E; [reflexivity|]. apply Z.leb_gt in E. lia.
Qed.

Lemma runTicks_sane (ticks : list string) :
  forall (trains : list Train.t) (g : rng),
    Forall trainSane trains ->
    Forall trainSane (fst (runTicks cfg ticks trains g)).
Proof.
  induction ticks as [|now rest IH]; intros trains g Hall; [exact Hall|].
  cbn [runTicks]. unfold bind.
  pose proof (updateTrains_sane now trains g Hall) as H1.
  destruct (updateTrains cfg now trains g) as [trains' g']. now apply IH.
Qed.

End LegFacts.

Section InitialFleet.

Variable cfg : config.

Lemma ROUTES_length (route : list string) :
  In route ROUTES -> List.length route = 4%nat.
Proof.
  unfold ROUTES, ROUTES_rest.
  intros [<- | [<- | [<- | [<- | []]]]]; reflexivity.
Qed.

Lemma createTrain_sane (now : Z -> string) (i : Z) (g : rng) :
  trainSane (fst (createTrain cfg now i g)).
Proof.
  unfold createTrain. unfold bind at 1.
  pose proof (randChoice_In ROUTE_0 ROUTES_rest g) as Hroute.
  destruct (randChoice ROUTE_0 ROUTES_rest g) as [route g1]. cbn [fst] in Hroute.
  apply ROUTES_length in Hroute.
  unfold bind at 1.
  pose proof (randInt_range 40 80 g1 ltac:(lia)) as Hspeed.
  destruct (randInt 40 80 g1) as [speed g2]. cbn [fst] in Hspeed.
  unfold bind at 1. destruct (randInt 5 _ g2) as [carCount g3].
  unfold bind at 1. destruct (mapM _ _ g3) as [cars g4].
  unfold bind at 1. destruct (randChoice _ _ g4) as [nm g5].
  unfold bind, random, ret. cbn [fst].
  pose proof (draw_ok g5 0) as Hp.
  repeat split; cbn; try lra; try lia.
Qed.

Lemma createInitialTrains_sane (now : Z -> Z -> string) (g : rng) :
  Forall trainSane (fst (createInitialTrains cfg now g)).
Proof.
  unfold createInitialTrains. apply mapM_Forall.
  intros i g' _. apply createTrain_sane.
Qed.

End InitialFleet.

(** C2.  With a tick that moves simulated time forward (not backward),
    every train of a fleet made by [createInitialTrains] has, after every
    tick, 0 <= legProgress <= 1 and 0 <= currentLegIndex <= route.length - 2;
    one tick keeps this for any train that has it; a train that reaches the
    end of its leg on a tick ends the tick with legProgress exactly 1; and
    when the last leg has been completed, the rollover puts the train on
    leg 0 with legProgress 0, where it is at the end of the tick. *)
Theorem C2_leg_position_invariant :
  forall cfg : config,
    (0 <= dtHours cfg)%R ->
    (forall (now0 : Z -> Z -> string) (ticks : list string) (g : rng) (t : Train.t),
        In t (fst (runTicks cfg ticks
                     (fst (createInitialTrains cfg now0 g))
                     (snd (createInitialTrains cfg now0 g)))) ->
        legInvariant t)
    /\ (forall (nowIso : string) (t : Train.t) (g : rng),
          trainSane t ->
          trainSane (fst (updateTrain cfg nowIso t g))
          /\ legInvariant (fst (updateTrain cfg nowIso t g)))
    /\ (forall (nowIso : string) (t : Train.t) (g : rng),
          arrivesThisTick cfg t ->
          Train.legProgress (fst (updateTrain cfg nowIso t g)) = 1%R)
    /\ (forall (nowIso : string) (t : Train.t) (g : rng),
          finalLegCompleted t ->
          Train.currentLegIndex (rollover t) = 0%Z
          /\ Train.legProgress (rollover t) = 0%R
          /\ Train.currentLegIndex (fst (updateTrain cfg nowIso t g)) = 0%Z).
Proof.
  intros cfg Hdt. repeat apply conj.
  - intros now0 ticks g t Hin.
    pose proof (runTicks_sane cfg Hdt ticks _ (snd (createInitialTrains cfg now0 g))
                  (createInitialTrains_sane cfg now0 g)) as Hall.
    rewrite Forall_forall in Hall. apply (Hall t Hin).
  - intros nowIso t g Ht.
    pose proof (updateTrain_sane cfg Hdt nowIso t g Ht) as H. split; [exact H | apply H].
  - intros nowIso t g H. now apply updateTrain_arrival_clamps.
  - intros nowIso t g H. destruct (rollover_wraps t H) as [Hi Hp].
    repeat split; try assumption.
    destruct H as (Hlen & Hdw & _).
    now rewrite updateTrain_keeps_rolled_index.
Qed.

(** ** The filter engine *)

Section FilterFacts.

Lemma mapFilter_In {A B} (f : A -> option B) (l : list A) (b : B) :
  In b (mapFilter f l) <-> exists a, In a l /\ f a = Some b.
Proof.
  induction l as [|x l IH]; cbn.
  - split; [tauto | intros (a & [] & _)].
  - destruct (f x) as [y|] eqn:E; cbn; rewrite IH; split.
    + intros [<- | (a & Ha & Hf)]; eauto.
    + intros (a & [<- | Ha] & Hf); [left; congruence | eauto].
    + intros (a & Ha & Hf); eauto.
    + intros (a & [<- | Ha] & Hf); [congruence | eauto].
Qed.

Lemma mapFilter_all_none {A B} (f : A -> option B) (l : list A) :
  (forall a, In a l -> f a = None) -> mapFilter f l = [].
Proof.
  induction l as [|x l IH]; intros H; [reflexivity|]. cbn.
  rewrite (H x (or_introl eq_refl)). apply IH. intros a Ha. apply H. now right.
Qed.

Lemma truthy_Some (o : option string) :
  Js.truthy o = true -> exists f, o = Some f /\ f <> ""%string.
Proof.
  destruct o as [[|c s]|]; cbn; try discriminate.
  intros _. eexists; split; [reflexivity | discriminate].
Qed.

Lemma orElse_offload (a : Awb.t) :
  Js.orElse (Awb.offloadedAtStationCode a) (Some ""%string) = Some (offloadOrEmpty a).
Proof.
  unfold Js.orElse, offloadOrEmpty.
  destruct (Awb.offloadedAtStationCode a) as [[|c s]|]; reflexivity.
Qed.

Lemma matchesString_Some (v : option string) (f : string) :
  matchesString v (Some f) = true <-> exists c, v = Some c /\ containsCI c f.
Proof.
  unfold matchesString, containsCI. destruct v as [c|]; split.
  - intros H. eauto.
  - intros (c' & [= <-] & H). exact H.
  - discriminate.
  - intros (c' & [=] & _).
Qed.

Variable q : Query.t.

Lemma cargoId_guard (a : Awb.t) :
  Js.truthy (awbFilter q)
  && negb (matchesString (Some (Awb.awbNumber a)) (awbFilter q)) = false
  <-> satisfiesCargoId q a.
Proof.
  unfold satisfiesCargoId.
  destruct (Js.truthy (awbFilter q)) eqn:Ea; cbn [andb].
  - destruct (truthy_Some _ Ea) as (f & -> & _). rewrite negb_false_iff. split.
    + intros M _. exists f. split; [reflexivity | exact M].
    + intros H. destruct (H eq_refl) as (f' & [= <-] & Hc). exact Hc.
  - split; [discriminate | reflexivity].
Qed.

Lemma station_guard (a : Awb.t) :
  Js.truthy (Query.station q)
  && negb (matchesString (Awb.originStationCode a) (Query.station q)
           || matchesString (Awb.destStationCode a) (Query.station q)
           || matchesString
                (Js.orElse (Awb.offloadedAtStationCode a) (Some ""%string))
                (Query.station q)) = false
  <-> satisfiesStation q a.
Proof.
  unfold satisfiesStation. rewrite orElse_offload.
  destruct (Js.truthy (Query.station q)) eqn:Es; cbn [andb].
  - destruct (truthy_Some _ Es) as (f & -> & _).
    rewrite negb_false_iff, !orb_true_iff, !matchesString_Some. split.
    + intros M _. exists f. split; [reflexivity|].
      destruct M as [[M | M] | (c & [= <-] & M)]; auto.
    + intros H. destruct (H eq_refl) as (f' & [= <-] & [Hc | [Hc | Hc]]); eauto.
  - split; [discriminate | reflexivity].
Qed.

Lemma status_guard (a : Awb.t) :
  Js.truthy (Query.status q) && statusDiffers a (Query.status q) = false
  <-> satisfiesStatus q a.
Proof.
  unfold satisfiesStatus, statusDiffers.
  destruct (Js.truthy (Query.status q)) eqn:Et; cbn [andb].
  - destruct (truthy_Some _ Et) as (f & -> & _).
    rewrite negb_false_iff, String.eqb_eq. split.
    + intros M _. eauto.
    + intros H. destruct (H eq_refl) as (f' & [= <-] & Hc). exact Hc.
  - split; [discriminate | reflexivity].
Qed.

(** An item survives exactly when it satisfies every matcher present. *)
Lemma awbSurvives_iff (a : Awb.t) :
  awbSurvives q a = true <->
  satisfiesCargoId q a /\ satisfiesStation q a /\ satisfiesStatus q a.
Proof.
  rewrite <- cargoId_guard, <- station_guard, <- status_guard.
  unfold awbSurvives.
  destruct (Js.truthy (awbFilter q) && _); [intuition discriminate|].
  destruct (Js.truthy (Query.station q) && _); [intuition discriminate|].
  destruct (Js.truthy (Query.status q) && _); intuition discriminate.
Qed.

End FilterFacts.

Section FilterStructure.

Variable q : Query.t.

Lemma filter_carNumberOk (cars : list Car.t) :
  (if Js.truthy (Query.carNumber q)
   then List.filter
          (fun car => matchesString (Some (Car.carNumber car)) (Query.carNumber q))
          cars
   else cars)
  = List.filter (carNumberOk q) cars.
Proof.
  unfold carNumberOk. destruct (Js.truthy (Query.carNumber q)); [reflexivity|].
  induction cars as [|c l IH]; [reflexivity|]. cbn. now rewrite <- IH.
Qed.

Lemma filterCar_Some (c c' : Car.t) :
  filterCar q c = Some c' <->
  List.filter (awbSurvives q) (Car.airwayBills c) <> []
  /\ c' = Car.setAirwayBills c (List.filter (awbSurvives q) (Car.airwayBills c)).
Proof.
  unfold filterCar. destruct (List.filter _ _) as [|a l]; split.
  - discriminate.
  - intros [H _]. now contradiction H.
  - intros [= <-]. split; [discriminate | reflexivity].
  - intros [_ ->]. reflexivity.
Qed.

Lemma filterTrain_cargo (t : Snapshot.t) :
  cargoMatcherPresent q = true ->
  filterTrain q t =
  if trainNameOk q t
  then match mapFilter (filterCar q) (List.filter (carNumberOk q) (Snapshot.cars t)) with
       | [] => None
       | cs => Some (Snapshot.setCars t cs)
       end
  else None.
Proof.
  unfold cargoMatcherPresent, filterTrain, trainNameOk. intros ->.
  rewrite filter_carNumberOk.
  destruct (Js.truthy (Query.trainName q)); cbn [andb];
    [destruct (matchesString _ _); cbn [negb]|];
    try reflexivity;
    destruct (mapFilter _ _); reflexivity.
Qed.

Lemma filterTrain_plain (t : Snapshot.t) :
  cargoMatcherPresent q = false ->
  filterTrain q t =
  if trainNameOk q t
  then match List.filter (carNumberOk q) (Snapshot.cars t) with
       | [] => None
       | cs => Some (Snapshot.setCars t cs)
       end
  else None.
Proof.
  unfold cargoMatcherPresent, filterTrain, trainNameOk. intros ->.
  rewrite filter_carNumberOk.
  destruct (Js.truthy (Query.trainName q)); cbn [andb orb];
    [destruct (matchesString _ _); cbn [negb]|];
    try reflexivity;
    destruct (List.filter _ _); reflexivity.
Qed.



(** What a train of the output looks like when a cargo matcher is present. *)
Lemma applyFilters_sound (snapshots : list Snapshot.t) (t' : Snapshot.t) :
  cargoMatcherPresent q = true ->
  In t' (applyFilters q snapshots) ->
  exists t, In t snapshots /\ trainNameOk q t = true
    /\ t' = Snapshot.setCars t (Snapshot.cars t')
    /\ Snapshot.cars t' <> []
    /\ forall c', In c' (Snapshot.cars t') ->
         exists c, In c (Snapshot.cars t) /\ carNumberOk q c = true
           /\ c' = Car.setAirwayBills c
                     (List.filter (awbSurvives q) (Car.airwayBills c))
           /\ Car.airwayBills c' <> [].
Proof.
  intros Hq Hin. unfold applyFilters in Hin.
  apply mapFilter_In in Hin as (t & Ht & Hf).
  rewrite (filterTrain_cargo t Hq) in Hf.
  destruct (trainNameOk q t) eqn:En; [|discriminate].
  destruct (mapFilter _ _) as [|c0 cs] eqn:Ecs; [discriminate|].
  injection Hf as <-. exists t. repeat split; auto; cbn; try discriminate.
  intros c' Hc'. change (In c' (c0 :: cs)) in Hc'. rewrite <- Ecs in Hc'.
  apply mapFilter_In in Hc' as (c & Hc & Hfc).
  apply filter_In in Hc as [Hc Hok].
  apply filterCar_Some in Hfc as [Hne ->].
  exists c. repeat split; auto.
Qed.


End FilterStructure.


Section NoCriteria.

Variable q : Query.t.
Hypothesis Hq : noCriteria q.

Lemma noCriteria_no_cargo_matcher : cargoMatcherPresent q = false.
Proof.
  destruct Hq as (Ha & Hb & _ & _ & Hs & Ht).
  unfold cargoMatcherPresent, awbFilter, Js.orElse. now rewrite Ha, Hb, Hs, Ht.
Qed.

Lemma noCriteria_filterTrain (t : Snapshot.t) :
  filterTrain q t = match Snapshot.cars t with [] => None | _ => Some t end.
Proof.
  rewrite (filterTrain_plain q t noCriteria_no_cargo_matcher).
  destruct Hq as (_ & _ & Hn & Hc & _).
  unfold trainNameOk, carNumberOk. rewrite Hn, Hc.
  replace (List.filter (fun _ : Car.t => true) (Snapshot.cars t))
    with (Snapshot.cars t).
  - destruct t as [i n s r f o p l cars u]. destruct cars; reflexivity.
  - induction (Snapshot.cars t) as [|c l IH]; [reflexivity|]. cbn. now rewrite <- IH.
Qed.

Lemma noCriteria_applyFilters (snapshots : list Snapshot.t) :
  applyFilters q snapshots
  = List.filter (fun t => match Snapshot.cars t with [] => false | _ => true end)
      snapshots.
Proof.
  unfold applyFilters.
  induction snapshots as [|t l IH]; [reflexivity|]. cbn.
  rewrite noCriteria_filterTrain, IH. destruct (Snapshot.cars t); reflexivity.
Qed.

End NoCriteria.

(** C9, as the specification states it, fails: a train that pulls no car
    is dropped even when no criterion is present. *)
Lemma C9_counterexample_train_without_cars :
  noCriteria Query.empty
  /\ applyFilters Query.empty [Sample.emptySnapshot] = []
  /\ applyFilters Query.empty [Sample.emptySnapshot] <> [Sample.emptySnapshot].
Proof.
  split; [repeat split|]. split; [reflexivity | discriminate].
Qed.

(** C9, amended.  With every criterion absent the filter engine keeps
    exactly the trains that have at least one car, unchanged and in
    order; so it returns a snapshot list in which every train has at least
    one car unchanged in content. *)
Theorem C9_no_criteria_returns_input :
  forall (q : Query.t) (snapshots : list Snapshot.t),
    noCriteria q ->
    applyFilters q snapshots
    = List.filter (fun t => match Snapshot.cars t with [] => false | _ => true end)
        snapshots
    /\ ((forall t, In t snapshots -> Snapshot.cars t <> []) ->
        applyFilters q snapshots = snapshots).
Proof.
  intros q snapshots Hq. split; [now apply noCriteria_applyFilters|].
  intros Hcars. rewrite (noCriteria_applyFilters q Hq).
  induction snapshots as [|t l IH]; [reflexivity|]. cbn.
  destruct (Snapshot.cars t) eqn:E.
  - exfalso. apply (Hcars t); [now left | exact E].
  - f_equal. apply IH. intros t' Ht'. apply Hcars. now right.
Qed.

Section StationMatcher.

Variable q : Query.t.
Variable f : string.
Hypothesis Hstation : Query.station q = Some f.
Hypothesis Hpresent : f <> ""%string.

Lemma station_present : Js.truthy (Query.station q) = true.
Proof. rewrite Hstation. destruct f; [contradiction | reflexivity]. Qed.

Lemma station_cargo_matcher : cargoMatcherPresent q = true.
Proof.
  unfold cargoMatcherPresent. rewrite station_present.
  now rewrite orb_true_r.
Qed.

Lemma no_code_no_survivor (a : Awb.t) :
  stationMatchesNoCode f a -> awbSurvives q a = false.
Proof.
  intros (Ho & Hd & Hx).
  destruct (awbSurvives q a) eqn:E; [|reflexivity]. exfalso.
  apply awbSurvives_iff in E as (_ & Hs & _).
  destruct (Hs station_present) as (f' & Hf' & H).
  rewrite Hstation in Hf'. injection Hf' as <-.
  destruct H as [(c & Hc & H) | [(c & Hc & H) | H]].
  - exact (Ho c Hc H).
  - exact (Hd c Hc H).
  - exact (Hx H).
Qed.

Lemma no_code_filterCar (c : Car.t) :
  (forall a, In a (Car.airwayBills c) -> stationMatchesNoCode f a) ->
  filterCar q c = None.
Proof.
  intros H. unfold filterCar.
  replace (List.filter (awbSurvives q) (Car.airwayBills c)) with (@nil Awb.t);
    [reflexivity|].
  induction (Car.airwayBills c) as [|a l IH]; [reflexivity|]. cbn.
  rewrite (no_code_no_survivor a (H a (or_introl eq_refl))).
  apply IH. intros a' Ha'. apply H. now right.
Qed.

Lemma no_code_applyFilters (snapshots : list Snapshot.t) :
  (forall a, itemOf snapshots a -> stationMatchesNoCode f a) ->
  applyFilters q snapshots = [].
Proof.
  intros H. unfold applyFilters. apply mapFilter_all_none. intros t Ht.
  rewrite (filterTrain_cargo q t station_cargo_matcher).
  destruct (trainNameOk q t); [|reflexivity].
  rewrite mapFilter_all_none; [reflexivity|].
  intros c Hc. apply filter_In in Hc as [Hc _].
  apply no_code_filterCar. intros a Ha. apply H. now exists t, c.
Qed.

End StationMatcher.

Lemma station_name_in_no_code (st st' : Station.t) :
  In st STATIONS -> In st' STATIONS ->
  ~ containsCI (Station.code st') (Station.name st)
  /\ ~ containsCI ""%string (Station.name st)
  /\ Station.name st <> ""%string.
Proof.
  unfold STATIONS, containsCI.
  intros Hst Hst'. cbn [In] in Hst, Hst'.
  repeat (destruct Hst as [<- | Hst]); try contradiction;
    repeat (destruct Hst' as [<- | Hst']); try contradiction;
    repeat split; cbn; discriminate.
Qed.

(** C10.  The station matcher looks at the station codes of the items
    only.  A station filter that is present and is not a case-insensitive
    substring of the origin, destination or offload code (null read as the
    empty string) of any item yields the empty train list; in particular
    the full display name of any station of the registry yields the empty
    list on every snapshot list whose items carry registry codes. *)
Theorem C10_station_matcher_uses_codes_only :
  forall (q : Query.t) (snapshots : list Snapshot.t) (f : string),
    Query.station q = Some f ->
    (f <> ""%string ->
     (forall a, itemOf snapshots a -> stationMatchesNoCode f a) ->
     applyFilters q snapshots = [])
    /\ (forall st, In st STATIONS -> f = Station.name st ->
        (forall a, itemOf snapshots a -> codesInRegistry a) ->
        applyFilters q snapshots = []).
Proof.
  intros q snapshots f Hf. split.
  - intros Hne H. now apply (no_code_applyFilters q f Hf Hne).
  - intros st Hst -> Hreg.
    destruct (station_name_in_no_code st st Hst Hst) as (_ & Hempty & Hne).
    apply (no_code_applyFilters q (Station.name st) Hf Hne).
    intros a Ha. destruct (Hreg a Ha) as ((so & Hso & Eo) & (sd & Hsd & Ed) & Hx).
    repeat split.
    + intros c Hc. rewrite Eo in Hc. injection Hc as <-.
      apply (station_name_in_no_code st so Hst Hso).
    + intros c Hc. rewrite Ed in Hc. injection Hc as <-.
      apply (station_name_in_no_code st sd Hst Hsd).
    + unfold offloadOrEmpty. destruct Hx as [-> | (sx & Hsx & ->)].
      * exact Hempty.
      * apply (station_name_in_no_code st sx Hst Hsx).
Qed.

(** ** Evaluating the clock on tapes *)

Section TapeFacts.

Local Open Scope R_scope.

Lemma unit01_id (x : R) : 0 <= x < 1 -> unit01 x = x.
Proof.
  intros [H0 H1]. unfold unit01.
  destruct (Rle_dec 0 x); [|contradiction].
  destruct (Rlt_dec x 1); [reflexivity | contradiction].
Qed.

Lemma random_tape (x : R) (l : list R) :
  0 <= x < 1 -> random (tapeRng (x :: l)) = (x, tapeRng l).
Proof.
  intros Hx. unfold random. cbn [draw tapeRng nth]. rewrite (unit01_id x Hx).
  reflexivity.
Qed.

Lemma randInt_tape (min max z : Z) (x : R) (l : list R) :
  0 <= x < 1 ->
  IZR z <= x * IZR (max - min + 1) < IZR z + 1 ->
  randInt min max (tapeRng (x :: l)) = ((z + min)%Z, tapeRng l).
Proof.
  intros Hx Hz. unfold randInt, bind, ret. rewrite (random_tape x l Hx).
  now rewrite (Zfloor_eq z _ Hz).
Qed.

End TapeFacts.

Section ClockEvaluation.

Variable cfg : config.
Variable nowIso : string.

Lemma rollover_not_arrived (t : Train.t) :
  (Train.legProgress t < 1)%R -> rollover t = t.
Proof.
  intros H. unfold rollover. destruct (Rle_dec 1 _); [lra | reflexivity].
Qed.

(** The tick of a moving train that reaches the end of its leg. *)
Lemma updateTrain_arrives (t : Train.t) (g : rng) (from to : Station.t) :
  (2 <= List.length (Train.route t))%nat ->
  (Train.dwellRemainingHours t <= 0)%R ->
  (Train.legProgress t < 1)%R ->
  stationByCode (Js.index (Train.route t) (Train.currentLegIndex t)) = Some from ->
  stationByCode (Js.index (Train.route t) (Train.currentLegIndex t + 1)) = Some to ->
  (1 <= Train.legProgress t + progressIncrement cfg (Train.speedKmh t) from to)%R ->
  updateTrain cfg nowIso t g
  = arrive cfg nowIso t (Js.index (Train.route t) (Train.currentLegIndex t + 1)) g.
Proof.
  intros Hlen Hdw Hlp Hf Hto Harr. unfold updateTrain.
  destruct (_ <? 2)%nat eqn:E; [apply Nat.ltb_lt in E; lia|].
  destruct (Rlt_dec 0 _); [lra|].
  cbv zeta. rewrite (rollover_not_arrived t Hlp), Hf, Hto.
  destruct (Rle_dec 1 _); [reflexivity | contradiction].
Qed.

(** The tick of a moving train that stays between the two stations. *)
Lemma updateTrain_in_transit (t : Train.t) (g : rng) (from to : Station.t) :
  (2 <= List.length (Train.route t))%nat ->
  (Train.dwellRemainingHours t <= 0)%R ->
  (Train.legProgress t < 1)%R ->
  stationByCode (Js.index (Train.route t) (Train.currentLegIndex t)) = Some from ->
  stationByCode (Js.index (Train.route t) (Train.currentLegIndex t + 1)) = Some to ->
  (Train.legProgress t + progressIncrement cfg (Train.speedKmh t) from to < 1)%R ->
  updateTrain cfg nowIso t g
  = transit nowIso t
      (Train.legProgress t + progressIncrement cfg (Train.speedKmh t) from to) g.
Proof.
  intros Hlen Hdw Hlp Hf Hto Harr. unfold updateTrain.
  destruct (_ <? 2)%nat eqn:E; [apply Nat.ltb_lt in E; lia|].
  destruct (Rlt_dec 0 _); [lra|].
  cbv zeta. rewrite (rollover_not_arrived t Hlp), Hf, Hto.
  destruct (Rle_dec 1 _); [lra | reflexivity].
Qed.

(** The tick of a dwelling train. *)
Lemma updateTrain_dwelling (t : Train.t) (g : rng) :
  (2 <= List.length (Train.route t))%nat ->
  (0 < Train.dwellRemainingHours t)%R ->
  updateTrain cfg nowIso t g = (dwellStep cfg nowIso t, g).
Proof.
  intros Hlen Hdw. unfold updateTrain.
  destruct (_ <? 2)%nat eqn:E; [apply Nat.ltb_lt in E; lia|].
  destruct (Rlt_dec 0 _); [reflexivity | contradiction].
Qed.

Lemma arriveCar_loads (t : Train.t) (st : option string) (car : Car.t)
    (x : R) (l : list R) :
  (0 <= x < 0.35)%R ->
  arriveCar nowIso t st car (tapeRng (x :: l))
  = (Car.setAirwayBills car
       (map (deliverAwb nowIso st) (Car.airwayBills car)
        ++ [fst (newAwb nowIso t st (tapeRng l))]),
     snd (newAwb nowIso t st (tapeRng l))).
Proof.
  intros Hx. unfold arriveCar, bind, ret.
  rewrite random_tape by lra.
  destruct (Rlt_dec x 0.35); [|lra].
  destruct (newAwb _ _ _ _); reflexivity.
Qed.

Lemma arriveCar_skips (t : Train.t) (st : option string) (car : Car.t)
    (x : R) (l : list R) :
  (0.35 <= x < 1)%R ->
  arriveCar nowIso t st car (tapeRng (x :: l))
  = (Car.setAirwayBills car (map (deliverAwb nowIso st) (Car.airwayBills car)),
     tapeRng l).
Proof.
  intros Hx. unfold arriveCar, bind, ret.
  rewrite random_tape by lra.
  destruct (Rlt_dec x 0.35); [lra | reflexivity].
Qed.

Lemma newAwb_tape (t : Train.t) (st : option string)
    (u1 u2 u3 u4 : R) (l : list R) (k j p w : Z) :
  (0 <= u1 < 1)%R -> (0 <= u2 < 1)%R -> (0 <= u3 < 1)%R -> (0 <= u4 < 1)%R ->
  (IZR k <= u1 * 900 < IZR k + 1)%R ->
  (IZR j <= u2 * IZR (Z.of_nat (List.length (Train.route t)) - 1
                      - (Train.currentLegIndex t + 1) + 1) < IZR j + 1)%R ->
  (IZR p <= u3 * 10 < IZR p + 1)%R ->
  (IZR w <= u4 * 19501 < IZR w + 1)%R ->
  newAwb nowIso t st (tapeRng (u1 :: u2 :: u3 :: u4 :: l))
  = ({| Awb.awbNumber :=
          generateAwbNumber
            (Js.addInt (Js.parseInt (Js.slice1 (Train.id t))) (-1)) 0 (k + 100);
        Awb.originStationCode := st;
        Awb.destStationCode :=
          Js.index (Train.route t) (j + (Train.currentLegIndex t + 1));
        Awb.pieces := p + 1;
        Awb.weightKg := w + 500;
        Awb.status := LOADED;
        Awb.lastUpdated := nowIso;
        Awb.loadedAt := nowIso;
        Awb.deliveredAt := None;
        Awb.offloadedAtStationCode := None |}, tapeRng l).
Proof.
  intros H1 H2 H3 H4 Hk Hj Hp Hw. unfold newAwb, bind, ret.
  rewrite (randInt_tape 100 999 k u1 _ H1) by exact Hk.
  rewrite (randInt_tape _ _ j u2 _ H2) by exact Hj.
  rewrite (randInt_tape 1 10 p u3 _ H3) by exact Hp.
  rewrite (randInt_tape 500 20000 w u4 _ H4) by exact Hw.
  reflexivity.
Qed.

End ClockEvaluation.

(** ** Numerical bounds for the first leg, LA to KC *)

Section Numerics.

Local Open Scope R_scope.

Lemma PI_bounds : 3.14159 < PI < 3.1416.
Proof.
pose proof (PI_2_3_7_ineq 2) as [Hlo Hhi].
unfold sum_f_R0, tg_alt, PI_2_3_7_tg, Ratan_seq in Hlo, Hhi.
simpl in Hlo, Hhi.
split; lra.
Qed.

Ltac fact_to_IZR :=
repeat match goal with
| |- context [INR (fact ?n)] =>
    let v := eval vm_compute in (Z.of_nat (fact n)) in
    replace (INR (fact n)) with (IZR v)
      by (rewrite INR_IZR_INZ; apply f_equal; vm_compute; reflexivity)
end.

Lemma sin_lb_poly a : sin_lb a = a - a^3/6 + a^5/120 - a^7/5040.
Proof.
unfold sin_lb, sin_approx, sin_term. cbn [sum_f_R0 Nat.mul Nat.add].
fact_to_IZR. field.
Qed.
Lemma sin_ub_poly a : sin_ub a = a - a^3/6 + a^5/120 - a^7/5040 + a^9/362880.
Proof.
unfold sin_ub, sin_approx, sin_term. cbn [sum_f_R0 Nat.mul Nat.add].
fact_to_IZR. field.
Qed.
Lemma cos_lb_poly a : cos_lb a = 1 - a^2/2 + a^4/24 - a^6/720.
Proof.
unfold cos_lb, cos_approx, cos_term. cbn [sum_f_R0 Nat.mul Nat.add].
fact_to_IZR. field.
Qed.
Lemma cos_ub_poly a : cos_ub a = 1 - a^2/2 + a^4/24 - a^6/720 + a^8/40320.
Proof.
unfold cos_ub, cos_approx, cos_term. cbn [sum_f_R0 Nat.mul Nat.add].
fact_to_IZR. field.
Qed.

Lemma sin_le_ub (x h : R) : 0 <= x -> x <= h -> h <= 3/2 -> sin x <= sin_ub h.
Proof.
intros H0 Hxh Hh. pose proof PI_bounds.
apply Rle_trans with (sin h).
- apply sin_incr_1; lra.
- apply SIN; lra.
Qed.

Lemma sin_ge_lb (l x : R) : 0 <= l -> l <= x -> x <= 3/2 -> sin_lb l <= sin x.
Proof.
intros H0 Hlx Hx. pose proof PI_bounds.
apply Rle_trans with (sin l).
- apply SIN; lra.
- apply sin_incr_1; lra.
Qed.

Lemma cos_le_ub (l x : R) : 0 <= l -> l <= x -> x <= 3/2 -> cos x <= cos_ub l.
Proof.
intros H0 Hlx Hx. pose proof PI_bounds.
apply Rle_trans with (cos l).
- apply cos_decr_1; lra.
- apply COS; lra.
Qed.

Lemma cos_ge_lb (x h : R) : 0 <= x -> x <= h -> h <= 3/2 -> cos_lb h <= cos x.
Proof.
intros H0 Hxh Hh. pose proof PI_bounds.
apply Rle_trans with (cos h).
- apply COS; lra.
- apply cos_decr_1; lra.
Qed.

(** [atan2 (sqrt a) (sqrt (1 - a))] is the angle whose sine is [sqrt a]. *)
Lemma sin_atan_sqrt (a : R) :
0 < a < 1 -> sin (atan (sqrt a / sqrt (1 - a))) = sqrt a.
Proof.
intros [Ha0 Ha1].
assert (Hs : 0 < sqrt (1 - a)) by (apply sqrt_lt_R0; lra).
rewrite sin_atan.
assert (Hsq : 1 + (sqrt a / sqrt (1 - a))² = / (1 - a)).
{ unfold Rsqr.
  replace (sqrt a / sqrt (1 - a) * (sqrt a / sqrt (1 - a)))
    with ((sqrt a * sqrt a) / (sqrt (1 - a) * sqrt (1 - a)))
    by (field; lra).
  rewrite !sqrt_sqrt by lra. field. lra. }
rewrite Hsq, sqrt_inv. field. lra.
Qed.

Lemma half_angle_ge (a th : R) :
0 < a < 1 -> 0 <= th <= 3/2 -> (sin th)² <= a ->
th <= atan (sqrt a / sqrt (1 - a)).
Proof.
intros Ha Hth Hsin. pose proof PI_bounds.
destruct (Rle_lt_dec th (atan (sqrt a / sqrt (1 - a)))) as [|Hlt]; [assumption|].
exfalso.
pose proof (atan_bound (sqrt a / sqrt (1 - a))) as Hb.
assert (Hs : sin (atan (sqrt a / sqrt (1 - a))) < sin th)
  by (apply sin_increasing_1; lra).
rewrite sin_atan_sqrt in Hs by assumption.
assert (0 <= sqrt a) by apply sqrt_pos.
assert (sqrt a * sqrt a < sin th * sin th) by nra.
rewrite sqrt_sqrt in * by lra. unfold Rsqr in Hsin. lra.
Qed.

Lemma half_angle_le (a th : R) :
0 < a < 1 -> 0 <= th <= 3/2 -> a <= (sin th)² ->
atan (sqrt a / sqrt (1 - a)) <= th.
Proof.
intros Ha Hth Hsin. pose proof PI_bounds.
destruct (Rle_lt_dec (atan (sqrt a / sqrt (1 - a))) th) as [|Hlt]; [assumption|].
exfalso.
pose proof (atan_bound (sqrt a / sqrt (1 - a))) as Hb.
assert (Hs : sin th < sin (atan (sqrt a / sqrt (1 - a))))
  by (apply sin_increasing_1; lra).
rewrite sin_atan_sqrt in Hs by assumption.
assert (0 <= sin th).
{ apply sin_ge_0; lra. }
assert (sin th * sin th < sqrt a * sqrt a) by nra.
rewrite sqrt_sqrt in * by lra. unfold Rsqr in Hsin. lra.
Qed.

Lemma mult_bounds (x y xl xh yl yh : R) :
0 <= xl -> xl <= x <= xh -> 0 <= yl -> yl <= y <= yh ->
xl * yl <= x * y <= xh * yh.
Proof. intros. split; apply Rmult_le_compat; lra. Qed.

Lemma haversineA_bounds_LA_KC :
0.0289397 <= (sin (5.071 * PI / 360) * sin (5.071 * PI / 360)
 + cos (34.033 * PI / 180) * cos (39.104 * PI / 180)
   * sin (23.64 * PI / 360) * sin (23.64 * PI / 360)) <= 0.0289402.
Proof.
pose proof PI_bounds as [Hpl Hph].
set (t1 := 5.071 * PI / 360). set (t2 := 23.64 * PI / 360).
set (a1 := 34.033 * PI / 180). set (a2 := 39.104 * PI / 180).
assert (Ht1 : 0.0442527 <= t1 <= 0.044253) by (unfold t1; lra).
assert (Ht2 : 0.2062977 <= t2 <= 0.2062984) by (unfold t2; lra).
assert (Ha1 : 0.5939874 <= a1 <= 0.5939893) by (unfold a1; lra).
assert (Ha2 : 0.6824929 <= a2 <= 0.6824952) by (unfold a2; lra).
assert (Hs1 : 0.0442382 <= sin t1 <= 0.0442386).
{ pose proof (sin_ge_lb 0.0442527 t1) as L. pose proof (sin_le_ub t1 0.044253) as U.
  rewrite sin_lb_poly in L. rewrite sin_ub_poly in U. split; lra. }
assert (Hs2 : 0.2048375 <= sin t2 <= 0.2048383).
{ pose proof (sin_ge_lb 0.2062977 t2) as L. pose proof (sin_le_ub t2 0.2062984) as U.
  rewrite sin_lb_poly in L. rewrite sin_ub_poly in U. split; lra. }
assert (Hc1 : 0.8287141 <= cos a1 <= 0.8287157).
{ pose proof (cos_ge_lb a1 0.5939893) as L. pose proof (cos_le_ub 0.5939874 a1) as U.
  rewrite cos_lb_poly in L. rewrite cos_ub_poly in U. split; lra. }
assert (Hc2 : 0.7760001 <= cos a2 <= 0.7760028).
{ pose proof (cos_ge_lb a2 0.6824952) as L. pose proof (cos_le_ub 0.6824929 a2) as U.
  rewrite cos_lb_poly in L. rewrite cos_ub_poly in U. split; lra. }
pose proof (mult_bounds (sin t1) (sin t1) 0.0442382 0.0442386 0.0442382 0.0442386) as P1.
pose proof (mult_bounds (cos a1) (cos a2) 0.8287141 0.8287157 0.7760001 0.7760028) as P2.
pose proof (mult_bounds (cos a1 * cos a2) (sin t2)
              (0.8287141 * 0.7760001) (0.8287157 * 0.7760028) 0.2048375 0.2048383) as P3.
pose proof (mult_bounds (cos a1 * cos a2 * sin t2) (sin t2)
              (0.8287141 * 0.7760001 * 0.2048375) (0.8287157 * 0.7760028 * 0.2048383)
              0.2048375 0.2048383) as P4.
split; lra.
Qed.

Lemma atan2_sqrt_first_quadrant (a : R) :
0 < a < 1 -> Js.atan2 (sqrt a) (sqrt (1 - a)) = atan (sqrt a / sqrt (1 - a)).
Proof.
intros Ha. unfold Js.atan2.
assert (0 < sqrt (1 - a)) by (apply sqrt_lt_R0; lra).
destruct (Rlt_dec 0 (sqrt (1 - a))); [reflexivity | contradiction].
Qed.

Lemma haversineA_LA_KC :
0.0289397 <= haversineA 34.033 (-118.238) 39.104 (-94.598) <= 0.0289402.
Proof.
unfold haversineA, toRad. cbv zeta.
replace ((39.104 - 34.033) * PI / 180 / 2) with (5.071 * PI / 360) by lra.
replace ((-94.598 - -118.238) * PI / 180 / 2) with (23.64 * PI / 360) by lra.
exact haversineA_bounds_LA_KC.
Qed.

Lemma haversineRaw_LA_KC :
2177 < haversineRaw 34.033 (-118.238) 39.104 (-94.598) < 2179.
Proof.
pose proof haversineA_LA_KC as Ha.
unfold haversineRaw, earthRadiusKm. cbv zeta.
set (a := haversineA 34.033 (-118.238) 39.104 (-94.598)) in *.
rewrite atan2_sqrt_first_quadrant by lra.
assert (Hlo : 0.1709 <= atan (sqrt a / sqrt (1 - a))).
{ apply half_angle_ge; [lra | lra |].
  pose proof (sin_le_ub 0.1709 0.1709) as U. rewrite sin_ub_poly in U.
  assert (0 <= sin 0.1709) by (pose proof PI_bounds; apply sin_ge_0; lra).
  assert (sin 0.1709 <= 0.17007) by lra.
  unfold Rsqr. nra. }
assert (Hhi : atan (sqrt a / sqrt (1 - a)) <= 0.171).
{ apply half_angle_le; [lra | lra |].
  pose proof (sin_ge_lb 0.171 0.171) as L. rewrite sin_lb_poly in L.
  assert (0.17016 <= sin 0.171) by lra.
  unfold Rsqr. nra. }
split; lra.
Qed.

Lemma haversineKm_LA_KC :
2177 < haversineKm 34.033 (-118.238) 39.104 (-94.598) < 2179.
Proof.
pose proof haversineRaw_LA_KC as H. unfold haversineKm. cbv zeta.
destruct (Req_dec_T _ 0); lra.
Qed.

End Numerics.

(** ** The arrival tick of the sample train *)

Section ArrivalTick.

Lemma progressIncrement_lower (cfg : config) (speed : Z) (from to : Station.t) :
  (0 <= IZR speed * dtHours cfg)%R ->
  (IZR speed * dtHours cfg / 25484 <= progressIncrement cfg speed from to)%R.
Proof.
  intros H. unfold progressIncrement. cbv zeta.
  pose proof (haversineKm_pos (Station.lat from) (Station.lon from)
                (Station.lat to) (Station.lon to)) as Hp.
  pose proof (haversineKm_le (Station.lat from) (Station.lon from)
                (Station.lat to) (Station.lon to)) as Hl.
  unfold Rdiv. apply Rmult_le_compat_l; [exact H|].
  apply Rinv_le_contravar; lra.
Qed.

Lemma dtHours_default : dtHours defaultConfig = (/ 12)%R.
Proof. unfold dtHours, defaultConfig. cbn. lra. Qed.

Lemma mapM_step {A B} (f : A -> Rand B) (a : A) (l : list A)
    (g g1 g2 : rng) (b : B) (bs : list B) :
  f a g = (b, g1) -> mapM f l g1 = (bs, g2) -> mapM f (a :: l) g = (b :: bs, g2).
Proof.
  intros Hf Hl. cbn [mapM]. unfold bind, ret. now rewrite Hf, Hl.
Qed.

Lemma arrival_cars :
  mapM (arriveCar Sample.stamp1 Sample.nearKC (Some "KC"%string))
       Sample.freshCars (tapeRng Sample.arrivalTape)
  = (Sample.carsAtKC, tapeRng [0.5%R]).
Proof.
  unfold Sample.freshCars, Sample.arrivalTape, Sample.carsAtKC.
  eapply mapM_step.
  { rewrite arriveCar_loads by lra.
    rewrite (newAwb_tape _ _ _ 0.5 0.1 0.3 0.4 _ 450 0 3 7800) by (cbn; lra).
    cbn [fst snd]. reflexivity. }
  eapply mapM_step.
  { rewrite arriveCar_loads by lra.
    rewrite (newAwb_tape _ _ _ 0.5 0.7 0.6 0.1 _ 450 2 6 1950) by (cbn; lra).
    cbn [fst snd]. reflexivity. }
  eapply mapM_step; [rewrite arriveCar_skips by lra; reflexivity|].
  eapply mapM_step; [rewrite arriveCar_skips by lra; reflexivity|].
  eapply mapM_step; [rewrite arriveCar_skips by lra; reflexivity|].
  reflexivity.
Qed.

(** The first tick of [Sample.nearKC] under the default configuration. *)
Lemma arrival_tick :
  updateTrain defaultConfig Sample.stamp1 Sample.nearKC (tapeRng Sample.arrivalTape)
  = (Sample.atKC, tapeRng []).
Proof.
  assert (Hf : stationByCode (Js.index (Train.route Sample.nearKC)
                                (Train.currentLegIndex Sample.nearKC))
               = Some (Station.mk "LA" "Los Angeles Freight Yard" "Los Angeles" "CA"
                         34.033 (-118.238))) by reflexivity.
  assert (Ht : stationByCode (Js.index (Train.route Sample.nearKC)
                                (Train.currentLegIndex Sample.nearKC + 1))
               = Some (Station.mk "KC" "Kansas City Intermodal" "Kansas City" "MO"
                         39.104 (-94.598))) by reflexivity.
  rewrite (updateTrain_arrives defaultConfig Sample.stamp1 Sample.nearKC _ _ _
             ltac:(cbn; lia)
             ltac:(unfold Sample.nearKC;
                   cbn [Train.dwellRemainingHours Sample.freshTrain]; lra)
             ltac:(unfold Sample.nearKC;
                   cbn [Train.legProgress Sample.freshTrain]; lra) Hf Ht).
  - unfold arrive, bind, ret.
    change (Train.cars Sample.nearKC) with Sample.freshCars.
    change (Js.index (Train.route Sample.nearKC)
              (Train.currentLegIndex Sample.nearKC + 1))
      with (Some "KC"%string).
    rewrite arrival_cars.
    rewrite (randInt_tape _ _ 8 0.5) by (cbn; lra).
    reflexivity.
  - pose proof (progressIncrement_lower defaultConfig 60
                  (Station.mk "LA" "Los Angeles Freight Yard" "Los Angeles" "CA"
                         34.033 (-118.238))
                  (Station.mk "KC" "Kansas City Intermodal" "Kansas City" "MO"
                         39.104 (-94.598))) as H.
    rewrite dtHours_default in H.
    cbn [Train.legProgress Train.speedKmh Sample.nearKC Sample.freshTrain]. lra.
Qed.

End ArrivalTick.

(** ** Where new items are bound *)

Section Destinations.

(** At creation the destination index lies strictly after the origin index. *)
Lemma createAirwayBill_dest_after_origin
    (now : string) (route : list string) (trainIndex carIndex i : Z) (g : rng) :
  (2 <= List.length route)%nat ->
  exists originIdx destIdx : Z,
    (0 <= originIdx < destIdx)%Z
    /\ (destIdx <= Z.of_nat (List.length route) - 1)%Z
    /\ Awb.originStationCode (fst (createAirwayBill now route trainIndex carIndex i g))
       = Js.index route originIdx
    /\ Awb.destStationCode (fst (createAirwayBill now route trainIndex carIndex i g))
       = Js.index route destIdx.
Proof.
  intros Hlen. unfold createAirwayBill, bind, ret. cbv zeta.
  pose proof (randInt_range 0 (Z.of_nat (List.length route) - 2) g ltac:(lia)) as Ho.
  destruct (randInt 0 _ g) as [o g1]. cbn [fst] in Ho.
  pose proof (randInt_range (o + 1) (Z.of_nat (List.length route) - 1) g1
                ltac:(lia)) as Hd.
  destruct (randInt (o + 1) _ g1) as [d g2]. cbn [fst] in Hd.
  destruct (randInt 1 10 g2) as [p g3].
  destruct (randInt 500 20000 g3) as [w g4].
  exists o, d. cbn [fst Awb.originStationCode Awb.destStationCode].
  repeat split; lia.
Qed.

(** On arrival the destination index of a new item starts at the index
    of the arrival station itself. *)
Lemma newAwb_dest_from_arrival
    (now : string) (t : Train.t) (st : option string) (g : rng) :
  (Train.currentLegIndex t + 1 <= Z.of_nat (List.length (Train.route t)) - 1)%Z ->
  Awb.originStationCode (fst (newAwb now t st g)) = st
  /\ exists destIdx : Z,
       (Train.currentLegIndex t + 1 <= destIdx
        <= Z.of_nat (List.length (Train.route t)) - 1)%Z
       /\ Awb.destStationCode (fst (newAwb now t st g))
          = Js.index (Train.route t) destIdx.
Proof.
  intros Hi. unfold newAwb, bind, ret. cbv zeta.
  destruct (randInt 100 999 g) as [k g1].
  pose proof (randInt_range (Train.currentLegIndex t + 1)
                (Z.of_nat (List.length (Train.route t)) - 1) g1 Hi) as Hd.
  destruct (randInt _ _ g1) as [d g2]. cbn [fst] in Hd.
  destruct (randInt 1 10 g2) as [p g3].
  destruct (randInt 500 20000 g3) as [w g4].
  cbn [fst Awb.originStationCode Awb.destStationCode].
  split; [reflexivity|]. exists d. split; [lia | reflexivity].
Qed.

(** On the last leg there is no station after the arrival station. *)
Lemma newAwb_last_leg
    (now : string) (t : Train.t) (g : rng) :
  Train.currentLegIndex t = (Z.of_nat (List.length (Train.route t)) - 2)%Z ->
  let arrivalStationCode :=
    Js.index (Train.route t) (Train.currentLegIndex t + 1) in
  Awb.originStationCode (fst (newAwb now t arrivalStationCode g))
    = arrivalStationCode
  /\ Awb.destStationCode (fst (newAwb now t arrivalStationCode g))
    = arrivalStationCode.
Proof.
  intros Hi st.
  destruct (newAwb_dest_from_arrival now t st g ltac:(lia)) as (Ho & d & Hd & E).
  split; [exact Ho|]. rewrite E. unfold st. f_equal. lia.
Qed.

End Destinations.

(** C4 does not hold of the code.  The train [Sample.nearKC] is in the state
    [createInitialTrains] gives a train of the first route; on its first
    tick it reaches KC, and the item loaded there into its first car has KC
    both as origin and as destination.  On the last leg of any route every
    item loaded on arrival has the arrival station as origin and as
    destination. *)
Theorem C4_item_loaded_on_arrival_may_be_bound_for_its_origin :
  fst (updateTrain defaultConfig Sample.stamp1 Sample.nearKC
         (tapeRng Sample.arrivalTape)) = Sample.atKC
  /\ (exists c, nth_error (Train.cars Sample.atKC) 0 = Some c
        /\ In Sample.loadedInCar1 (Car.airwayBills c))
  /\ Awb.originStationCode Sample.loadedInCar1 = Some "KC"%string
  /\ Awb.destStationCode Sample.loadedInCar1 = Some "KC"%string
  /\ (forall (now : string) (t : Train.t) (g : rng),
        Train.currentLegIndex t = (Z.of_nat (List.length (Train.route t)) - 2)%Z ->
        Awb.destStationCode
          (fst (newAwb now t (Js.index (Train.route t) (Train.currentLegIndex t + 1)) g))
        = Awb.originStationCode
            (fst (newAwb now t (Js.index (Train.route t) (Train.currentLegIndex t + 1)) g))).
Proof.
  split; [now rewrite arrival_tick|].
  split; [eexists; split; [reflexivity | cbn; auto]|].
  split; [reflexivity|]. split; [reflexivity|].
  intros now t g Hi. destruct (newAwb_last_leg now t g Hi) as [Ho Hd].
  now rewrite Ho, Hd.
Qed.

(** C7 does not hold of the code.  On the tick on which [Sample.nearKC]
    reaches KC, its first and its second car each load a new item; the two
    items differ (destination, pieces, weight) and carry the same
    awbNumber.  Besides, the number of the first item of car 11 of train 1
    is that of the first item of car 1 of train 11. *)
Theorem C7_two_items_loaded_on_arrival_share_awbNumber :
  fst (updateTrain defaultConfig Sample.stamp1 Sample.nearKC
         (tapeRng Sample.arrivalTape)) = Sample.atKC
  /\ (exists c1 c2,
        nth_error (Train.cars Sample.atKC) 0 = Some c1
        /\ nth_error (Train.cars Sample.atKC) 1 = Some c2
        /\ In Sample.loadedInCar1 (Car.airwayBills c1)
        /\ In Sample.loadedInCar2 (Car.airwayBills c2))
  /\ Sample.loadedInCar1 <> Sample.loadedInCar2
  /\ Awb.awbNumber Sample.loadedInCar1 = Awb.awbNumber Sample.loadedInCar2
  /\ generateAwbNumber (Some 0%Z) 10 0 = generateAwbNumber (Some 10%Z) 0 0.
Proof.
  split; [now rewrite arrival_tick|].
  split; [do 2 eexists; repeat split; try reflexivity; cbn; auto|].
  split; [discriminate|]. split; reflexivity.
Qed.

(** ** The scenario: from LA towards KC, one simulated hour per tick *)

Section Scenario.

Local Open Scope R_scope.

Variable cfg : config.
Hypothesis hourly : dtHours cfg = 1.

Lemma lookup_first_leg (t : Train.t) (p : R) :
  onFirstLeg t p ->
  stationByCode (Js.index (Train.route t) (Train.currentLegIndex t))
  = Some (Station.mk "LA" "Los Angeles Freight Yard" "Los Angeles" "CA"
            34.033 (-118.238))
  /\ stationByCode (Js.index (Train.route t) (Train.currentLegIndex t + 1))
     = Some (Station.mk "KC" "Kansas City Intermodal" "Kansas City" "MO"
               39.104 (-94.598)).
Proof. intros (-> & -> & _). split; reflexivity. Qed.

Lemma scenario_increment (from to : Station.t) :
  from = Station.mk "LA" "Los Angeles Freight Yard" "Los Angeles" "CA"
           34.033 (-118.238) ->
  to = Station.mk "KC" "Kansas City Intermodal" "Kansas City" "MO"
         39.104 (-94.598) ->
  progressIncrement cfg 60 from to = 60 / scenarioDistance.
Proof.
  intros -> ->. unfold progressIncrement, scenarioDistance. cbv zeta.
  cbn [Station.lat Station.lon]. rewrite hourly. f_equal. ring.
Qed.

Lemma scenario_increment_bounds :
  0.0275 < 60 / scenarioDistance < 0.0276.
Proof.
  pose proof haversineKm_LA_KC as [Hl Hh]. fold scenarioDistance in Hl, Hh.
  split.
  - apply Rmult_lt_reg_r with scenarioDistance; [lra|].
    unfold Rdiv. rewrite Rmult_assoc, Rinv_l by lra. lra.
  - apply Rmult_lt_reg_r with scenarioDistance; [lra|].
    unfold Rdiv. rewrite Rmult_assoc, Rinv_l by lra. lra.
Qed.

(** One tick under way, no change of speed drawn. *)
Lemma scenario_transit_tick (nowIso : string) (t : Train.t) (p : R) (g : rng) :
  onFirstLeg t p -> 0 <= p -> p + 60 / scenarioDistance < 1 ->
  0.05 <= draw g 0 ->
  exists t', updateTrain cfg nowIso t g = (t', rngTail g)
    /\ onFirstLeg t' (p + 60 / scenarioDistance).
Proof.
  intros Ht Hp0 Hp1 Hdraw.
  destruct (lookup_first_leg t p Ht) as [Hf Hto].
  destruct Ht as (Hr & Hi & Hp & Hs & Hd).
  pose proof scenario_increment_bounds as Hinc.
  assert (Hlen : (2 <= List.length (Train.route t))%nat) by (rewrite Hr; cbn; lia).
  rewrite (updateTrain_in_transit cfg nowIso t g _ _ Hlen ltac:(lra) ltac:(lra) Hf Hto);
    rewrite Hs, (scenario_increment _ _ eq_refl eq_refl), Hp; [|exact Hp1].
  unfold transit, tweakSpeed, bind, ret, random.
  destruct (Rlt_dec (draw g 0) 0.05); [lra|].
  eexists. split; [reflexivity|].
  repeat split; cbn; assumption.
Qed.

(** Any number of ticks under way, no change of speed drawn. *)
Lemma scenario_transit_run (ticks : list string) :
  forall (t : Train.t) (g : rng) (m : nat),
    onFirstLeg t (INR m * (60 / scenarioDistance)) ->
    (m + List.length ticks <= 36)%nat ->
    (forall k, (k < List.length ticks)%nat -> 0.05 <= draw g k) ->
    exists t', runTicks cfg ticks [t] g = ([t'], rngDrop (List.length ticks) g)
      /\ onFirstLeg t' (INR (m + List.length ticks) * (60 / scenarioDistance)).
Proof.
  pose proof scenario_increment_bounds as Hinc.
  induction ticks as [|now rest IH]; intros t g m Ht Hm Hdraw.
  - exists t. cbn. rewrite Nat.add_0_r. auto.
  - cbn [List.length] in *.
    assert (Hm36 : INR (S m) <= 36).
    { replace 36 with (INR 36) by (simpl; lra). apply le_INR. lia. }
    rewrite S_INR in Hm36.
    assert (Hm0 : 0 <= INR m) by apply pos_INR.
    destruct (scenario_transit_tick now t _ g Ht) as (t1 & E1 & Ht1);
      [nra | nra | apply Hdraw; lia |].
    replace (INR m * (60 / scenarioDistance) + 60 / scenarioDistance)
      with (INR (S m) * (60 / scenarioDistance)) in Ht1
      by (rewrite S_INR; ring).
    destruct (IH t1 (rngTail g) (S m) Ht1 ltac:(lia)) as (t' & E' & Ht').
    { intros k Hk. apply (Hdraw (S k)). lia. }
    exists t'. split.
    + cbn [runTicks updateTrains mapM]. unfold bind, ret.
      rewrite E1. cbn [rngDrop]. exact E'.
    + replace (m + S (List.length rest))%nat with (S m + List.length rest)%nat by lia.
      exact Ht'.
Qed.

(** The tick on which the train reaches KC. *)
Lemma scenario_arrival_tick (nowIso : string) (t : Train.t) (p : R) (g : rng) :
  onFirstLeg t p -> p < 1 -> 1 <= p + 60 / scenarioDistance ->
  (MIN_DWELL_MINUTES cfg <= MAX_DWELL_MINUTES cfg)%Z ->
  let t' := fst (updateTrain cfg nowIso t g) in
  Train.legProgress t' = 1 /\ Train.currentLegIndex t' = 0%Z
  /\ Train.displaySpeedKmh t' = 0%Z
  /\ IZR (MIN_DWELL_MINUTES cfg) / 60 <= Train.dwellRemainingHours t'
     <= IZR (MAX_DWELL_MINUTES cfg) / 60.
Proof.
  intros Ht Hp1 Harr Hmm.
  destruct (lookup_first_leg t p Ht) as [Hf Hto].
  destruct Ht as (Hr & Hi & Hp & Hs & Hd).
  assert (Hlen : (2 <= List.length (Train.route t))%nat) by (rewrite Hr; cbn; lia).
  cbv zeta.
  rewrite (updateTrain_arrives cfg nowIso t g _ _ Hlen ltac:(lra) ltac:(lra) Hf Hto);
    [|rewrite Hs, (scenario_increment _ _ eq_refl eq_refl), Hp; exact Harr].
  unfold arrive, bind, ret.
  destruct (mapM _ _ g) as [cs g1].
  pose proof (randInt_range _ _ g1 Hmm) as Hdw.
  destruct (randInt _ _ g1) as [d g2]. cbn [fst] in *.
  cbn [Train.legProgress Train.currentLegIndex Train.displaySpeedKmh
       Train.dwellRemainingHours].
  repeat split; try assumption.
  - apply Rmult_le_compat_r; [lra | apply IZR_le; lia].
  - apply Rmult_le_compat_r; [lra | apply IZR_le; lia].
Qed.

(** The train is under way for 36 ticks and reaches KC on the 37th. *)
Lemma scenario_run (cars : list Car.t) (g : rng) :
  (MIN_DWELL_MINUTES cfg <= MAX_DWELL_MINUTES cfg)%Z ->
  (forall k, (k < 36)%nat -> 0.05 <= draw g k) ->
  (forall ticks, (List.length ticks <= 36)%nat ->
     exists t', fst (runTicks cfg ticks [Sample.freshTrain 60 0 cars] g) = [t']
       /\ Train.legProgress t' = INR (List.length ticks) * (60 / scenarioDistance)
       /\ Train.legProgress t' < 1
       /\ Train.currentLegIndex t' = 0%Z
       /\ Train.dwellRemainingHours t' = 0)
  /\ (forall ticks, List.length ticks = 37%nat ->
        exists t', fst (runTicks cfg ticks [Sample.freshTrain 60 0 cars] g) = [t']
          /\ Train.legProgress t' = 1
          /\ Train.currentLegIndex t' = 0%Z
          /\ Train.displaySpeedKmh t' = 0%Z
          /\ IZR (MIN_DWELL_MINUTES cfg) / 60 <= Train.dwellRemainingHours t'
             <= IZR (MAX_DWELL_MINUTES cfg) / 60).
Proof.
  intros Hmm Hdraw.
  pose proof scenario_increment_bounds as Hinc.
  assert (H0 : onFirstLeg (Sample.freshTrain 60 0 cars)
                 (INR 0 * (60 / scenarioDistance))).
  { repeat split. cbn. ring. }
  assert (Hunder : forall ticks, (List.length ticks <= 36)%nat ->
            exists t', runTicks cfg ticks [Sample.freshTrain 60 0 cars] g
                       = ([t'], rngDrop (List.length ticks) g)
              /\ onFirstLeg t' (INR (List.length ticks) * (60 / scenarioDistance))).
  { intros ticks Hlen.
    destruct (scenario_transit_run ticks _ g 0 H0 ltac:(lia)) as (t' & E & Ht').
    - intros k Hk. apply Hdraw. lia.
    - exists t'. split; [exact E | exact Ht']. }
  split.
  - intros ticks Hlen. destruct (Hunder ticks Hlen) as (t' & E & Ht').
    exists t'. rewrite E. destruct Ht' as (Hr & Hi & Hp & Hs & Hd).
    repeat split; try assumption. rewrite Hp.
    assert (INR (List.length ticks) <= 36).
    { replace 36 with (INR 36) by (simpl; lra). apply le_INR. lia. }
    pose proof (pos_INR (List.length ticks)). nra.
  - intros ticks Hlen.
    assert (Hsplit : ticks = firstn 36 ticks ++ skipn 36 ticks)
      by (symmetry; apply firstn_skipn).
    assert (Hl1 : List.length (firstn 36 ticks) = 36%nat)
      by (rewrite length_firstn; lia).
    destruct (skipn 36 ticks) as [|last [|x rest]] eqn:Eskip.
    + apply (f_equal (@List.length string)) in Hsplit.
      rewrite length_app, Hl1 in Hsplit. cbn in Hsplit. lia.
    + destruct (Hunder (firstn 36 ticks) ltac:(lia)) as (t1 & E1 & Ht1).
      rewrite Hl1 in Ht1.
      rewrite Hsplit, runTicks_app, E1. cbn [fst snd runTicks updateTrains mapM].
      unfold bind, ret.
      assert (H36 : INR 36 = 36) by (simpl; lra).
      destruct (scenario_arrival_tick last t1 _ (rngDrop (List.length (firstn 36 ticks)) g) Ht1)
        as (Hp & Hi & Hv & Hd); [rewrite H36; lra | rewrite H36; lra | exact Hmm |].
      destruct (updateTrain cfg last t1 _) as [t' g']. cbn [fst] in *.
      exists t'. repeat split; try assumption; apply Hd.
    + apply (f_equal (@List.length string)) in Hsplit.
      rewrite length_app, Hl1 in Hsplit. cbn in Hsplit. lia.
Qed.

End Scenario.

(** C8, as the specification states it, fails: the leg LA to KC is more
    than three times 690 km long, the progress increment of a tick of one
    simulated hour at 60 km/h is less than a third of 0.087, and after 12
    such ticks the train has covered less than half of the leg and is not
    dwelling. *)
Lemma C8_counterexample_LA_KC_is_not_690_km :
  exists d : R,
    legDistanceKm "LA" "KC" = Some d
    /\ (3 * 690 < d)%R
    /\ (60 * dtHours Sample.hourlyConfig / d < 0.087 / 3)%R
    /\ exists t',
         fst (runTicks Sample.hourlyConfig (repeat Sample.stamp1 12)
                [Sample.atLA] (tapeRng [])) = [t']
         /\ (Train.legProgress t' < 1 / 2)%R
         /\ Train.dwellRemainingHours t' = 0%R.
Proof.
  assert (Hdt : dtHours Sample.hourlyConfig = 1%R)
    by (unfold dtHours, Sample.hourlyConfig; cbn; lra).
  pose proof haversineKm_LA_KC as [Hl Hh]. fold scenarioDistance in Hl, Hh.
  pose proof scenario_increment_bounds as Hinc.
  exists scenarioDistance. split; [reflexivity|]. split; [lra|]. split.
  - rewrite Hdt. replace (60 * 1 / scenarioDistance)%R
      with (60 / scenarioDistance)%R by (field; lra). lra.
  - destruct (scenario_run Sample.hourlyConfig Hdt Sample.freshCars (tapeRng [])
                ltac:(cbn; lia)) as [Hunder _].
    { intros k _. cbn [draw tapeRng]. destruct k; cbn [nth];
        rewrite unit01_id; lra. }
    destruct (Hunder (repeat Sample.stamp1 12) ltac:(cbn; lia))
      as (t' & E & Hp & _ & _ & Hd).
    exists t'. split; [exact E|]. split; [|exact Hd].
    rewrite Hp. cbn [List.length repeat].
    replace (INR 12) with 12%R by (simpl; lra). lra.
Qed.

(** C8, amended.  For a train on route LA, KC, CHI, NYC with speed 60
    km/h starting at currentLegIndex 0 and legProgress 0, a tick of one
    simulated hour, and no change of speed drawn: the leg distance LA to KC
    computed by the Geo Model lies between 2177 and 2179 km, each tick adds
    a progress increment between 0.0275 and 0.0276, the train is still
    under way after each of the first 36 ticks, and on the 37th tick it
    arrives at KC with legProgress clamped to 1, display speed 0 and a
    dwell timer within the configured minutes. *)
Theorem C8_scenario_LA_to_KC :
  forall (cfg : config) (cars : list Car.t) (g : rng),
    dtHours cfg = 1%R ->
    (MIN_DWELL_MINUTES cfg <= MAX_DWELL_MINUTES cfg)%Z ->
    (forall k, (k < 36)%nat -> (0.05 <= draw g k)%R) ->
    exists d : R,
      legDistanceKm "LA" "KC" = Some d
      /\ (2177 < d < 2179)%R
      /\ (0.0275 < 60 * dtHours cfg / d < 0.0276)%R
      /\ (forall ticks, (List.length ticks <= 36)%nat ->
            exists t', fst (runTicks cfg ticks [Sample.freshTrain 60 0 cars] g) = [t']
              /\ Train.legProgress t' = (INR (List.length ticks) * (60 / d))%R
              /\ (Train.legProgress t' < 1)%R
              /\ Train.currentLegIndex t' = 0%Z
              /\ Train.dwellRemainingHours t' = 0%R)
      /\ (forall ticks, List.length ticks = 37%nat ->
            exists t', fst (runTicks cfg ticks [Sample.freshTrain 60 0 cars] g) = [t']
              /\ Train.legProgress t' = 1%R
              /\ Train.currentLegIndex t' = 0%Z
              /\ Train.displaySpeedKmh t' = 0%Z
              /\ (IZR (MIN_DWELL_MINUTES cfg) / 60 <= Train.dwellRemainingHours t'
                  <= IZR (MAX_DWELL_MINUTES cfg) / 60)%R).
Proof.
  intros cfg cars g Hdt Hmm Hdraw.
  pose proof haversineKm_LA_KC as Hd. fold scenarioDistance in Hd.
  pose proof scenario_increment_bounds as Hinc.
  destruct (scenario_run cfg Hdt cars g Hmm Hdraw) as [Hunder Harr].
  exists scenarioDistance. split; [reflexivity|]. split; [exact Hd|]. split.
  - rewrite Hdt. replace (60 * 1 / scenarioDistance)%R
      with (60 / scenarioDistance)%R by (field; lra). exact Hinc.
  - split; assumption.
Qed.

(** ** The stream endpoint *)

Section StreamFacts.

Variable cfg : config.

Lemma bumpClient_conns (c : nat) (l : list Sse.client) :
  map Sse.conn (Sse.bumpClient c l) = map Sse.conn l.
Proof.
  unfold Sse.bumpClient. rewrite map_map. apply map_ext.
  intros k. destruct (Nat.eqb _ _); reflexivity.
Qed.

Lemma sendUpdate_effect (now : Sse.reads) (c : Sse.client) (s : Sse.server) (g : rng) :
  Sse.clockSteps (fst (Sse.sendUpdate cfg now c s g)) = S (Sse.clockSteps s)
  /\ map Sse.conn (Sse.clients (fst (Sse.sendUpdate cfg now c s g)))
     = map Sse.conn (Sse.clients s)
  /\ Sse.fleet (fst (Sse.sendUpdate cfg now c s g))
     = fst (updateTrains cfg (Sse.atUpdate now) (Sse.fleet s) g)
  /\ snd (Sse.sendUpdate cfg now c s g)
     = snd (updateTrains cfg (Sse.atUpdate now) (Sse.fleet s) g).
Proof.
  unfold Sse.sendUpdate, bind, ret.
  destruct (updateTrains _ _ _ g) as [fleet' g']. cbn.
  repeat split. apply bumpClient_conns.
Qed.

Lemma find_connected (c : nat) (l : list Sse.client) :
  In c (map Sse.conn l) ->
  exists k, List.find (fun k => Nat.eqb (Sse.conn k) c) l = Some k.
Proof.
  induction l as [|k l IH]; cbn; [tauto|].
  intros [E | Hin].
  - exists k. now rewrite E, Nat.eqb_refl.
  - destruct (Nat.eqb (Sse.conn k) c); [eauto | now apply IH].
Qed.

(** Every timer that fires runs the clock once more. *)
Lemma fireAll_steps (now : Sse.reads) (cs : list nat) :
  forall (s : Sse.server) (g : rng),
    (forall c, In c cs -> In c (map Sse.conn (Sse.clients s))) ->
    Sse.clockSteps (fst (Sse.fireAll cfg now cs s g))
    = (Sse.clockSteps s + List.length cs)%nat.
Proof.
  induction cs as [|c rest IH]; intros s g Hcs; cbn [Sse.fireAll List.length].
  - cbn. lia.
  - unfold bind, Sse.timerFires.
    destruct (find_connected c (Sse.clients s) (Hcs c (or_introl eq_refl)))
      as (k & ->).
    destruct (sendUpdate_effect now k s g) as (Hsteps & Hconns & _).
    destruct (Sse.sendUpdate cfg now k s g) as [s' g']. cbn [fst] in *.
    rewrite IH, Hsteps; [lia|].
    intros c' Hc'. rewrite Hconns. apply Hcs. now right.
Qed.

Lemma intervalElapses_steps (now : Sse.reads) (s : Sse.server) (g : rng) :
  Sse.clockSteps (fst (Sse.intervalElapses cfg now s g))
  = (Sse.clockSteps s + List.length (Sse.clients s))%nat.
Proof.
  unfold Sse.intervalElapses. rewrite fireAll_steps; [now rewrite length_map | auto].
Qed.

End StreamFacts.

Lemma dwellStep_twice_atKC (now1 now2 : string) :
  Train.dwellRemainingHours
    (dwellStep defaultConfig now2 (dwellStep defaultConfig now1 Sample.atKC))
  = (13 / 60 - 2 * dtHours defaultConfig)%R.
Proof.
  rewrite dtHours_default. unfold dwellStep.
  cbn [Train.dwellRemainingHours Sample.atKC]. rewrite dtHours_default.
  rewrite (Rmax_right 0 (13 / 60 - / 12)) by lra.
  rewrite Rmax_right by lra. lra.
Qed.

(** C5 does not hold of the code.  Whatever the state, an interval in which
    every timer fires once runs [updateTrains] once per open connection.
    With two subscribers and a train standing at KC with 13 minutes left
    to dwell, one interval runs the clock twice and takes two ticks off the
    dwell timer. *)
Theorem C5_clock_runs_once_per_subscriber :
  (forall (cfg : config) (now : Sse.reads) (s : Sse.server) (g : rng),
      Sse.clockSteps (fst (Sse.intervalElapses cfg now s g))
      = (Sse.clockSteps s + List.length (Sse.clients s))%nat)
  /\ Sse.clockSteps
       (fst (Sse.intervalElapses defaultConfig Sample.reads Sample.twoSubscribers
               (tapeRng [])))
     = (Sse.clockSteps Sample.twoSubscribers + 2)%nat
  /\ exists t',
       Sse.fleet
         (fst (Sse.intervalElapses defaultConfig Sample.reads Sample.twoSubscribers
                 (tapeRng []))) = [t']
       /\ Train.dwellRemainingHours t'
          = (Train.dwellRemainingHours Sample.atKC - 2 * dtHours defaultConfig)%R.
Proof.
  split; [apply intervalElapses_steps|].
  split; [now rewrite intervalElapses_steps|].
  assert (Hdw1 : forall now g,
            updateTrains defaultConfig now [Sample.atKC] g
            = ([dwellStep defaultConfig now Sample.atKC], g)).
  { intros now g. unfold updateTrains. cbn [mapM]. unfold bind, ret.
    rewrite updateTrain_dwelling; [reflexivity | cbn; lia |].
    cbn [Train.dwellRemainingHours Sample.atKC]. lra. }
  assert (Hdw2 : forall now1 now2 g,
            updateTrains defaultConfig now2 [dwellStep defaultConfig now1 Sample.atKC] g
            = ([dwellStep defaultConfig now2 (dwellStep defaultConfig now1 Sample.atKC)], g)).
  { intros now1 now2 g. unfold updateTrains. cbn [mapM]. unfold bind, ret.
    rewrite updateTrain_dwelling; [reflexivity | cbn; lia |].
    unfold dwellStep at 1. cbn [Train.dwellRemainingHours Sample.atKC].
    rewrite dtHours_default. rewrite Rmax_right by lra. lra. }
  exists (dwellStep defaultConfig Sample.stamp2
            (dwellStep defaultConfig Sample.stamp2 Sample.atKC)).
  split.
  - unfold Sse.intervalElapses, Sample.twoSubscribers.
    cbn [Sse.clients map Sse.conn Sse.fireAll]. unfold bind, ret.
    unfold Sse.timerFires at 1. cbn [Sse.clients List.find Sse.conn Nat.eqb].
    unfold Sse.sendUpdate at 1. unfold bind, ret.
    cbn [Sse.fleet Sse.atUpdate Sample.reads]. rewrite Hdw1.
    unfold Sse.timerFires at 1.
    cbn [Sse.clients Sse.bumpClient map List.find Sse.conn Nat.eqb].
    unfold Sse.sendUpdate at 1. unfold bind, ret.
    cbn [Sse.fleet Sse.atUpdate Sample.reads]. rewrite Hdw2.
    reflexivity.
  - rewrite dwellStep_twice_atKC. reflexivity.
Qed.

(** ** The theorems at concrete inputs *)

(** C1 on the train standing at KC: its delivered item stays as it is over
    a further tick, and a second delivery pass does not touch it. *)
Lemma C1_witness :
  (exists t' c' a',
      nth_error (fst (runTicks defaultConfig ([] ++ [Sample.stamp2]) [Sample.atKC]
                        (tapeRng []))) 0 = Some t'
      /\ nth_error (Train.cars t') 1 = Some c'
      /\ nth_error (Car.airwayBills c') 0 = Some a'
      /\ Awb.awbNumber a' = Awb.awbNumber Sample.deliveredAtKC
      /\ (statusRank (Awb.status Sample.deliveredAtKC) <= statusRank (Awb.status a'))%nat
      /\ (Awb.status Sample.deliveredAtKC = DELIVERED -> a' = Sample.deliveredAtKC))
  /\ deliverAwb Sample.stamp2 (Some "CHI"%string)
       (deliverAwb Sample.stamp1 (Some "KC"%string)
          (Sample.freshAwb "AWB-120001" "LA" "KC"))
     = deliverAwb Sample.stamp1 (Some "KC"%string)
         (Sample.freshAwb "AWB-120001" "LA" "KC").
Proof.
  pose proof (C1_status_monotone_and_delivered_frozen defaultConfig []
                [Sample.stamp2] [Sample.atKC] (tapeRng [])) as (_ & Hitem & Hidem).
  split.
  - apply (Hitem 0%nat 1%nat 0%nat Sample.atKC
             (Car.mk "R1002" "TANK" [Sample.deliveredAtKC; Sample.loadedInCar2])
             Sample.deliveredAtKC); reflexivity.
  - apply Hidem. reflexivity.
Defined.

Lemma nearKC_sane : trainSane Sample.nearKC.
Proof.
  unfold trainSane, legInvariant, Sample.nearKC.
  cbn [Train.route Train.legProgress Train.currentLegIndex Train.speedKmh
       Sample.freshTrain ROUTE_0 List.length].
  repeat split; try lra; lia.
Qed.

Lemma nearKC_arrives : arrivesThisTick defaultConfig Sample.nearKC.
Proof.
  split; [cbn; lia|]. split.
  { unfold Sample.nearKC. cbn [Train.dwellRemainingHours Sample.freshTrain]. lra. }
  exists (Station.mk "LA" "Los Angeles Freight Yard" "Los Angeles" "CA"
            34.033 (-118.238)),
         (Station.mk "KC" "Kansas City Intermodal" "Kansas City" "MO"
            39.104 (-94.598)).
  cbv zeta. rewrite rollover_not_arrived
    by (unfold Sample.nearKC; cbn [Train.legProgress Sample.freshTrain]; lra).
  split; [reflexivity|]. split; [reflexivity|].
  pose proof (progressIncrement_lower defaultConfig 60
                (Station.mk "LA" "Los Angeles Freight Yard" "Los Angeles" "CA"
                   34.033 (-118.238))
                (Station.mk "KC" "Kansas City Intermodal" "Kansas City" "MO"
                   39.104 (-94.598))) as H.
  rewrite dtHours_default in H.
  cbn [Train.legProgress Train.speedKmh Sample.nearKC Sample.freshTrain]. lra.
Qed.

Lemma leavingNYC_completed : finalLegCompleted Sample.leavingNYC.
Proof.
  unfold finalLegCompleted, Sample.leavingNYC.
  cbn [Train.route Train.legProgress Train.currentLegIndex
       Train.dwellRemainingHours ROUTE_0 List.length].
  repeat split; try lra; lia.
Qed.

Lemma dtHours_backward : dtHours Sample.backwardConfig = (- / 12)%R.
Proof. unfold dtHours, Sample.backwardConfig. cbn. lra. Qed.

Lemma atLA_sane : trainSane Sample.atLA.
Proof.
  unfold trainSane, legInvariant, Sample.atLA.
  cbn [Train.route Train.legProgress Train.currentLegIndex Train.speedKmh
       Sample.freshTrain ROUTE_0 List.length].
  repeat split; try lra; lia.
Qed.

(** C2 under the default configuration: a fleet after two ticks, the tick
    on which the sample train reaches KC, and the rollover at NYC. *)
Lemma C2_witness :
  (0 <= dtHours defaultConfig)%R
  /\ (forall t,
        In t (fst (runTicks defaultConfig [Sample.stamp1; Sample.stamp2]
                     (fst (createInitialTrains defaultConfig
                             (fun _ _ => Sample.stamp0) (tapeRng [])))
                     (snd (createInitialTrains defaultConfig
                             (fun _ _ => Sample.stamp0) (tapeRng [])))))
        -> legInvariant t)
  /\ legInvariant (fst (updateTrain defaultConfig Sample.stamp1 Sample.nearKC
                          (tapeRng Sample.arrivalTape)))
  /\ Train.legProgress (fst (updateTrain defaultConfig Sample.stamp1 Sample.nearKC
                               (tapeRng Sample.arrivalTape))) = 1%R
  /\ Train.currentLegIndex (fst (updateTrain defaultConfig Sample.stamp2
                                   Sample.leavingNYC (tapeRng []))) = 0%Z.
Proof.
  assert (Hdt : (0 <= dtHours defaultConfig)%R) by (rewrite dtHours_default; lra).
  destruct (C2_leg_position_invariant defaultConfig Hdt)
    as (Hreach & Hstep & Harr & Hwrap).
  split; [exact Hdt|]. split.
  - intros t. apply Hreach.
  - split; [apply Hstep, nearKC_sane|].
    split; [apply Harr, nearKC_arrives|].
    apply Hwrap, leavingNYC_completed.
Defined.


(** C4 on the last leg of the first route. *)
Lemma C4_witness :
  Train.currentLegIndex Sample.leavingNYC
  = (Z.of_nat (List.length (Train.route Sample.leavingNYC)) - 2)%Z
  /\ Awb.destStationCode
       (fst (newAwb Sample.stamp2 Sample.leavingNYC
               (Js.index (Train.route Sample.leavingNYC)
                  (Train.currentLegIndex Sample.leavingNYC + 1)) (tapeRng [])))
     = Awb.originStationCode
         (fst (newAwb Sample.stamp2 Sample.leavingNYC
                 (Js.index (Train.route Sample.leavingNYC)
                    (Train.currentLegIndex Sample.leavingNYC + 1)) (tapeRng []))).
Proof.
  split; [reflexivity|].
  apply (proj2 (proj2 (proj2 (proj2
           C4_item_loaded_on_arrival_may_be_bound_for_its_origin)))).
  reflexivity.
Defined.

(** C6 for the distance from LA to LA. *)
Lemma C6_witness :
  haversineRaw 34.033 (-118.238) 34.033 (-118.238) = 0%R
  /\ haversineKm 34.033 (-118.238) 34.033 (-118.238) = 1%R.
Proof.
  split; [apply haversineRaw_same|].
  apply (proj1 (proj2 (C6_haversineKm_strictly_positive
                         34.033 (-118.238) 34.033 (-118.238)))).
  apply haversineRaw_same.
Defined.

Lemma tape_nil_draw (k : nat) : draw (tapeRng []) k = (/ 2)%R.
Proof.
  cbn [draw tapeRng]. destruct k; cbn [nth]; apply unit01_id; lra.
Qed.

(** C8 with one simulated hour per tick and the tape of draws one half. *)
Lemma C8_witness :
  dtHours Sample.hourlyConfig = 1%R
  /\ (MIN_DWELL_MINUTES Sample.hourlyConfig <= MAX_DWELL_MINUTES Sample.hourlyConfig)%Z
  /\ (forall k, (k < 36)%nat -> (0.05 <= draw (tapeRng []) k)%R)
  /\ exists t',
       fst (runTicks Sample.hourlyConfig (repeat Sample.stamp1 37)
              [Sample.atLA] (tapeRng [])) = [t']
       /\ Train.legProgress t' = 1%R
       /\ (5 / 60 <= Train.dwellRemainingHours t' <= 20 / 60)%R.
Proof.
  assert (Hdt : dtHours Sample.hourlyConfig = 1%R)
    by (unfold dtHours, Sample.hourlyConfig; cbn; lra).
  assert (Hmm : (MIN_DWELL_MINUTES Sample.hourlyConfig
                 <= MAX_DWELL_MINUTES Sample.hourlyConfig)%Z) by (cbn; lia).
  assert (Hdraw : forall k, (k < 36)%nat -> (0.05 <= draw (tapeRng []) k)%R)
    by (intros k _; rewrite tape_nil_draw; lra).
  split; [exact Hdt|]. split; [exact Hmm|]. split; [exact Hdraw|].
  destruct (C8_scenario_LA_to_KC Sample.hourlyConfig Sample.freshCars (tapeRng [])
              Hdt Hmm Hdraw) as (d & _ & _ & _ & _ & Harr).
  destruct (Harr (repeat Sample.stamp1 37) eq_refl) as (t' & E & Hp & _ & _ & Hd).
  exists t'. split; [exact E|]. split; [exact Hp | exact Hd].
Defined.

(** C9 on the sample train, which has cars. *)
Lemma C9_witness :
  noCriteria Query.empty
  /\ (forall t, In t [Sample.snapshot] -> Snapshot.cars t <> [])
  /\ applyFilters Query.empty [Sample.snapshot] = [Sample.snapshot].
Proof.
  assert (Hq : noCriteria Query.empty) by (repeat split).
  assert (Hcars : forall t, In t [Sample.snapshot] -> Snapshot.cars t <> []).
  { intros t [<- | []]. discriminate. }
  split; [exact Hq|]. split; [exact Hcars|].
  apply (proj2 (C9_no_criteria_returns_input Query.empty [Sample.snapshot] Hq)).
  exact Hcars.
Defined.

(** C10 for the display name of the Chicago station. *)
Lemma C10_witness :
  Query.station (Sample.byStation "Chicago Rail Hub") = Some "Chicago Rail Hub"%string
  /\ (forall a, itemOf [Sample.snapshot] a ->
        stationMatchesNoCode "Chicago Rail Hub" a)
  /\ applyFilters (Sample.byStation "Chicago Rail Hub") [Sample.snapshot] = [].
Proof.
  assert (Hno : forall a, itemOf [Sample.snapshot] a ->
                  stationMatchesNoCode "Chicago Rail Hub" a).
  { intros a (t & c & [<- | []] & Hc & Ha).
    cbn in Hc. destruct Hc as [<- | [<- | []]]; cbn in Ha.
    - destruct Ha as [<- | [<- | []]];
        (repeat split; [intros c [= <-] | intros c [= <-] |]; discriminate).
    - destruct Ha as [<- | []];
        (repeat split; [intros c [= <-] | intros c [= <-] |]; discriminate). }
  split; [reflexivity|]. split; [exact Hno|].
  apply (proj1 (C10_station_matcher_uses_codes_only
                  (Sample.byStation "Chicago Rail Hub") [Sample.snapshot]
                  "Chicago Rail Hub" eq_refl)).
  - discriminate.
  - exact Hno.
Defined.


(** * Further properties of the code *)

(** ** Random helpers *)

Lemma randInt_reversed (min max : Z) (g : rng) :
  (max < min)%Z -> (max + 1 <= fst (randInt min max g) <= min)%Z.
Proof.
  intros Hmm. rewrite randInt_fst.
  pose proof (draw_ok g 0) as [Hu0 Hu1].
  set (n := (max - min + 1)%Z).
  assert (Hn : (IZR n <= 0)%R) by (apply IZR_le; unfold n; lia).
  assert (H0 : (n <= Zfloor (draw g 0 * IZR n))%Z).
  { apply Zfloor_lub. nra. }
  assert (H1 : (Zfloor (draw g 0 * IZR n) <= 0)%Z).
  { apply le_IZR. pose proof (Zfloor_bound (draw g 0 * IZR n)). simpl. nra. }
  unfold n in *. lia.
Qed.

(** X1.  [randInt(min, max)] consumes one draw; for [min <= max] it
    returns an integer of [min .. max] (so [min] itself when the bounds
    are equal), and for [max < min] an integer of [max + 1 .. min].
    [randChoice] returns an element of its array. *)
Theorem X1_randInt_and_randChoice_stay_in_range :
  forall (min max : Z) (g : rng),
    snd (randInt min max g) = rngTail g
    /\ ((min <= max)%Z -> (min <= fst (randInt min max g) <= max)%Z)
    /\ ((max < min)%Z -> (max + 1 <= fst (randInt min max g) <= min)%Z)
    /\ (forall (A : Type) (first : A) (rest : list A),
          In (fst (randChoice first rest g)) (first :: rest)).
Proof.
  intros min max g. split; [reflexivity|].
  split; [apply randInt_range|]. split; [apply randInt_reversed|].
  intros A first rest. apply randChoice_In.
Qed.

(** X1 for the number of cars of a train when [MAX_CARS_PER_TRAIN] is 12,
    and when it is 2. *)
Lemma X1_witness :
  (5 <= fst (randInt 5 12 (tapeRng [])) <= 12)%Z
  /\ (3 <= fst (randInt 5 2 (tapeRng [])) <= 5)%Z.
Proof.
  split.
  - apply (proj1 (proj2 (X1_randInt_and_randChoice_stay_in_range 5 12 (tapeRng [])))).
    lia.
  - apply (proj1 (proj2 (proj2
             (X1_randInt_and_randChoice_stay_in_range 5 2 (tapeRng []))))).
    lia.
Defined.

(** ** The station registry and the routes *)

Lemma stationByCode_Some (code : option string) (s : Station.t) :
  stationByCode code = Some s ->
  code = Some (Station.code s) /\ In s STATIONS.
Proof.
  unfold stationByCode. destruct code as [c|]; [|discriminate].
  intros H. apply find_some in H as [Hin Heq].
  apply String.eqb_eq in Heq. subst c. auto.
Qed.

Lemma stationByCode_registry (s : Station.t) :
  In s STATIONS -> stationByCode (Some (Station.code s)) = Some s.
Proof.
  unfold STATIONS. cbn [In].
  intros H. repeat (destruct H as [<- | H]; [reflexivity|]). destruct H.
Qed.

Lemma stationByCode_unknown (c : string) :
  ~ In c (map Station.code STATIONS) -> stationByCode (Some c) = None.
Proof.
  intros Hn. destruct (stationByCode (Some c)) as [s|] eqn:E; [|reflexivity].
  apply stationByCode_Some in E as [[= ->] Hin].
  exfalso. apply Hn. now apply in_map.
Qed.

Lemma ROUTES_wellformed (route : list string) :
  In route ROUTES ->
  List.length route = 4%nat /\ NoDup route
  /\ forall c, In c route -> exists s, stationByCode (Some c) = Some s.
Proof.
  unfold ROUTES, ROUTES_rest, ROUTE_0. cbn [In].
  intros H.
  repeat (destruct H as [<- | H];
          [split; [reflexivity|]; split;
           [repeat constructor; cbn; intuition discriminate
           |intros c Hc; cbn [In] in Hc;
            repeat (destruct Hc as [<- | Hc]; [eexists; reflexivity|]);
            destruct Hc]|]).
  destruct H.
Qed.

(** X2.  [stationByCode] returns a station of the registry that carries
    the code asked for; it returns nothing for [undefined] and for a code
    that no station carries; the station codes are pairwise different, so
    the code of each station of the registry leads back to that station.
    Every predefined route has four stations, no station twice, and each
    of its codes is found in the registry. *)
Theorem X2_stationByCode_lookup :
  (forall (code : option string) (s : Station.t),
      stationByCode code = Some s ->
      code = Some (Station.code s) /\ In s STATIONS)
  /\ stationByCode None = None
  /\ (forall c, ~ In c (map Station.code STATIONS) -> stationByCode (Some c) = None)
  /\ NoDup (map Station.code STATIONS)
  /\ (forall s, In s STATIONS -> stationByCode (Some (Station.code s)) = Some s)
  /\ (forall route, In route ROUTES ->
        List.length route = 4%nat /\ NoDup route
        /\ forall c, In c route -> exists s, stationByCode (Some c) = Some s).
Proof.
  split; [apply stationByCode_Some|]. split; [reflexivity|].
  split; [apply stationByCode_unknown|].
  split; [repeat constructor; cbn; intuition discriminate|].
  split; [apply stationByCode_registry | apply ROUTES_wellformed].
Qed.

(** X2 for the code [CHI], for a display name, and for the first route. *)
Lemma X2_witness :
  (exists s, stationByCode (Some "CHI"%string) = Some s
             /\ Station.name s = "Chicago Rail Hub"%string)
  /\ stationByCode (Some "Chicago Rail Hub"%string) = None
  /\ NoDup ROUTE_0.
Proof.
  pose proof X2_stationByCode_lookup as (_ & _ & Hun & _ & _ & Hroutes).
  split; [eexists; split; reflexivity|]. split.
  - apply Hun. cbn. intuition discriminate.
  - apply (Hroutes ROUTE_0). now left.
Defined.

(** ** The haversine distance *)

Section HaversineFacts.

Local Open Scope R_scope.

Lemma sin_sqr_neg (x : R) : sin (- x) * sin (- x) = sin x * sin x.
Proof. rewrite sin_neg. ring. Qed.

Lemma haversineA_sym (lat1 lon1 lat2 lon2 : R) :
  haversineA lat1 lon1 lat2 lon2 = haversineA lat2 lon2 lat1 lon1.
Proof.
  unfold haversineA, toRad. cbv zeta.
  replace ((lat2 - lat1) * PI / 180 / 2) with (- ((lat1 - lat2) * PI / 180 / 2))
    by field.
  replace ((lon2 - lon1) * PI / 180 / 2) with (- ((lon1 - lon2) * PI / 180 / 2))
    by field.
  rewrite sin_sqr_neg.
  rewrite (Rmult_assoc (cos (lat1 * PI / 180) * cos (lat2 * PI / 180))).
  rewrite sin_sqr_neg. ring.
Qed.

Lemma haversineKm_sym (lat1 lon1 lat2 lon2 : R) :
  haversineKm lat1 lon1 lat2 lon2 = haversineKm lat2 lon2 lat1 lon1.
Proof.
  unfold haversineKm, haversineRaw. cbv zeta.
  now rewrite (haversineA_sym lat1 lon1 lat2 lon2).
Qed.

Lemma haversineKm_le_half_circumference (lat1 lon1 lat2 lon2 : R) :
  haversineKm lat1 lon1 lat2 lon2 <= 6371 * PI.
Proof.
  unfold haversineKm. cbv zeta.
  pose proof (haversineRaw_le lat1 lon1 lat2 lon2). pose proof PI_bounds.
  destruct (Req_dec_T _ 0); lra.
Qed.

End HaversineFacts.

(** X3.  The distance is the same in both directions, and it never
    exceeds half the circumference of a sphere of radius 6371 km. *)
Theorem X3_haversineKm_symmetric_and_bounded :
  forall lat1 lon1 lat2 lon2 : R,
    haversineKm lat1 lon1 lat2 lon2 = haversineKm lat2 lon2 lat1 lon1
    /\ (haversineKm lat1 lon1 lat2 lon2 <= 6371 * PI)%R.
Proof.
  intros. split; [apply haversineKm_sym | apply haversineKm_le_half_circumference].
Qed.

(** ** Numbers in identifiers *)

Section NumberText.

Lemma parseDigits_step (acc : Js.int) (c : ascii) (k : Z) (s : string) :
  Js.digitOf c = Some k ->
  Js.parseDigits acc (String c s)
  = Js.parseDigits (Some (match acc with Some a => 10 * a + k | None => k end)%Z) s.
Proof. intros H. cbn [Js.parseDigits]. now rewrite H. Qed.

Lemma parseDigits_pos (d : Decimal.uint) :
  forall acc : positive,
    Js.parseDigits (Some (Z.pos acc)) (NilEmpty.string_of_uint d)
    = Some (Z.pos (Pos.of_uint_acc d acc)).
Proof.
  induction d; intros acc; cbn [NilEmpty.string_of_uint Pos.of_uint_acc];
    [reflexivity | ..];
    erewrite parseDigits_step by reflexivity;
    rewrite <- IHd; do 2 f_equal;
    repeat match goal with
    | |- context [Z.of_nat ?n] =>
        let v := eval vm_compute in (Z.of_nat n) in change (Z.of_nat n) with v
    end; lia.
Qed.

Lemma parseDigits_zero (d : Decimal.uint) :
  Js.parseDigits (Some 0%Z) (NilEmpty.string_of_uint d)
  = Some (Z.of_N (Pos.of_uint d)).
Proof.
  induction d; cbn [NilEmpty.string_of_uint Pos.of_uint];
    [reflexivity | ..];
    erewrite parseDigits_step by reflexivity;
    [exact IHd | ..]; apply parseDigits_pos.
Qed.

Lemma parseDigits_none (d : Decimal.uint) :
  d <> Decimal.Nil ->
  Js.parseDigits None (NilEmpty.string_of_uint d)
  = Some (Z.of_N (Pos.of_uint d)).
Proof.
  destruct d; intros Hd; [contradiction | ..];
    cbn [NilEmpty.string_of_uint Pos.of_uint];
    erewrite parseDigits_step by reflexivity;
    [apply parseDigits_zero | ..]; apply parseDigits_pos.
Qed.

Lemma to_uint_not_nil (p : positive) : Pos.to_uint p <> Decimal.Nil.
Proof.
  intros E. pose proof (DecimalPos.Unsigned.of_to p) as H.
  rewrite E in H. discriminate.
Qed.

Lemma string_of_pos (p : positive) :
  NilZero.string_of_uint (Pos.to_uint p) = NilEmpty.string_of_uint (Pos.to_uint p).
Proof.
  pose proof (to_uint_not_nil p). destruct (Pos.to_uint p); [contradiction | ..];
    reflexivity.
Qed.

Lemma parseDigits_showPos (p : positive) :
  Js.parseDigits None (NilEmpty.string_of_uint (Pos.to_uint p)) = Some (Z.pos p).
Proof.
  rewrite parseDigits_none by apply to_uint_not_nil.
  now rewrite DecimalPos.Unsigned.of_to.
Qed.

(** A number printed in decimal starts with a digit or with the sign. *)
Lemma parseInt_digits (d : Decimal.uint) :
  d <> Decimal.Nil ->
  Js.parseInt (NilEmpty.string_of_uint d)
  = Js.parseDigits None (NilEmpty.string_of_uint d).
Proof.
  destruct d; intros Hd; [contradiction | ..]; reflexivity.
Qed.

Lemma parseInt_showInt (z : Z) : Js.parseInt (Js.showInt (Some z)) = Some z.
Proof.
  destruct z as [|p|p]; cbn [Js.showInt Z.to_int NilZero.string_of_int].
  - reflexivity.
  - rewrite string_of_pos, parseInt_digits by apply to_uint_not_nil.
    apply parseDigits_showPos.
  - rewrite string_of_pos. cbn [Js.parseInt].
    now rewrite parseDigits_showPos.
Qed.

Lemma showInt_inj (a b : Z) : Js.showInt (Some a) = Js.showInt (Some b) -> a = b.
Proof.
  intros E. apply (f_equal Js.parseInt) in E.
  rewrite !parseInt_showInt in E. congruence.
Qed.

Lemma parseDigits_leading_zeros (n : nat) (s : string) :
  Js.parseDigits (Some 0%Z) (Js.repeatChar n "0" ++ s)
  = Js.parseDigits (Some 0%Z) s.
Proof.
  induction n as [|n IH]; [reflexivity|].
  cbn [Js.repeatChar String.append].
  erewrite parseDigits_step by reflexivity. exact IH.
Qed.

(** Padding with zeros does not change the number read back. *)
Lemma parseDigits_padStart (n : nat) (p : positive) :
  Js.parseDigits None (Js.padStart n "0" (Js.showInt (Some (Z.pos p))))
  = Some (Z.pos p).
Proof.
  unfold Js.padStart. cbn [Js.showInt Z.to_int NilZero.string_of_int].
  rewrite string_of_pos.
  destruct (n - String.length (NilEmpty.string_of_uint (Pos.to_uint p)))%nat
    as [|k].
  - cbn [Js.repeatChar String.append]. apply parseDigits_showPos.
  - cbn [Js.repeatChar String.append].
    erewrite parseDigits_step by reflexivity.
    rewrite parseDigits_leading_zeros, parseDigits_zero.
    now rewrite DecimalPos.Unsigned.of_to.
Qed.

Lemma append_inv_head (p s1 s2 : string) :
  (p ++ s1)%string = (p ++ s2)%string -> s1 = s2.
Proof.
  induction p as [|c p IH]; cbn; [auto|]. intros [= E]. auto.
Qed.

(** In one car, items of different index get different numbers. *)
Lemma generateAwbNumber_inj (trainIndex : Js.int) (carIndex i j : Z) :
  (0 <= i)%Z -> (0 <= j)%Z ->
  generateAwbNumber trainIndex carIndex i = generateAwbNumber trainIndex carIndex j ->
  i = j.
Proof.
  intros Hi Hj E. unfold generateAwbNumber in E.
  do 3 apply append_inv_head in E.
  apply (f_equal (Js.parseDigits None)) in E.
  destruct (i + 1)%Z as [|p|p] eqn:Ei; try lia.
  destruct (j + 1)%Z as [|q|q] eqn:Ej; try lia.
  rewrite !parseDigits_padStart in E. injection E as E. lia.
Qed.

End NumberText.

(** ** Creating the fleet *)

Section Creation.

Variable cfg : config.

Lemma mapM_map {A B C} (f : A -> Rand B) (h : B -> C) (k : A -> C) (l : list A) :
  (forall a g, h (fst (f a g)) = k a) ->
  forall g, map h (fst (mapM f l g)) = map k l.
Proof.
  intros H. induction l as [|a l IH]; intros g; [reflexivity|].
  rewrite mapM_cons. cbn [fst map]. now rewrite H, IH.
Qed.

Lemma mapM_length (A B : Type) (f : A -> Rand B) (l : list A) (g : rng) :
  List.length (fst (mapM f l g)) = List.length l.
Proof.
  revert g. induction l as [|a l IH]; intros g; [reflexivity|].
  rewrite mapM_cons. cbn [fst List.length]. now rewrite IH.
Qed.

Lemma upto_length (n : Z) : List.length (upto n) = Z.to_nat n.
Proof. unfold upto. now rewrite length_map, length_seq. Qed.

Lemma upto_In (n i : Z) : In i (upto n) <-> (0 <= i < n)%Z.
Proof.
  unfold upto. rewrite in_map_iff. split.
  - intros (k & <- & Hk). apply in_seq in Hk. lia.
  - intros Hi. exists (Z.to_nat i). split; [lia|]. apply in_seq. lia.
Qed.

Lemma NoDup_map_inj {A B} (f : A -> B) (l : list A) :
  (forall x y, In x l -> In y l -> f x = f y -> x = y) ->
  NoDup l -> NoDup (map f l).
Proof.
  intros Hinj Hl. induction Hl as [|a l Ha Hl IH]; cbn; constructor.
  - intros Hin. apply in_map_iff in Hin as (b & E & Hb).
    apply Ha. rewrite <- (Hinj b a); auto; [now right | now left].
  - apply IH. intros x y Hx Hy. apply Hinj; now right.
Qed.

Lemma upto_NoDup (n : Z) : NoDup (upto n).
Proof.
  unfold upto. apply NoDup_map_inj; [|apply seq_NoDup].
  intros a b _ _ H. lia.
Qed.

Lemma index_nth_error {A} (l : list A) (i : Z) :
  (0 <= i)%Z -> Js.index l i = nth_error l (Z.to_nat i).
Proof.
  intros Hi. unfold Js.index. destruct (i <? 0)%Z eqn:E; [lia | reflexivity].
Qed.

Lemma createAirwayBill_fresh
    (now : string) (route : list string) (trainIndex carIndex i : Z) (g : rng) :
  isFresh now (fst (createAirwayBill now route trainIndex carIndex i g))
  /\ Awb.awbNumber (fst (createAirwayBill now route trainIndex carIndex i g))
     = generateAwbNumber (Some trainIndex) carIndex i.
Proof.
  unfold createAirwayBill, bind, ret. cbv zeta.
  destruct (randInt 0 _ g) as [o g1].
  destruct (randInt (o + 1) _ g1) as [d g2].
  pose proof (randInt_range 1 10 g2 ltac:(lia)) as Hp.
  destruct (randInt 1 10 g2) as [p g3].
  pose proof (randInt_range 500 20000 g3 ltac:(lia)) as Hw.
  destruct (randInt 500 20000 g3) as [w g4].
  cbn [fst] in *. unfold isFresh. cbn. intuition lia.
Qed.

Lemma createAirwayBill_forward
    (now : string) (route : list string) (trainIndex carIndex i : Z) (g : rng) :
  (2 <= List.length route)%nat ->
  boundForward route (fst (createAirwayBill now route trainIndex carIndex i g)).
Proof.
  intros Hlen.
  destruct (createAirwayBill_dest_after_origin now route trainIndex carIndex i g Hlen)
    as (o & d & Hod & Hd & Eo & Ed).
  exists (Z.to_nat o), (Z.to_nat d).
  rewrite Eo, Ed, !index_nth_error by lia.
  repeat split; try lia; apply nth_error_Some; lia.
Qed.

Lemma createAirwayBillsForCar_spec
    (now : string) (route : list string) (trainIndex carIndex : Z) (g : rng) :
  let awbs := fst (createAirwayBillsForCar cfg now route trainIndex carIndex g) in
  ((1 <= MAX_AWBS_PER_CAR cfg)%Z ->
   (1 <= Z.of_nat (List.length awbs) <= MAX_AWBS_PER_CAR cfg)%Z)
  /\ map Awb.awbNumber awbs
     = map (generateAwbNumber (Some trainIndex) carIndex)
         (upto (Z.of_nat (List.length awbs)))
  /\ NoDup (map Awb.awbNumber awbs)
  /\ Forall (isFresh now) awbs
  /\ ((2 <= List.length route)%nat -> Forall (boundForward route) awbs).
Proof.
  unfold createAirwayBillsForCar, bind. cbv zeta.
  pose proof (randInt_range 1 (MAX_AWBS_PER_CAR cfg) g) as Hc.
  destruct (randInt 1 (MAX_AWBS_PER_CAR cfg) g) as [count g1]. cbn [fst] in Hc.
  set (f := createAirwayBill now route trainIndex carIndex).
  assert (Hlen : List.length (fst (mapM f (upto count) g1)) = Z.to_nat count)
    by (now rewrite mapM_length, upto_length).
  assert (Hnum : map Awb.awbNumber (fst (mapM f (upto count) g1))
                 = map (generateAwbNumber (Some trainIndex) carIndex) (upto count)).
  { apply mapM_map. intros a g'. apply createAirwayBill_fresh. }
  split; [intros Hmax; rewrite Hlen; specialize (Hc Hmax); lia|].
  split.
  { rewrite Hnum, Hlen. f_equal. unfold upto. now rewrite Nat2Z.id. }
  split.
  { rewrite Hnum. apply NoDup_map_inj; [|apply upto_NoDup].
    intros i j Hi Hj. apply upto_In in Hi, Hj.
    apply generateAwbNumber_inj; lia. }
  split.
  - apply mapM_Forall. intros a g' _. apply createAirwayBill_fresh.
  - intros Hr. apply mapM_Forall. intros a g' _.
    now apply createAirwayBill_forward.
Qed.

End Creation.

Section CreationOfTrains.

Variable cfg : config.

Lemma createCar_spec (now : string) (route : list string) (i c : Z) (g : rng) :
  Car.carNumber (fst (createCar cfg now route i c g)) = generateCarNumber i c
  /\ In (Car.type (fst (createCar cfg now route i c g))) CAR_TYPES
  /\ exists g', Car.airwayBills (fst (createCar cfg now route i c g))
                = fst (createAirwayBillsForCar cfg now route i c g').
Proof.
  unfold createCar, bind, ret.
  pose proof (randChoice_In "BOXCAR"%string
                ["TANK"; "HOPPER"; "INTERMODAL"; "FLATCAR"]%string g) as Ht.
  destruct (randChoice _ _ g) as [ty g1].
  destruct (createAirwayBillsForCar cfg now route i c g1) as [awbs g2] eqn:E.
  cbn [fst Car.carNumber Car.type Car.airwayBills] in *.
  split; [reflexivity|]. split; [exact Ht|].
  exists g1. now rewrite E.
Qed.

Lemma createTrain_initial (now : Z -> string) (i : Z) (g : rng) :
  isInitialTrain cfg i (fst (createTrain cfg now i g)).
Proof.
  unfold createTrain, bind, ret, random.
  pose proof (randChoice_In ROUTE_0 ROUTES_rest g) as Hroute.
  destruct (randChoice ROUTE_0 ROUTES_rest g) as [route g1]. cbn [fst] in Hroute.
  pose proof (randInt_range 40 80 g1 ltac:(lia)) as Hspeed.
  destruct (randInt 40 80 g1) as [speed g2]. cbn [fst] in Hspeed.
  pose proof (randInt_range 5 (MAX_CARS_PER_TRAIN cfg) g2) as Hcount.
  pose proof (randInt_reversed 5 (MAX_CARS_PER_TRAIN cfg) g2) as Hrev.
  destruct (randInt 5 _ g2) as [carCount g3]. cbn [fst] in Hcount, Hrev.
  pose proof (mapM_length _ _ (fun c => createCar cfg (now c) route i c)
                (upto carCount) g3) as Hlen.
  pose proof (mapM_map (fun c => createCar cfg (now c) route i c) Car.carNumber
                (generateCarNumber i) (upto carCount)
                (fun c g' => proj1 (createCar_spec (now c) route i c g')) g3) as Hnum.
  pose proof (mapM_Forall (fun c => In (Car.type c) CAR_TYPES)
                (fun c => createCar cfg (now c) route i c) (upto carCount)
                (fun c g' _ => proj1 (proj2 (createCar_spec (now c) route i c g')))
                g3) as Htypes.
  destruct (mapM _ (upto carCount) g3) as [cars g4]. cbn [fst] in Hlen, Hnum, Htypes.
  rewrite upto_length in Hlen.
  pose proof (randChoice_In "Pacific Runner"%string
                ["Continental Freight"; "Atlantic Express";
                 "Heartland Cargo"; "Mountain Hauler"]%string g4) as Hname.
  destruct (randChoice _ _ g4) as [nm g5]. cbn [fst] in Hname.
  pose proof (draw_ok g5 0) as Hlp.
  unfold isInitialTrain.
  cbn [fst Train.id Train.name Train.route Train.currentLegIndex Train.legProgress
       Train.speedKmh Train.displaySpeedKmh Train.dwellRemainingHours
       Train.cars Train.lastUpdated].
  split; [reflexivity|]. split; [exists nm; split; [exact Hname | reflexivity]|].
  split; [exact Hroute|]. split; [reflexivity|]. split; [exact Hlp|].
  split; [exact Hspeed|]. split; [reflexivity|]. split; [reflexivity|].
  split; [reflexivity|].
  split; [intros H; specialize (Hcount H); lia|].
  split; [intros H; specialize (Hrev H); lia|].
  split; [|exact Htypes].
  rewrite Hnum, Hlen. f_equal. unfold upto. now rewrite Nat2Z.id.
Qed.

Lemma mapM_nth_error {A B} (f : A -> Rand B) (P : A -> B -> Prop) (l : list A) :
  (forall a g, P a (fst (f a g))) ->
  forall g n b, nth_error (fst (mapM f l g)) n = Some b ->
    exists a, nth_error l n = Some a /\ P a b.
Proof.
  intros H g n b Hn.
  pose proof (mapM_Forall2 P f H l g) as HF.
  revert n Hn. induction HF as [|a b' l1 l2 Hab HF IH]; intros n Hn.
  - destruct n; discriminate.
  - destruct n as [|n]; cbn in *.
    + injection Hn as <-. eauto.
    + eauto.
Qed.

Lemma upto_nth_error (n : Z) (k : nat) (i : Z) :
  nth_error (upto n) k = Some i -> i = Z.of_nat k /\ (Z.of_nat k < n)%Z.
Proof.
  unfold upto. intros H.
  rewrite nth_error_map in H.
  destruct (nth_error (seq 0 (Z.to_nat n)) k) as [m|] eqn:E; [|discriminate].
  injection H as <-.
  assert (Hk : (k < Z.to_nat n)%nat).
  { assert (Hs : nth_error (seq 0 (Z.to_nat n)) k <> None) by congruence.
    apply nth_error_Some in Hs. now rewrite length_seq in Hs. }
  rewrite (nth_error_nth' _ 0%nat) in E by (now rewrite length_seq).
  rewrite seq_nth in E by exact Hk. injection E as <-. lia.
Qed.

Lemma createInitialTrains_spec (now : Z -> Z -> string) (g : rng) :
  List.length (fst (createInitialTrains cfg now g)) = Z.to_nat (TRAIN_COUNT cfg)
  /\ forall k t, nth_error (fst (createInitialTrains cfg now g)) k = Some t ->
       isInitialTrain cfg (Z.of_nat k) t.
Proof.
  unfold createInitialTrains. split.
  - now rewrite mapM_length, upto_length.
  - intros k t Hk.
    destruct (mapM_nth_error (fun i => createTrain cfg (now i) i)
                (isInitialTrain cfg) (upto (TRAIN_COUNT cfg))
                (fun i g' => createTrain_initial (now i) i g') g k t Hk)
      as (i & Hi & Ht).
    apply upto_nth_error in Hi as [-> _]. exact Ht.
Qed.

End CreationOfTrains.

(** X4.  A number printed in decimal is read back by [parseInt], so the
    train index that [updateTrains] recovers from a train id is the index
    the id was made from: an item loaded on arrival into a train whose id
    is [T] followed by [i + 1] gets the number
    [generateAwbNumber(i, 0, k)] for some [k] of [100 .. 999].  The train
    that [createInitialTrains] makes for the index [i] has that id. *)
Theorem X4_train_index_recovered_from_id :
  (forall z : Z, Js.parseInt (Js.showInt (Some z)) = Some z)
  /\ (forall (i : Z) (t : Train.t) (nowIso : string) (st : option string) (g : rng),
        Train.id t = trainId i ->
        exists k : Z,
          (100 <= k <= 999)%Z
          /\ Awb.awbNumber (fst (newAwb nowIso t st g))
             = generateAwbNumber (Some i) 0 k)
  /\ (forall (cfg : config) (now : Z -> string) (i : Z) (g : rng),
        Train.id (fst (createTrain cfg now i g)) = trainId i).
Proof.
  split; [apply parseInt_showInt|]. split.
  - intros i t nowIso st g Hid.
    unfold newAwb, bind, ret. cbv zeta.
    pose proof (randInt_range 100 999 g ltac:(lia)) as Hk.
    destruct (randInt 100 999 g) as [k g1]. cbn [fst] in Hk.
    destruct (randInt _ _ g1) as [d g2].
    destruct (randInt 1 10 g2) as [p g3].
    destruct (randInt 500 20000 g3) as [w g4].
    exists k. split; [exact Hk|]. cbn [fst Awb.awbNumber].
    rewrite Hid. unfold trainId. cbn [String.append Js.slice1].
    rewrite parseInt_showInt. cbn [Js.addInt option_map].
    do 2 f_equal. lia.
  - intros cfg now i g. apply createTrain_initial.
Qed.

(** X4 for the train [T1]. *)
Lemma X4_witness :
  exists k : Z,
    (100 <= k <= 999)%Z
    /\ Awb.awbNumber (fst (newAwb Sample.stamp1 Sample.nearKC (Some "KC"%string)
                             (tapeRng [])))
       = generateAwbNumber (Some 0%Z) 0 k.
Proof.
  apply (proj1 (proj2 X4_train_index_recovered_from_id) 0%Z Sample.nearKC).
  reflexivity.
Defined.

Lemma boundForward_differs (route : list string) (a : Awb.t) :
  NoDup route -> boundForward route a ->
  Awb.originStationCode a <> Awb.destStationCode a.
Proof.
  intros Hnd (o & d & Hod & Eo & Ed & Ho & _) E.
  rewrite <- Eo, <- Ed in E.
  assert (Hlt : (o < List.length route)%nat)
    by (apply nth_error_Some; now rewrite Eo).
  pose proof (proj1 (NoDup_nth_error route) Hnd o d Hlt E). lia.
Qed.

(** X5.  [createAirwayBillsForCar] returns between 1 and
    [MAX_AWBS_PER_CAR] items when that bound is at least 1, and at most
    one item otherwise.  Every item is LOADED, stamped with the creation
    time as lastUpdated and loadedAt, has no delivery time and no offload
    station, 1 to 10 pieces and 500 to 20000 kg.  On a route of at least
    two stations its origin stands before its destination in the route;
    if no station occurs twice in the route, the two codes differ. *)
Theorem X5_createAirwayBillsForCar_items :
  forall (cfg : config) (now : string) (route : list string)
         (trainIndex carIndex : Z) (g : rng),
    let awbs := fst (createAirwayBillsForCar cfg now route trainIndex carIndex g) in
    ((1 <= MAX_AWBS_PER_CAR cfg)%Z ->
     (1 <= Z.of_nat (List.length awbs) <= MAX_AWBS_PER_CAR cfg)%Z)
    /\ ((MAX_AWBS_PER_CAR cfg < 1)%Z -> (List.length awbs <= 1)%nat)
    /\ Forall (isFresh now) awbs
    /\ ((2 <= List.length route)%nat -> Forall (boundForward route) awbs)
    /\ ((2 <= List.length route)%nat -> NoDup route ->
        Forall (fun a => Awb.originStationCode a <> Awb.destStationCode a) awbs).
Proof.
  intros cfg now route ti ci g awbs.
  destruct (createAirwayBillsForCar_spec cfg now route ti ci g)
    as (Hcount & _ & _ & Hfresh & Hfwd).
  split; [exact Hcount|]. split.
  - intros Hmax. unfold awbs, createAirwayBillsForCar, bind.
    pose proof (randInt_reversed 1 (MAX_AWBS_PER_CAR cfg) g Hmax) as Hc.
    destruct (randInt 1 _ g) as [count g1]. cbn [fst] in Hc.
    rewrite mapM_length, upto_length. lia.
  - split; [exact Hfresh|]. split; [exact Hfwd|].
    intros Hlen Hnd. specialize (Hfwd Hlen).
    eapply Forall_impl; [|exact Hfwd].
    intros a Ha. now apply (boundForward_differs route).
Qed.

(** X5 under the default configuration on the first route. *)
Lemma X5_witness :
  (1 <= Z.of_nat (List.length
         (fst (createAirwayBillsForCar defaultConfig Sample.stamp0 ROUTE_0 0 0
                 (tapeRng [])))) <= 5)%Z
  /\ Forall (fun a => Awb.originStationCode a <> Awb.destStationCode a)
       (fst (createAirwayBillsForCar defaultConfig Sample.stamp0 ROUTE_0 0 0
               (tapeRng []))).
Proof.
  pose proof (X5_createAirwayBillsForCar_items defaultConfig Sample.stamp0 ROUTE_0
                0 0 (tapeRng [])) as (Hcount & _ & _ & _ & Hdiff).
  split.
  - apply Hcount. cbn. lia.
  - apply Hdiff; [cbn; lia|].
    repeat constructor; cbn; intuition discriminate.
Defined.

(** X6.  The items that [createAirwayBillsForCar] makes for one car are
    numbered [generateAwbNumber(trainIndex, carIndex, 0)],
    [generateAwbNumber(trainIndex, carIndex, 1)], ... in order, and no two
    of them carry the same awbNumber. *)
Theorem X6_items_of_a_new_car_have_distinct_numbers :
  forall (cfg : config) (now : string) (route : list string)
         (trainIndex carIndex : Z) (g : rng),
    let awbs := fst (createAirwayBillsForCar cfg now route trainIndex carIndex g) in
    map Awb.awbNumber awbs
    = map (generateAwbNumber (Some trainIndex) carIndex)
        (upto (Z.of_nat (List.length awbs)))
    /\ NoDup (map Awb.awbNumber awbs).
Proof.
  intros cfg now route ti ci g awbs.
  destruct (createAirwayBillsForCar_spec cfg now route ti ci g)
    as (_ & Hnum & Hnd & _).
  split; assumption.
Qed.

(** X7.  [createInitialTrains] makes [TRAIN_COUNT] trains (none when the
    count is not positive).  The train at position [k] has the id [T]
    followed by [k + 1], one of the five names followed by a blank and
    [k + 1], a predefined route, leg 0, a progress in [0,1), a speed of 40
    to 80 km/h shown as display speed, no dwell and no update time; it has
    5 to [MAX_CARS_PER_TRAIN] cars when that bound is at least 5 and at
    most 5 cars otherwise, numbered in order by [generateCarNumber], each
    of one of the five car types. *)
Theorem X7_createInitialTrains_fleet :
  forall (cfg : config) (now : Z -> Z -> string) (g : rng),
    List.length (fst (createInitialTrains cfg now g)) = Z.to_nat (TRAIN_COUNT cfg)
    /\ forall k t, nth_error (fst (createInitialTrains cfg now g)) k = Some t ->
         isInitialTrain cfg (Z.of_nat k) t.
Proof. intros cfg now g. apply createInitialTrains_spec. Qed.

(** X7 for the first train made under the default configuration. *)
Lemma X7_witness :
  isInitialTrain defaultConfig 0
    (fst (createTrain defaultConfig (fun _ => Sample.stamp0) 0 (tapeRng []))).
Proof.
  apply (proj2 (X7_createInitialTrains_fleet defaultConfig
                  (fun _ _ => Sample.stamp0) (tapeRng [])) 0%nat).
  unfold createInitialTrains.
  change (upto (TRAIN_COUNT defaultConfig))
    with (0%Z :: map Z.of_nat (seq 1 9)).
  rewrite mapM_cons. reflexivity.
Defined.

(** ** What a tick keeps *)

Section TickKeeps.

Variable cfg : config.

Lemma sameIdentity_refl (t : Train.t) : sameIdentity t t.
Proof. repeat split. Qed.

Lemma sameIdentity_trans (a b c : Train.t) :
  sameIdentity a b -> sameIdentity b c -> sameIdentity a c.
Proof.
  intros (H1 & H2 & H3 & H4) (K1 & K2 & K3 & K4).
  repeat split; congruence.
Qed.

Lemma rollover_identity (t : Train.t) : sameIdentity t (rollover t).
Proof. unfold rollover. destruct (Rle_dec 1 _); repeat split. Qed.

Lemma arriveCar_label (nowIso : string) (t : Train.t) (st : option string)
    (c : Car.t) (g : rng) :
  (Car.carNumber (fst (arriveCar nowIso t st c g)),
   Car.type (fst (arriveCar nowIso t st c g)))
  = (Car.carNumber c, Car.type c).
Proof.
  unfold arriveCar, bind, random, ret.
  destruct (Rlt_dec _ _); [destruct (newAwb _ _ _ _)|]; reflexivity.
Qed.

Lemma updateTrain_identity (nowIso : string) (t : Train.t) (g : rng) :
  sameIdentity t (fst (updateTrain cfg nowIso t g)).
Proof.
  unfold updateTrain.
  destruct (_ <? 2)%nat; [apply sameIdentity_refl|].
  destruct (Rlt_dec 0 _); [repeat split|].
  cbv zeta. pose proof (rollover_identity t) as Hr.
  destruct (stationByCode _); [destruct (stationByCode _)|]; cbn [ret fst]; auto.
  eapply sameIdentity_trans; [exact Hr|].
  destruct (Rle_dec 1 _).
  - unfold arrive, bind, ret.
    pose proof (mapM_map (arriveCar nowIso (rollover t)
                            (Js.index (Train.route (rollover t))
                               (Train.currentLegIndex (rollover t) + 1)))
                  (fun c => (Car.carNumber c, Car.type c))
                  (fun c => (Car.carNumber c, Car.type c))
                  (Train.cars (rollover t))
                  (arriveCar_label nowIso _ _) g) as Hm.
    destruct (mapM _ _ g) as [cs g1]. destruct (randInt _ _ g1) as [d g2].
    cbn [fst] in *. repeat split. cbn [Train.cars]. exact Hm.
  - unfold transit, bind, ret. destruct (tweakSpeed _ g) as [s g1].
    cbn [fst]. repeat split. cbn [Train.cars]. rewrite map_map.
    apply map_ext. intros c. reflexivity.
Qed.

Lemma runTicks_identity (ticks : list string) :
  forall (trains : list Train.t) (g : rng),
    Forall2 sameIdentity trains (fst (runTicks cfg ticks trains g)).
Proof.
  induction ticks as [|now rest IH]; intros trains g.
  - cbn. induction trains; constructor; auto using sameIdentity_refl.
  - cbn [runTicks]. unfold bind.
    pose proof (mapM_Forall2 sameIdentity (updateTrain cfg now)
                  (updateTrain_identity now) trains g) as H1.
    fold (updateTrains cfg now trains g) in H1.
    destruct (updateTrains cfg now trains g) as [trains' g']. cbn [fst] in H1.
    eapply Forall2_trans_gen; [exact sameIdentity_trans | exact H1 | apply IH].
Qed.

Lemma tweakSpeed_range (s : Z) (g : rng) :
  (30 <= s <= 110)%Z ->
  (30 <= fst (tweakSpeed s g) <= 110)%Z
  /\ (s - 5 <= fst (tweakSpeed s g) <= s + 5)%Z.
Proof.
  intros Hs. unfold tweakSpeed, bind, random, ret.
  destruct (Rlt_dec _ _); cbn [fst]; [|lia].
  pose proof (randInt_range (-5) 5 (rngTail g) ltac:(lia)) as Hd.
  destruct (randInt (-5) 5 (rngTail g)) as [d g1]. cbn [fst] in *. lia.
Qed.

Lemma rollover_speed (t : Train.t) :
  Train.speedKmh (rollover t) = Train.speedKmh t
  /\ Train.displaySpeedKmh (rollover t) = Train.displaySpeedKmh t.
Proof. unfold rollover. destruct (Rle_dec 1 _); split; reflexivity. Qed.

Lemma updateTrain_speed (nowIso : string) (t : Train.t) (g : rng) :
  speedInRange t ->
  speedInRange (fst (updateTrain cfg nowIso t g))
  /\ (Train.speedKmh t - 5 <= Train.speedKmh (fst (updateTrain cfg nowIso t g))
      <= Train.speedKmh t + 5)%Z.
Proof.
  intros [Hs Hd]. unfold updateTrain.
  destruct (_ <? 2)%nat; [cbn [ret fst]; split; [split; assumption | lia]|].
  destruct (Rlt_dec 0 _).
  { cbn [ret fst]. unfold speedInRange, dwellStep.
    cbn [Train.speedKmh Train.displaySpeedKmh]. split; [auto | lia]. }
  cbv zeta. destruct (rollover_speed t) as [Es Ed].
  destruct (stationByCode _); [destruct (stationByCode _)|]; cbn [ret fst];
    try (unfold speedInRange; rewrite Es, Ed; split; [auto | lia]).
  destruct (Rle_dec 1 _).
  - unfold arrive, bind, ret.
    destruct (mapM _ _ g) as [cs g1]. destruct (randInt _ _ g1) as [d g2].
    unfold speedInRange. cbn [fst Train.speedKmh Train.displaySpeedKmh].
    rewrite Es. split; [auto | lia].
  - unfold transit, bind, ret.
    pose proof (tweakSpeed_range (Train.speedKmh (rollover t)) g) as Ht.
    rewrite Es in Ht. specialize (Ht Hs).
    rewrite Es. destruct (tweakSpeed _ g) as [s g1]. cbn [fst] in *.
    unfold speedInRange. cbn [Train.speedKmh Train.displaySpeedKmh].
    split; [split; [tauto | right; lia] | tauto].
Qed.

Lemma runTicks_speed (ticks : list string) :
  forall (trains : list Train.t) (g : rng),
    Forall speedInRange trains ->
    Forall speedInRange (fst (runTicks cfg ticks trains g)).
Proof.
  induction ticks as [|now rest IH]; intros trains g Hall; [exact Hall|].
  cbn [runTicks]. unfold bind.
  assert (H1 : Forall speedInRange (fst (updateTrains cfg now trains g))).
  { unfold updateTrains. revert g.
    induction Hall as [|t l Ht Hl IHl]; intros g; [constructor|].
    rewrite mapM_cons. cbn [fst].
    constructor; [now apply updateTrain_speed | apply IHl]. }
  destruct (updateTrains cfg now trains g) as [trains' g']. now apply IH.
Qed.

Lemma initial_speedInRange (i : Z) (t : Train.t) :
  isInitialTrain cfg i t -> speedInRange t.
Proof.
  intros (_ & _ & _ & _ & _ & Hs & Hd & _). unfold speedInRange.
  rewrite Hd. split; [lia | right; lia].
Qed.

Lemma createInitialTrains_Forall (P : Train.t -> Prop)
    (now : Z -> Z -> string) (g : rng) :
  (forall i t, isInitialTrain cfg i t -> P t) ->
  Forall P (fst (createInitialTrains cfg now g)).
Proof.
  intros H. apply Forall_forall. intros t Hin.
  apply In_nth_error in Hin as (k & Hk).
  apply (H (Z.of_nat k)). now apply (createInitialTrains_spec cfg now g).
Qed.

End TickKeeps.

(** X8.  Across any ticks the fleet keeps its trains, in order, and each
    train keeps its id, its name, its route and its cars: as many cars, in
    the same order, each with the same car number and type. *)
Theorem X8_ticks_keep_trains_and_cars :
  forall (cfg : config) (ticks : list string) (trains : list Train.t) (g : rng),
    Forall2 sameIdentity trains (fst (runTicks cfg ticks trains g))
    /\ List.length (fst (runTicks cfg ticks trains g)) = List.length trains.
Proof.
  intros cfg ticks trains g.
  pose proof (runTicks_identity cfg ticks trains g) as H.
  split; [exact H|]. symmetry. eapply Forall2_length. exact H.
Qed.

(** X9.  A tick keeps the speed of a train within 30 to 110 km/h once it
    is there, changes it by at most 5 km/h, and leaves the display speed
    at 0 or within 30 to 110.  Hence every train of a fleet made by
    [createInitialTrains] has, after any ticks, a speed of 30 to 110
    km/h. *)
Theorem X9_speed_stays_between_30_and_110 :
  forall cfg : config,
    (forall (nowIso : string) (t : Train.t) (g : rng),
        speedInRange t ->
        speedInRange (fst (updateTrain cfg nowIso t g))
        /\ (Train.speedKmh t - 5 <= Train.speedKmh (fst (updateTrain cfg nowIso t g))
            <= Train.speedKmh t + 5)%Z)
    /\ (forall (now0 : Z -> Z -> string) (ticks : list string) (g : rng) (t : Train.t),
          In t (fst (runTicks cfg ticks
                       (fst (createInitialTrains cfg now0 g))
                       (snd (createInitialTrains cfg now0 g)))) ->
          speedInRange t).
Proof.
  intros cfg. split; [apply updateTrain_speed|].
  intros now0 ticks g t Hin.
  pose proof (runTicks_speed cfg ticks _ (snd (createInitialTrains cfg now0 g))
                (createInitialTrains_Forall cfg speedInRange now0 g
                   (initial_speedInRange cfg))) as Hall.
  rewrite Forall_forall in Hall. now apply Hall.
Qed.

(** X9 for the tick on which the sample train reaches KC. *)
Lemma X9_witness :
  speedInRange Sample.nearKC
  /\ speedInRange (fst (updateTrain defaultConfig Sample.stamp1 Sample.nearKC
                          (tapeRng Sample.arrivalTape))).
Proof.
  assert (H : speedInRange Sample.nearKC).
  { unfold speedInRange. cbn. split; [lia | right; lia]. }
  split; [exact H|].
  apply (proj1 (X9_speed_stays_between_30_and_110 defaultConfig)). exact H.
Defined.

(** ** Every train of the fleet is updated on every tick *)

Section TickStamps.

Variable cfg : config.

Lemma predefined_resolves (route : list string) (idx : Z) :
  In route ROUTES -> (0 <= idx <= 2)%Z ->
  exists from to,
    stationByCode (Js.index route idx) = Some from
    /\ stationByCode (Js.index route (idx + 1)) = Some to.
Proof.
  intros Hr Hi.
  assert (Hidx : idx = 0%Z \/ idx = 1%Z \/ idx = 2%Z) by lia.
  unfold ROUTES, ROUTES_rest, ROUTE_0 in Hr. cbn [In] in Hr.
  repeat (destruct Hr as [<- | Hr];
          [destruct Hidx as [-> | [-> | ->]];
           do 2 eexists; split; reflexivity|]).
  destruct Hr.
Qed.

Lemma rollover_predefined (t : Train.t) :
  onPredefinedRoute t -> onPredefinedRoute (rollover t).
Proof.
  intros [Hr Hi]. unfold rollover. destruct (Rle_dec 1 _); [|split; assumption].
  split; [exact Hr|]. cbn [Train.currentLegIndex Train.route].
  rewrite (ROUTES_length _ Hr).
  destruct (Z.leb_spec (Z.of_nat 4 - 1) (Train.currentLegIndex t + 1)); lia.
Qed.

Lemma updateTrain_stamps (nowIso : string) (t : Train.t) (g : rng) :
  onPredefinedRoute t ->
  onPredefinedRoute (fst (updateTrain cfg nowIso t g))
  /\ Train.lastUpdated (fst (updateTrain cfg nowIso t g)) = Some nowIso.
Proof.
  intros Ht. pose proof Ht as [Hr Hi]. unfold updateTrain.
  rewrite (ROUTES_length _ Hr). cbn [Nat.ltb Nat.leb].
  destruct (Rlt_dec 0 _); [cbn [ret fst]; split; [exact Ht | reflexivity]|].
  cbv zeta. pose proof (rollover_predefined t Ht) as [Hr1 Hi1].
  destruct (predefined_resolves _ _ Hr1 Hi1) as (from & to & -> & ->).
  destruct (Rle_dec 1 _).
  - unfold arrive, bind, ret.
    destruct (mapM _ _ g) as [cs g1]. destruct (randInt _ _ g1) as [d g2].
    cbn [fst]. split; [split; assumption | reflexivity].
  - unfold transit, bind, ret. destruct (tweakSpeed _ g) as [s g1].
    cbn [fst]. split; [split; assumption | reflexivity].
Qed.

Lemma updateTrains_stamps (nowIso : string) (trains : list Train.t) (g : rng) :
  Forall onPredefinedRoute trains ->
  Forall (fun t => onPredefinedRoute t /\ Train.lastUpdated t = Some nowIso)
    (fst (updateTrains cfg nowIso trains g)).
Proof.
  unfold updateTrains. revert g.
  induction trains as [|t l IH]; intros g Hall; [constructor|].
  inversion Hall; subst. rewrite mapM_cons. cbn [fst].
  constructor; [now apply updateTrain_stamps | now apply IH].
Qed.

Lemma runTicks_predefined (ticks : list string) :
  forall (trains : list Train.t) (g : rng),
    Forall onPredefinedRoute trains ->
    Forall onPredefinedRoute (fst (runTicks cfg ticks trains g)).
Proof.
  induction ticks as [|now rest IH]; intros trains g Hall; [exact Hall|].
  cbn [runTicks]. unfold bind.
  pose proof (updateTrains_stamps now trains g Hall) as H1.
  destruct (updateTrains cfg now trains g) as [trains' g']. cbn [fst] in H1.
  apply IH. eapply Forall_impl; [|exact H1]. intros t Ht. apply Ht.
Qed.

Lemma initial_onPredefinedRoute (i : Z) (t : Train.t) :
  isInitialTrain cfg i t -> onPredefinedRoute t.
Proof.
  intros (_ & _ & Hr & Hi & _). split; [exact Hr | lia].
Qed.

End TickStamps.

(** X10.  A tick of a train that runs on a leg of a predefined route
    resolves both stations of the leg and stamps the train with the time
    of the tick.  Hence after every tick each train of a fleet made by
    [createInitialTrains] carries the time of that tick as lastUpdated:
    no train is ever skipped. *)
Theorem X10_every_train_is_stamped_on_every_tick :
  forall cfg : config,
    (forall (nowIso : string) (t : Train.t) (g : rng),
        onPredefinedRoute t ->
        onPredefinedRoute (fst (updateTrain cfg nowIso t g))
        /\ Train.lastUpdated (fst (updateTrain cfg nowIso t g)) = Some nowIso)
    /\ (forall (now0 : Z -> Z -> string) (ticks : list string) (nowIso : string)
               (g : rng) (t : Train.t),
          In t (fst (runTicks cfg (ticks ++ [nowIso])
                       (fst (createInitialTrains cfg now0 g))
                       (snd (createInitialTrains cfg now0 g)))) ->
          Train.lastUpdated t = Some nowIso).
Proof.
  intros cfg. split; [apply updateTrain_stamps|].
  intros now0 ticks nowIso g t Hin.
  rewrite runTicks_app in Hin. cbn [runTicks] in Hin. unfold bind, ret in Hin.
  pose proof (runTicks_predefined cfg ticks _ (snd (createInitialTrains cfg now0 g))
                (createInitialTrains_Forall cfg onPredefinedRoute now0 g
                   (initial_onPredefinedRoute cfg))) as Hall.
  pose proof (updateTrains_stamps cfg nowIso _
                (snd (runTicks cfg ticks (fst (createInitialTrains cfg now0 g))
                        (snd (createInitialTrains cfg now0 g)))) Hall) as Hst.
  destruct (updateTrains cfg nowIso _ _) as [trains' g']. cbn [fst] in *.
  rewrite Forall_forall in Hst. now apply Hst.
Qed.

(** X10 for the sample train about to reach KC. *)
Lemma X10_witness :
  onPredefinedRoute Sample.nearKC
  /\ Train.lastUpdated (fst (updateTrain defaultConfig Sample.stamp1 Sample.nearKC
                               (tapeRng Sample.arrivalTape)))
     = Some Sample.stamp1.
Proof.
  assert (H : onPredefinedRoute Sample.nearKC).
  { split; [now left | cbn; lia]. }
  split; [exact H|].
  apply (proj1 (X10_every_train_is_stamped_on_every_tick defaultConfig)). exact H.
Defined.

(** ** What a tick does to the cargo *)

Section CargoEffects.

Variable cfg : config.
Variable nowIso : string.

Lemma optStrEqb_eq (a b : option string) : Js.optStrEqb a b = true <-> a = b.
Proof.
  destruct a as [x|], b as [y|]; cbn; split; try discriminate; try reflexivity.
  - intros H. apply String.eqb_eq in H. now subst.
  - intros [= ->]. apply String.eqb_refl.
Qed.

Lemma isDelivered_false (s : awbStatus) : isDelivered s = false <-> s <> DELIVERED.
Proof. destruct s; cbn; split; congruence. Qed.

Lemma isLoaded_true (s : awbStatus) : isLoaded s = true <-> s = LOADED.
Proof. destruct s; cbn; split; congruence. Qed.

Lemma deliverAwb_effect (st : option string) (a : Awb.t) :
  deliveredOrKept nowIso st a (deliverAwb nowIso st a).
Proof.
  unfold deliveredOrKept, deliverAwb.
  destruct (Js.optStrEqb _ _ && negb (isDelivered (Awb.status a))) eqn:E.
  - apply andb_prop in E as [E1 E2]. apply optStrEqb_eq in E1.
    apply negb_true_iff, isDelivered_false in E2. split.
    + intros _. unfold sameCargo. cbn. repeat split.
    + intros Hn. exfalso. apply Hn. split; assumption.
  - split; [|reflexivity]. intros [Hd Hs]. exfalso.
    apply andb_false_iff in E as [E | E].
    + apply optStrEqb_eq in Hd. congruence.
    + apply negb_false_iff in E. apply isDelivered_false in Hs. congruence.
Qed.

Lemma departAwb_effect (oc : option string) (p : R) (a : Awb.t) :
  departedOrKept nowIso oc p a (departAwb nowIso oc p a).
Proof.
  unfold departedOrKept, departAwb.
  destruct (Rlt_dec 0.05 p) as [Hp | Hp].
  - rewrite andb_true_r.
    destruct (Js.optStrEqb _ _ && isLoaded (Awb.status a)) eqn:E.
    + apply andb_prop in E as [E1 E2]. apply optStrEqb_eq in E1.
      apply isLoaded_true in E2. split.
      * intros _. unfold sameCargo. cbn. repeat split.
      * intros Hn. exfalso. apply Hn. repeat split; assumption.
    + split; [|reflexivity]. intros (Ho & Hs & _). exfalso.
      apply andb_false_iff in E as [E | E].
      * apply optStrEqb_eq in Ho. congruence.
      * apply isLoaded_true in Hs. congruence.
  - rewrite andb_false_r. split; [|reflexivity]. intros (_ & _ & H). contradiction.
Qed.

Lemma newAwb_fresh (t : Train.t) (st : option string) (g : rng) :
  isFresh nowIso (fst (newAwb nowIso t st g))
  /\ Awb.originStationCode (fst (newAwb nowIso t st g)) = st.
Proof.
  unfold newAwb, bind, ret. cbv zeta.
  destruct (randInt 100 999 g) as [k g1].
  destruct (randInt _ _ g1) as [d g2].
  pose proof (randInt_range 1 10 g2 ltac:(lia)) as Hp.
  destruct (randInt 1 10 g2) as [p g3].
  pose proof (randInt_range 500 20000 g3 ltac:(lia)) as Hw.
  destruct (randInt 500 20000 g3) as [w g4].
  cbn [fst] in *. unfold isFresh. cbn. intuition lia.
Qed.

End CargoEffects.

Section TrainEffects.

Variable cfg : config.
Variable nowIso : string.

Lemma arriveCar_effect (t : Train.t) (st : option string) (c : Car.t) (g : rng) :
  arrivedCar nowIso st c (fst (arriveCar nowIso t st c g)).
Proof.
  unfold arriveCar, bind, random, ret.
  destruct (Rlt_dec (draw g 0) 0.35).
  - pose proof (newAwb_fresh nowIso t st (rngTail g)) as Hnew.
    destruct (newAwb nowIso t st (rngTail g)) as [a g']. cbn [fst] in *.
    split; [reflexivity|]. split; [reflexivity|].
    exists (map (deliverAwb nowIso st) (Car.airwayBills c)), [a].
    split; [reflexivity|]. split; [apply map_Forall2, deliverAwb_effect|].
    split; [cbn; lia | constructor; [exact Hnew | constructor]].
  - cbn [fst]. split; [reflexivity|]. split; [reflexivity|].
    exists (map (deliverAwb nowIso st) (Car.airwayBills c)), [].
    rewrite app_nil_r. split; [reflexivity|].
    split; [apply map_Forall2, deliverAwb_effect|].
    split; [cbn; lia | constructor].
Qed.

Lemma departCar_effect (oc : option string) (p : R) (c : Car.t) :
  departedCar nowIso oc p c (departCar nowIso oc p c).
Proof.
  split; [reflexivity|]. split; [reflexivity|].
  apply map_Forall2, departAwb_effect.
Qed.

Lemma stationByCode_defined (code : option string) (s : Station.t) :
  stationByCode code = Some s -> code <> None.
Proof. destruct code; [discriminate | cbn; discriminate]. Qed.

(** The tick on which a train reaches the end of its leg. *)
Lemma updateTrain_arrival_effect (t : Train.t) (g : rng) :
  arrivesThisTick cfg t ->
  let t1 := rollover t in
  let st := Js.index (Train.route t1) (Train.currentLegIndex t1 + 1) in
  let t' := fst (updateTrain cfg nowIso t g) in
  st <> None
  /\ Forall2 (arrivedCar nowIso st) (Train.cars t) (Train.cars t')
  /\ Train.currentLegIndex t' = Train.currentLegIndex t1
  /\ Train.legProgress t' = 1%R
  /\ Train.speedKmh t' = Train.speedKmh t
  /\ Train.displaySpeedKmh t' = 0%Z
  /\ Train.lastUpdated t' = Some nowIso
  /\ ((MIN_DWELL_MINUTES cfg <= MAX_DWELL_MINUTES cfg)%Z ->
      exists m : Z,
        (MIN_DWELL_MINUTES cfg <= m <= MAX_DWELL_MINUTES cfg)%Z
        /\ Train.dwellRemainingHours t' = (IZR m / 60)%R).
Proof.
  intros (Hlen & Hdw & from & to & Hf & Hto & Harr). cbv zeta in *.
  unfold updateTrain.
  destruct (_ <? 2)%nat eqn:E; [apply Nat.ltb_lt in E; lia|].
  destruct (Rlt_dec 0 _); [contradiction|].
  cbv zeta. rewrite Hf, Hto.
  destruct (Rle_dec 1 _); [|contradiction].
  unfold arrive, bind, ret.
  pose proof (mapM_Forall2 _ _ (arriveCar_effect (rollover t)
                (Js.index (Train.route (rollover t))
                   (Train.currentLegIndex (rollover t) + 1)))
                (Train.cars (rollover t)) g) as Hcars.
  destruct (mapM _ _ g) as [cs g1].
  pose proof (randInt_range (MIN_DWELL_MINUTES cfg) (MAX_DWELL_MINUTES cfg) g1) as Hd.
  destruct (randInt _ _ g1) as [d g2]. cbn [fst] in *.
  destruct (rollover_cars t) as (Ec & _ & _ & Es & _). rewrite Ec in Hcars.
  split; [eapply stationByCode_defined; exact Hto|].
  split; [exact Hcars|]. cbn.
  repeat split; try assumption.
  intros Hmm. exists d. split; [now apply Hd | reflexivity].
Qed.

(** The tick on which a train stays between the two stations. *)
Lemma updateTrain_transit_effect (t : Train.t) (g : rng) :
  staysUnderWay cfg t ->
  let t1 := rollover t in
  let originCode := Js.index (Train.route t1) (Train.currentLegIndex t1) in
  let t' := fst (updateTrain cfg nowIso t g) in
  Forall2 (departedCar nowIso originCode (progressAfter cfg t))
    (Train.cars t) (Train.cars t')
  /\ Train.currentLegIndex t' = Train.currentLegIndex t1
  /\ Train.legProgress t' = progressAfter cfg t
  /\ Train.displaySpeedKmh t' = Train.speedKmh t
  /\ Train.dwellRemainingHours t' = Train.dwellRemainingHours t
  /\ Train.lastUpdated t' = Some nowIso.
Proof.
  intros (Hlen & Hdw & from & to & Hf & Hto & Hun). cbv zeta in *.
  unfold progressAfter, updateTrain.
  destruct (_ <? 2)%nat eqn:E; [apply Nat.ltb_lt in E; lia|].
  destruct (Rlt_dec 0 _); [contradiction|].
  cbv zeta. rewrite Hf, Hto.
  destruct (Rle_dec 1 _); [lra|].
  unfold transit, bind, ret.
  destruct (tweakSpeed _ g) as [s g1]. cbn [fst].
  destruct (rollover_cars t) as (Ec & _ & _ & Es & Ed).
  cbn. rewrite Ec, Es, Ed. repeat split.
  apply map_Forall2, departCar_effect.
Qed.

End TrainEffects.

(** X11.  When a train reaches the end of its leg, the arrival station
    is known; every car keeps its number, type and items in place; an item
    bound for the arrival station and not yet delivered becomes DELIVERED
    with the tick's time as deliveredAt and lastUpdated and the arrival
    station as offload station, every other item is unchanged; each car
    gains at most one item, fresh and loaded at the arrival station.  The
    train ends the tick with legProgress 1, display speed 0, unchanged
    speed, the tick's time as lastUpdated and, when the configured minimum
    is not above the maximum, a dwell of a whole number of minutes between
    them. *)
Theorem X11_arrival_delivers_and_loads :
  forall (cfg : config) (nowIso : string) (t : Train.t) (g : rng),
    arrivesThisTick cfg t ->
    let t1 := rollover t in
    let st := Js.index (Train.route t1) (Train.currentLegIndex t1 + 1) in
    let t' := fst (updateTrain cfg nowIso t g) in
    st <> None
    /\ Forall2 (arrivedCar nowIso st) (Train.cars t) (Train.cars t')
    /\ Train.currentLegIndex t' = Train.currentLegIndex t1
    /\ Train.legProgress t' = 1%R
    /\ Train.speedKmh t' = Train.speedKmh t
    /\ Train.displaySpeedKmh t' = 0%Z
    /\ Train.lastUpdated t' = Some nowIso
    /\ ((MIN_DWELL_MINUTES cfg <= MAX_DWELL_MINUTES cfg)%Z ->
        exists m : Z,
          (MIN_DWELL_MINUTES cfg <= m <= MAX_DWELL_MINUTES cfg)%Z
          /\ Train.dwellRemainingHours t' = (IZR m / 60)%R).
Proof. intros cfg nowIso t g. apply updateTrain_arrival_effect. Qed.

(** X11 for the sample train reaching KC. *)
Lemma X11_witness :
  arrivesThisTick defaultConfig Sample.nearKC
  /\ Forall2 (arrivedCar Sample.stamp1 (Some "KC"%string))
       (Train.cars Sample.nearKC)
       (Train.cars (fst (updateTrain defaultConfig Sample.stamp1 Sample.nearKC
                           (tapeRng Sample.arrivalTape)))).
Proof.
  split; [exact nearKC_arrives|].
  pose proof (X11_arrival_delivers_and_loads defaultConfig Sample.stamp1
                Sample.nearKC (tapeRng Sample.arrivalTape) nearKC_arrives)
    as (_ & H & _).
  rewrite rollover_not_arrived in H
    by (unfold Sample.nearKC; cbn [Train.legProgress Sample.freshTrain]; lra).
  exact H.
Defined.

Lemma atLA_staysUnderWay : staysUnderWay defaultConfig Sample.atLA.
Proof.
  split; [cbn; lia|]. split.
  { unfold Sample.atLA. cbn [Train.dwellRemainingHours Sample.freshTrain]. lra. }
  exists (Station.mk "LA" "Los Angeles Freight Yard" "Los Angeles" "CA"
            34.033 (-118.238)),
         (Station.mk "KC" "Kansas City Intermodal" "Kansas City" "MO"
            39.104 (-94.598)).
  cbv zeta. rewrite rollover_not_arrived
    by (unfold Sample.atLA; cbn [Train.legProgress Sample.freshTrain]; lra).
  split; [reflexivity|]. split; [reflexivity|].
  unfold progressIncrement. cbv zeta. rewrite dtHours_default.
  cbn [Train.legProgress Train.speedKmh Sample.atLA Sample.freshTrain
       Station.lat Station.lon].
  pose proof haversineKm_LA_KC as [Hl Hh].
  set (d := haversineKm 34.033 (-118.238) 39.104 (-94.598)) in *.
  assert (H : (60 * / 12 / d < 1)%R).
  { apply Rmult_lt_reg_r with d; [lra|].
    unfold Rdiv. rewrite Rmult_assoc, Rinv_l by lra. lra. }
  lra.
Qed.

(** X12.  On a tick on which a train stays between two stations, every
    car keeps its number, type and items, with no item added or removed; an
    item that is LOADED, was loaded at the station the leg starts from, is
    put IN_TRANSIT with the tick's time as lastUpdated as soon as the
    progress at the end of the tick exceeds 0.05, and every other item is
    unchanged.  The train ends the tick with that progress, the speed
    before the tick as display speed, unchanged dwell, and the tick's time
    as lastUpdated. *)
Theorem X12_under_way_marks_items_in_transit :
  forall (cfg : config) (nowIso : string) (t : Train.t) (g : rng),
    staysUnderWay cfg t ->
    let t1 := rollover t in
    let originCode := Js.index (Train.route t1) (Train.currentLegIndex t1) in
    let t' := fst (updateTrain cfg nowIso t g) in
    Forall2 (departedCar nowIso originCode (progressAfter cfg t))
      (Train.cars t) (Train.cars t')
    /\ Train.currentLegIndex t' = Train.currentLegIndex t1
    /\ Train.legProgress t' = progressAfter cfg t
    /\ Train.displaySpeedKmh t' = Train.speedKmh t
    /\ Train.dwellRemainingHours t' = Train.dwellRemainingHours t
    /\ Train.lastUpdated t' = Some nowIso.
Proof. intros cfg nowIso t g. apply updateTrain_transit_effect. Qed.

(** X12 for the sample train leaving LA. *)
Lemma X12_witness :
  staysUnderWay defaultConfig Sample.atLA
  /\ Train.lastUpdated (fst (updateTrain defaultConfig Sample.stamp1 Sample.atLA
                               (tapeRng []))) = Some Sample.stamp1.
Proof.
  split; [exact atLA_staysUnderWay|].
  apply (X12_under_way_marks_items_in_transit defaultConfig Sample.stamp1
           Sample.atLA (tapeRng []) atLA_staysUnderWay).
Defined.

(** ** Dwelling *)

Section Dwelling.

Variable cfg : config.

Lemma dwelling_run (ticks : list string) :
  forall (t : Train.t) (g : rng),
    (2 <= List.length (Train.route t))%nat ->
    (0 < Train.dwellRemainingHours t)%R ->
    (INR (List.length ticks) * dtHours cfg < Train.dwellRemainingHours t)%R ->
    exists t',
      runTicks cfg ticks [t] g = ([t'], g)
      /\ Train.route t' = Train.route t
      /\ Train.currentLegIndex t' = Train.currentLegIndex t
      /\ Train.legProgress t' = Train.legProgress t
      /\ Train.speedKmh t' = Train.speedKmh t
      /\ Train.cars t' = Train.cars t
      /\ Train.dwellRemainingHours t'
         = (Train.dwellRemainingHours t - INR (List.length ticks) * dtHours cfg)%R.
Proof.
  induction ticks as [|now rest IH]; intros t g Hlen Hd Hn.
  - exists t. cbn. repeat split. lra.
  - cbn [List.length] in Hn. rewrite S_INR in Hn.
    pose proof (pos_INR (List.length rest)) as Hpos.
    assert (Hd1 : (0 < Train.dwellRemainingHours t - dtHours cfg)%R).
    { destruct (Rle_lt_dec 0 (dtHours cfg)); nra. }
    destruct (IH (dwellStep cfg now t) g) as (t' & E & Hr & Hi & Hp & Hs & Hc & Hdw).
    + exact Hlen.
    + cbn [dwellStep Train.dwellRemainingHours]. rewrite Rmax_right; lra.
    + cbn [dwellStep Train.dwellRemainingHours]. rewrite Rmax_right; lra.
    + exists t'. split.
      * cbn [runTicks updateTrains mapM]. unfold bind, ret.
        rewrite (updateTrain_dwelling cfg now t g Hlen Hd). exact E.
      * cbn [dwellStep Train.dwellRemainingHours Train.route Train.currentLegIndex
             Train.legProgress Train.speedKmh Train.cars] in *.
        rewrite Rmax_right in Hdw by lra.
        repeat split; try assumption.
        rewrite Hdw. cbn [List.length]. rewrite S_INR. ring.
Qed.

End Dwelling.

(** X13.  A train with dwell time left does not move: a tick draws
    nothing from the random source, leaves leg, progress, speed and cars
    as they are, shows speed 0, stamps the train and takes the simulated
    hours of a tick off the timer, stopping at 0.  As long as the ticks
    add up to less than the dwell time, the train stays where it is with
    its cargo untouched, and the timer shows what is left. *)
Theorem X13_dwelling_train_stands_still :
  forall (cfg : config) (t : Train.t),
    (2 <= List.length (Train.route t))%nat ->
    (0 < Train.dwellRemainingHours t)%R ->
    (forall (nowIso : string) (g : rng),
        let t' := fst (updateTrain cfg nowIso t g) in
        snd (updateTrain cfg nowIso t g) = g
        /\ Train.currentLegIndex t' = Train.currentLegIndex t
        /\ Train.legProgress t' = Train.legProgress t
        /\ Train.speedKmh t' = Train.speedKmh t
        /\ Train.cars t' = Train.cars t
        /\ Train.displaySpeedKmh t' = 0%Z
        /\ Train.lastUpdated t' = Some nowIso
        /\ Train.dwellRemainingHours t'
           = Rmax 0 (Train.dwellRemainingHours t - dtHours cfg))
    /\ (forall (ticks : list string) (g : rng),
          (INR (List.length ticks) * dtHours cfg < Train.dwellRemainingHours t)%R ->
          exists t',
            runTicks cfg ticks [t] g = ([t'], g)
            /\ Train.route t' = Train.route t
            /\ Train.currentLegIndex t' = Train.currentLegIndex t
            /\ Train.legProgress t' = Train.legProgress t
            /\ Train.speedKmh t' = Train.speedKmh t
            /\ Train.cars t' = Train.cars t
            /\ Train.dwellRemainingHours t'
               = (Train.dwellRemainingHours t
                  - INR (List.length ticks) * dtHours cfg)%R).
Proof.
  intros cfg t Hlen Hd. split.
  - intros nowIso g. cbv zeta.
    rewrite (updateTrain_dwelling cfg nowIso t g Hlen Hd). cbn. repeat split.
  - intros ticks g Hn. now apply dwelling_run.
Qed.

(** X13 for the sample train standing at KC for 13 minutes, over two
    ticks of 5 minutes. *)
Lemma X13_witness :
  exists t',
    runTicks defaultConfig [Sample.stamp1; Sample.stamp2] [Sample.atKC] (tapeRng [])
    = ([t'], tapeRng [])
    /\ Train.cars t' = Train.cars Sample.atKC
    /\ Train.dwellRemainingHours t' = (13 / 60 - 2 * / 12)%R.
Proof.
  assert (Hlen : (2 <= List.length (Train.route Sample.atKC))%nat) by (cbn; lia).
  assert (Hd : (0 < Train.dwellRemainingHours Sample.atKC)%R).
  { cbn [Train.dwellRemainingHours Sample.atKC]. lra. }
  destruct (proj2 (X13_dwelling_train_stands_still defaultConfig Sample.atKC Hlen Hd)
              [Sample.stamp1; Sample.stamp2] (tapeRng []))
    as (t' & E & _ & _ & _ & _ & Hc & Hdw).
  { rewrite dtHours_default. cbn [List.length Train.dwellRemainingHours Sample.atKC].
    replace (INR 2) with 2%R by (simpl; lra). lra. }
  exists t'. split; [exact E|]. split; [exact Hc|].
  rewrite Hdw, dtHours_default.
  cbn [List.length Train.dwellRemainingHours Sample.atKC].
  replace (INR 2) with 2%R by (simpl; lra). reflexivity.
Defined.

(** ** What a tick never does to the cargo *)

Section CargoKept.

Lemma sameCargo_refl (a : Awb.t) : sameCargo a a.
Proof. repeat split. Qed.

Lemma sameCargo_trans (a b c : Awb.t) :
  sameCargo a b -> sameCargo b c -> sameCargo a c.
Proof.
  intros (H1 & H2 & H3 & H4 & H5 & H6) (K1 & K2 & K3 & K4 & K5 & K6).
  repeat split; congruence.
Qed.

Lemma carKeepsCargo_refl (c : Car.t) : carKeepsCargo c c.
Proof.
  exists (Car.airwayBills c), []. rewrite app_nil_r. split; [reflexivity|].
  induction (Car.airwayBills c); constructor; auto using sameCargo_refl.
Qed.

Lemma carKeepsCargo_trans (a b c : Car.t) :
  carKeepsCargo a b -> carKeepsCargo b c -> carKeepsCargo a c.
Proof.
  intros (k1 & n1 & E1 & F1) (k2 & n2 & E2 & F2).
  rewrite E1 in F2. apply Forall2_app_inv_l in F2.
  destruct F2 as (k2a & k2b & Fa & Fb & ->).
  exists k2a, (k2b ++ n2). split.
  - now rewrite E2, app_assoc.
  - eapply Forall2_trans_gen; eauto using sameCargo_trans.
Qed.

Lemma trainKeepsCargo_refl (t : Train.t) : trainKeepsCargo t t.
Proof.
  unfold trainKeepsCargo.
  induction (Train.cars t); constructor; auto using carKeepsCargo_refl.
Qed.

Lemma trainKeepsCargo_trans (a b c : Train.t) :
  trainKeepsCargo a b -> trainKeepsCargo b c -> trainKeepsCargo a c.
Proof. apply Forall2_trans_gen, carKeepsCargo_trans. Qed.

Variable cfg : config.

Lemma deliverAwb_sameCargo (nowIso : string) (st : option string) (a : Awb.t) :
  sameCargo a (deliverAwb nowIso st a).
Proof. unfold deliverAwb. destruct (_ && _); repeat split. Qed.

Lemma departAwb_sameCargo (nowIso : string) (oc : option string) (p : R) (a : Awb.t) :
  sameCargo a (departAwb nowIso oc p a).
Proof. unfold departAwb. destruct (_ && _ && _); repeat split. Qed.

Lemma arriveCar_keeps (nowIso : string) (t : Train.t) (st : option string)
    (c : Car.t) (g : rng) :
  carKeepsCargo c (fst (arriveCar nowIso t st c g)).
Proof.
  unfold arriveCar, bind, random, ret.
  destruct (Rlt_dec (draw g 0) 0.35).
  - destruct (newAwb nowIso t st (rngTail g)) as [a g']. cbn.
    exists (map (deliverAwb nowIso st) (Car.airwayBills c)), [a].
    split; [reflexivity|]. apply map_Forall2, deliverAwb_sameCargo.
  - cbn. exists (map (deliverAwb nowIso st) (Car.airwayBills c)), [].
    rewrite app_nil_r. split; [reflexivity|].
    apply map_Forall2, deliverAwb_sameCargo.
Qed.

Lemma departCar_keeps (nowIso : string) (oc : option string) (p : R) (c : Car.t) :
  carKeepsCargo c (departCar nowIso oc p c).
Proof.
  exists (map (departAwb nowIso oc p) (Car.airwayBills c)), [].
  rewrite app_nil_r. split; [reflexivity|].
  apply map_Forall2, departAwb_sameCargo.
Qed.

Lemma updateTrain_keeps (nowIso : string) (t : Train.t) (g : rng) :
  trainKeepsCargo t (fst (updateTrain cfg nowIso t g)).
Proof.
  unfold updateTrain.
  destruct (_ <? 2)%nat; [apply trainKeepsCargo_refl|].
  destruct (Rlt_dec 0 _); [apply (trainKeepsCargo_refl t)|].
  cbv zeta.
  assert (Hr : trainKeepsCargo t (rollover t)).
  { unfold trainKeepsCargo. rewrite (proj1 (rollover_cars t)).
    apply (trainKeepsCargo_refl t). }
  destruct (stationByCode _); [destruct (stationByCode _)|]; cbn [ret fst]; auto.
  eapply trainKeepsCargo_trans; [exact Hr|].
  destruct (Rle_dec 1 _).
  - unfold arrive, bind, ret.
    pose proof (mapM_Forall2 carKeepsCargo
                  (arriveCar nowIso (rollover t)
                     (Js.index (Train.route (rollover t))
                        (Train.currentLegIndex (rollover t) + 1)))
                  (fun c g' => arriveCar_keeps nowIso _ _ c g')
                  (Train.cars (rollover t)) g) as H.
    destruct (mapM _ _ g) as [cs g1]. destruct (randInt _ _ g1) as [d g2].
    exact H.
  - unfold transit, bind, ret. destruct (tweakSpeed _ g) as [s g1].
    unfold trainKeepsCargo. cbn [fst Train.cars].
    apply map_Forall2, departCar_keeps.
Qed.

Lemma runTicks_keeps (ticks : list string) :
  forall (trains : list Train.t) (g : rng),
    Forall2 trainKeepsCargo trains (fst (runTicks cfg ticks trains g)).
Proof.
  induction ticks as [|now rest IH]; intros trains g.
  - cbn. induction trains; constructor; auto using trainKeepsCargo_refl.
  - cbn [runTicks]. unfold bind.
    pose proof (mapM_Forall2 trainKeepsCargo (updateTrain cfg now)
                  (updateTrain_keeps now) trains g) as H1.
    fold (updateTrains cfg now trains g) in H1.
    destruct (updateTrains cfg now trains g) as [trains' g']. cbn [fst] in H1.
    eapply Forall2_trans_gen; [exact trainKeepsCargo_trans | exact H1 | apply IH].
Qed.

End CargoKept.

(** X14.  The ticks never remove an item from a car, never move it and
    never change what it is: take the fleet after any ticks, and again
    after any further ticks; every item of the earlier fleet is found in
    the later one in the same train, car and place, with the same
    awbNumber, origin, destination, pieces, weight and loading time.  So
    the number of items of a car never goes down. *)
Theorem X14_ticks_keep_cargo_data :
  forall (cfg : config) (before after : list string)
         (trains : list Train.t) (g : rng),
    let earlier := fst (runTicks cfg before trains g) in
    let later := fst (runTicks cfg (before ++ after) trains g) in
    Forall2 trainKeepsCargo earlier later
    /\ forall (i j k : nat) (t : Train.t) (c : Car.t) (a : Awb.t),
         nth_error earlier i = Some t ->
         nth_error (Train.cars t) j = Some c ->
         nth_error (Car.airwayBills c) k = Some a ->
         exists t' c' a',
           nth_error later i = Some t'
           /\ nth_error (Train.cars t') j = Some c'
           /\ nth_error (Car.airwayBills c') k = Some a'
           /\ sameCargo a a'
           /\ (List.length (Car.airwayBills c) <= List.length (Car.airwayBills c'))%nat.
Proof.
  intros cfg before after trains g earlier later.
  assert (Hk : Forall2 trainKeepsCargo earlier later).
  { unfold earlier, later. rewrite runTicks_app. apply runTicks_keeps. }
  split; [exact Hk|].
  intros i j k t c a Ht Hc Ha.
  destruct (Forall2_nth_error _ _ _ Hk i _ Ht) as (t' & Ht' & Hcars).
  destruct (Forall2_nth_error _ _ _ Hcars j _ Hc) as (c' & Hc' & kept & loaded & E & Hkept).
  destruct (Forall2_nth_error _ _ _ Hkept k _ Ha) as (a' & Ha' & Haa).
  exists t', c', a'. repeat split; try assumption; try apply Haa.
  - rewrite E. rewrite nth_error_app1; [exact Ha'|].
    apply nth_error_Some. congruence.
  - rewrite E, length_app, <- (Forall2_length Hkept). lia.
Qed.

(** X14 for the second item of the second car of the sample train
    standing at KC. *)
Lemma X14_witness :
  exists t' c' a',
    nth_error (fst (runTicks defaultConfig [Sample.stamp2] [Sample.atKC]
                      (tapeRng []))) 0 = Some t'
    /\ nth_error (Train.cars t') 1 = Some c'
    /\ nth_error (Car.airwayBills c') 1 = Some a'
    /\ sameCargo Sample.loadedInCar2 a'
    /\ (2 <= List.length (Car.airwayBills c'))%nat.
Proof.
  apply (proj2 (X14_ticks_keep_cargo_data defaultConfig [] [Sample.stamp2]
                  [Sample.atKC] (tapeRng []))
           0%nat 1%nat 1%nat Sample.atKC
           (Car.mk "R1002" "TANK" [Sample.deliveredAtKC; Sample.loadedInCar2])
           Sample.loadedInCar2); reflexivity.
Defined.

(** ** The delivery fields agree with the status *)

Section DeliveryFields.

Variable cfg : config.

Lemma fresh_consistent (now : string) (a : Awb.t) :
  isFresh now a -> deliveryConsistent a.
Proof.
  intros (Hs & _ & _ & Hd & Ho & _). unfold deliveryConsistent.
  rewrite Hs, Hd, Ho. repeat split; intros; try discriminate; congruence.
Qed.

Lemma deliverAwb_consistent (nowIso : string) (st : option string) (a : Awb.t) :
  st <> None -> deliveryConsistent a -> deliveryConsistent (deliverAwb nowIso st a).
Proof.
  intros Hst Ha. unfold deliverAwb.
  destruct (Js.optStrEqb _ _ && _) eqn:E; [|exact Ha].
  apply andb_prop in E as [E _]. apply optStrEqb_eq in E.
  unfold deliveryConsistent. cbn.
  repeat split; intros; try discriminate; try congruence.
Qed.

Lemma departAwb_consistent (nowIso : string) (oc : option string) (p : R) (a : Awb.t) :
  deliveryConsistent a -> deliveryConsistent (departAwb nowIso oc p a).
Proof.
  intros Ha. unfold departAwb.
  destruct (_ && isLoaded (Awb.status a) && _) eqn:E; [|exact Ha].
  apply andb_prop in E as [E _]. apply andb_prop in E as [_ E].
  apply isLoaded_true in E.
  destruct Ha as ([_ H1] & [_ H2] & _). unfold deliveryConsistent. cbn.
  split; [|split].
  - split; [discriminate|]. intros K. apply H1 in K. congruence.
  - split; [discriminate|]. intros K. apply H2 in K. congruence.
  - discriminate.
Qed.

Lemma arriveCar_consistent (nowIso : string) (t : Train.t) (st : option string)
    (c : Car.t) (g : rng) :
  st <> None ->
  Forall deliveryConsistent (Car.airwayBills c) ->
  Forall deliveryConsistent (Car.airwayBills (fst (arriveCar nowIso t st c g))).
Proof.
  intros Hst Hc.
  assert (Hd : Forall deliveryConsistent
                 (map (deliverAwb nowIso st) (Car.airwayBills c))).
  { apply Forall_map. eapply Forall_impl; [|exact Hc].
    intros a. now apply deliverAwb_consistent. }
  unfold arriveCar, bind, random, ret.
  destruct (Rlt_dec (draw g 0) 0.35); [|exact Hd].
  pose proof (newAwb_fresh nowIso t st (rngTail g)) as [Hf _].
  destruct (newAwb nowIso t st (rngTail g)) as [a g']. cbn in *.
  apply Forall_app. split; [exact Hd|].
  constructor; [|constructor]. eapply fresh_consistent, Hf.
Qed.

Lemma mapM_Forall_pres {A} (P : A -> Prop) (f : A -> Rand A) :
  (forall a g, P a -> P (fst (f a g))) ->
  forall l g, Forall P l -> Forall P (fst (mapM f l g)).
Proof.
  intros Hf l. induction l as [|a l IH]; intros g Hl.
  - constructor.
  - rewrite mapM_cons. cbn [fst]. inversion Hl; subst.
    constructor; [now apply Hf | now apply IH].
Qed.

Lemma updateTrain_consistent (nowIso : string) (t : Train.t) (g : rng) :
  everyItem deliveryConsistent t ->
  everyItem deliveryConsistent (fst (updateTrain cfg nowIso t g)).
Proof.
  intros Ht. unfold updateTrain.
  destruct (_ <? 2)%nat; [exact Ht|].
  destruct (Rlt_dec 0 _); [exact Ht|].
  cbv zeta.
  assert (Hr : everyItem deliveryConsistent (rollover t)).
  { unfold everyItem. now rewrite (proj1 (rollover_cars t)). }
  destruct (stationByCode (Js.index _ (Train.currentLegIndex (rollover t))));
    [|exact Hr].
  destruct (stationByCode (Js.index _ (Train.currentLegIndex (rollover t) + 1)))
    eqn:Hto; [|exact Hr].
  apply stationByCode_defined in Hto.
  destruct (Rle_dec 1 _).
  - unfold arrive, bind, ret.
    pose proof (mapM_Forall_pres
                  (fun c => Forall deliveryConsistent (Car.airwayBills c))
                  (arriveCar nowIso (rollover t)
                     (Js.index (Train.route (rollover t))
                        (Train.currentLegIndex (rollover t) + 1)))
                  (fun c g' => arriveCar_consistent nowIso _ _ c g' Hto)
                  (Train.cars (rollover t)) g Hr) as H.
    destruct (mapM _ _ g) as [cs g1]. destruct (randInt _ _ g1) as [d g2].
    exact H.
  - unfold transit, bind, ret. destruct (tweakSpeed _ g) as [s g1].
    unfold everyItem. cbn [fst Train.cars].
    apply Forall_map. eapply Forall_impl; [|exact Hr].
    intros c Hc. unfold departCar. cbn.
    apply Forall_map. eapply Forall_impl; [|exact Hc].
    intros a. apply departAwb_consistent.
Qed.

Lemma runTicks_consistent (ticks : list string) :
  forall (trains : list Train.t) (g : rng),
    Forall (everyItem deliveryConsistent) trains ->
    Forall (everyItem deliveryConsistent) (fst (runTicks cfg ticks trains g)).
Proof.
  induction ticks as [|now rest IH]; intros trains g Hl.
  - exact Hl.
  - cbn [runTicks]. unfold bind.
    pose proof (mapM_Forall_pres (everyItem deliveryConsistent)
                  (updateTrain cfg now)
                  (fun t g' => updateTrain_consistent now t g') trains g Hl) as H1.
    fold (updateTrains cfg now trains g) in H1.
    destruct (updateTrains cfg now trains g) as [trains' g']. cbn [fst] in H1.
    now apply IH.
Qed.

Lemma createCar_items (now : string) (route : list string) (i c : Z) (g : rng) :
  Forall (isFresh now) (Car.airwayBills (fst (createCar cfg now route i c g))).
Proof.
  destruct (createCar_spec cfg now route i c g) as (_ & _ & g' & ->).
  apply (createAirwayBillsForCar_spec cfg now route i c g').
Qed.

Lemma createTrain_items (now : Z -> string) (i : Z) (g : rng) :
  everyItem (fun a => exists c, isFresh (now c) a)
    (fst (createTrain cfg now i g)).
Proof.
  unfold createTrain, bind, ret, random.
  destruct (randChoice ROUTE_0 ROUTES_rest g) as [route g1].
  destruct (randInt 40 80 g1) as [speed g2].
  destruct (randInt 5 _ g2) as [carCount g3].
  assert (Hcars : Forall (fun c => Forall (fun a => exists c, isFresh (now c) a)
                                     (Car.airwayBills c))
                    (fst (mapM (fun c => createCar cfg (now c) route i c)
                            (upto carCount) g3))).
  { apply mapM_Forall. intros c g' _.
    eapply Forall_impl; [|apply createCar_items].
    intros a Ha. now exists c. }
  destruct (mapM _ (upto carCount) g3) as [cars g4].
  destruct (randChoice _ _ g4) as [nm g5].
  exact Hcars.
Qed.

Lemma createInitialTrains_consistent (now : Z -> Z -> string) (g : rng) :
  Forall (everyItem deliveryConsistent) (fst (createInitialTrains cfg now g)).
Proof.
  unfold createInitialTrains. apply mapM_Forall. intros i g' _.
  pose proof (createTrain_items (now i) i g') as H.
  unfold everyItem in *. eapply Forall_impl; [|exact H].
  intros c Hc. eapply Forall_impl; [|exact Hc].
  intros a [k Hk]. eapply fresh_consistent, Hk.
Qed.

End DeliveryFields.

Lemma atKC_consistent : Forall (everyItem deliveryConsistent) [Sample.atKC].
Proof.
  constructor; [|constructor].
  repeat constructor; cbn; intros; try discriminate; congruence.
Qed.

(** X15.  The delivery fields of an item agree with its status, at the
    start and after every tick: an item has a delivery time exactly when
    it is DELIVERED, and an offload station exactly when it is DELIVERED;
    the offload station of a delivered item is its destination, and its
    delivery time is its lastUpdated.  This holds of every item that
    [createInitialTrains] makes, and [updateTrains] keeps it for any
    fleet, whatever the random draws. *)
Theorem X15_delivery_fields_agree_with_status :
  (forall (cfg : config) (now : Z -> Z -> string) (g : rng),
      Forall (everyItem deliveryConsistent) (fst (createInitialTrains cfg now g)))
  /\ (forall (cfg : config) (ticks : list string) (trains : list Train.t) (g : rng),
        Forall (everyItem deliveryConsistent) trains ->
        Forall (everyItem deliveryConsistent) (fst (runTicks cfg ticks trains g))).
Proof.
  split.
  - intros cfg now g. apply createInitialTrains_consistent.
  - intros cfg ticks trains g. apply runTicks_consistent.
Qed.

(** X15 for the sample train standing at KC, over two ticks. *)
Lemma X15_witness :
  Forall (everyItem deliveryConsistent) [Sample.atKC]
  /\ Forall (everyItem deliveryConsistent)
       (fst (runTicks defaultConfig [Sample.stamp1; Sample.stamp2] [Sample.atKC]
               (tapeRng []))).
Proof.
  split; [exact atKC_consistent|].
  apply (proj2 X15_delivery_fields_agree_with_status defaultConfig
           [Sample.stamp1; Sample.stamp2] [Sample.atKC] (tapeRng [])
           atKC_consistent).
Defined.

(** ** Car numbers *)

Section CarNumbers.

Lemma string_length_append (s1 s2 : string) :
  String.length (s1 ++ s2) = (String.length s1 + String.length s2)%nat.
Proof. induction s1 as [|c s1 IH]; cbn; [reflexivity | now rewrite IH]. Qed.

Lemma append_inv_tail (s1 s2 p1 p2 : string) :
  String.length p1 = String.length p2 ->
  (s1 ++ p1)%string = (s2 ++ p2)%string -> s1 = s2 /\ p1 = p2.
Proof.
  revert s2. induction s1 as [|c s1 IH]; intros [|d s2] Hl E; cbn in E.
  - auto.
  - apply (f_equal String.length) in E. cbn in E.
    rewrite string_length_append in E. lia.
  - apply (f_equal String.length) in E. cbn in E.
    rewrite string_length_append in E. lia.
  - injection E as -> E. destruct (IH s2 Hl E) as [-> ->]. auto.
Qed.

Lemma padStart3_length (z : Z) :
  (1 <= z <= 999)%Z ->
  String.length (Js.padStart 3 "0" (Js.showInt (Some z))) = 3%nat.
Proof.
  intros Hz.
  assert (H : forallb (fun n => Nat.eqb
                (String.length
                   (Js.padStart 3 "0" (Js.showInt (Some (Z.of_nat n + 1)%Z)))) 3)
                (seq 0 999) = true) by (vm_compute; reflexivity).
  rewrite forallb_forall in H.
  specialize (H (Z.to_nat (z - 1))). rewrite Z2Nat.id in H by lia.
  replace (z - 1 + 1)%Z with z in H by lia.
  apply Nat.eqb_eq, H, in_seq. lia.
Qed.

Lemma generateCarNumber_inj (t t' c c' : Z) :
  (0 <= c <= 998)%Z -> (0 <= c' <= 998)%Z ->
  generateCarNumber t c = generateCarNumber t' c' -> t = t' /\ c = c'.
Proof.
  intros Hc Hc' E. unfold generateCarNumber in E.
  apply append_inv_head in E.
  apply append_inv_tail in E.
  - destruct E as [Et Ec]. apply showInt_inj in Et.
    apply (f_equal (Js.parseDigits None)) in Ec.
    destruct (c + 1)%Z as [|p|p] eqn:Ep; try lia.
    destruct (c' + 1)%Z as [|q|q] eqn:Eq; try lia.
    rewrite !parseDigits_padStart in Ec. injection Ec as Ec. lia.
  - rewrite !padStart3_length by lia. reflexivity.
Qed.

Lemma numbered_In (i : Z) (t : Train.t) (x : string) :
  numberedFrom i t -> In x (map Car.carNumber (Train.cars t)) ->
  exists c, (0 <= c <= 998)%Z /\ x = generateCarNumber i c.
Proof.
  intros (n & Hn & E) Hin. rewrite E in Hin.
  apply in_map_iff in Hin as (c & <- & Hc).
  apply upto_In in Hc. exists c. split; [lia | reflexivity].
Qed.

Lemma numbered_NoDup (i : Z) (t : Train.t) :
  numberedFrom i t -> NoDup (map Car.carNumber (Train.cars t)).
Proof.
  intros (n & Hn & E). rewrite E.
  apply NoDup_map_inj; [|apply upto_NoDup].
  intros a b Ha Hb Hab. apply upto_In in Ha, Hb.
  apply generateCarNumber_inj in Hab; [tauto | lia | lia].
Qed.

Lemma carNumbers_NoDup (fleet : list Train.t) :
  forall k0 : nat,
    (forall k t, nth_error fleet k = Some t ->
                 numberedFrom (Z.of_nat (k0 + k)) t) ->
    NoDup (carNumbers fleet)
    /\ forall x, In x (carNumbers fleet) ->
         exists k c, (k0 <= k)%nat /\ (0 <= c <= 998)%Z
                     /\ x = generateCarNumber (Z.of_nat k) c.
Proof.
  induction fleet as [|t fleet IH]; intros k0 H.
  - split; [constructor | intros x []].
  - pose proof (H 0%nat t eq_refl) as Ht. rewrite Nat.add_0_r in Ht.
    destruct (IH (S k0)) as [Hnd Hin].
    { intros k t' Hk. replace (S k0 + k)%nat with (k0 + S k)%nat by lia.
      now apply H. }
    unfold carNumbers in *. cbn [flat_map]. split.
    + apply NoDup_app; [now apply (numbered_NoDup _ _ Ht) | exact Hnd |].
      intros x Hx Hx'.
      apply (numbered_In _ _ _ Ht) in Hx as (c & Hc & ->).
      apply Hin in Hx' as (k & c' & Hk & Hc' & E).
      apply generateCarNumber_inj in E; lia.
    + intros x Hx. apply in_app_or in Hx as [Hx|Hx].
      * apply (numbered_In _ _ _ Ht) in Hx as (c & Hc & ->).
        exists k0, c. auto.
      * apply Hin in Hx as (k & c & Hk & Hc & ->).
        exists k, c. split; [lia | auto].
Qed.

Lemma sameIdentity_carNumbers (l l' : list Train.t) :
  Forall2 sameIdentity l l' -> carNumbers l' = carNumbers l.
Proof.
  induction 1 as [|t t' l l' (_ & _ & _ & Hc) _ IH]; [reflexivity|].
  unfold carNumbers in *. cbn [flat_map]. rewrite IH. f_equal.
  apply (f_equal (map fst)) in Hc. rewrite !map_map in Hc. exact Hc.
Qed.

End CarNumbers.

(** X16.  When [MAX_CARS_PER_TRAIN] is at most 999, no two cars of the
    fleet carry the same car number, neither within a train nor across
    trains, at the start and after any ticks. *)
Theorem X16_car_numbers_are_unique :
  forall (cfg : config) (now : Z -> Z -> string) (g : rng)
         (ticks : list string) (g' : rng),
    (MAX_CARS_PER_TRAIN cfg <= 999)%Z ->
    NoDup (carNumbers
             (fst (runTicks cfg ticks (fst (createInitialTrains cfg now g)) g'))).
Proof.
  intros cfg now g ticks g' Hmax.
  rewrite (sameIdentity_carNumbers _ _ (runTicks_identity cfg ticks _ g')).
  apply (carNumbers_NoDup _ 0%nat). intros k t Hk.
  apply (createInitialTrains_spec cfg now g) in Hk.
  destruct Hk as (_ & _ & _ & _ & _ & _ & _ & _ & _ & Hhi & Hlo & Hnum & _).
  exists (List.length (Train.cars t)). split; [|exact Hnum].
  destruct (Z_le_gt_dec 5 (MAX_CARS_PER_TRAIN cfg)) as [H5|H5].
  - specialize (Hhi H5). lia.
  - specialize (Hlo ltac:(lia)). lia.
Qed.

(** X16 under the default configuration. *)
Lemma X16_witness :
  NoDup (carNumbers
           (fst (runTicks defaultConfig [Sample.stamp1]
                   (fst (createInitialTrains defaultConfig
                           (fun _ _ => Sample.stamp0) (tapeRng [])))
                   (tapeRng [])))).
Proof.
  apply (X16_car_numbers_are_unique defaultConfig (fun _ _ => Sample.stamp0)
           (tapeRng []) [Sample.stamp1] (tapeRng [])).
  cbn. lia.
Defined.

(** ** The snapshots: [getTrainSnapshots] *)

Section Snapshots.

Lemma toFixed_error (k : nat) (x : R) :
  (Rabs (Js.toFixed k x - x) <= / 2 / 10 ^ k)%R.
Proof.
  assert (Hp : (0 < 10 ^ k)%R) by (apply pow_lt; lra).
  assert (Hdiv : forall n y : R, (y - / 2 < n <= y + / 2)%R ->
                   (Rabs (n / 10 ^ k - y / 10 ^ k) <= / 2 / 10 ^ k)%R).
  { intros n y Hn.
    replace (n / 10 ^ k - y / 10 ^ k)%R with ((n - y) / 10 ^ k)%R
      by (field; lra).
    unfold Rdiv. rewrite Rabs_mult, (Rabs_pos_eq (/ 10 ^ k))
      by (left; now apply Rinv_0_lt_compat).
    apply Rmult_le_compat_r; [left; now apply Rinv_0_lt_compat|].
    apply Rabs_le. lra. }
  unfold Js.toFixed, Js.roundHalfUp.
  destruct (Rle_dec 0 x).
  - pose proof (Zfloor_bound (x * 10 ^ k + / 2)) as Hb.
    replace x with (x * 10 ^ k / 10 ^ k)%R at 2 by (field; lra).
    apply Hdiv. lra.
  - pose proof (Zfloor_bound (- x * 10 ^ k + / 2)) as Hb.
    replace (- (IZR (Zfloor (- x * 10 ^ k + / 2)) / 10 ^ k) - x)%R
      with (- (IZR (Zfloor (- x * 10 ^ k + / 2)) / 10 ^ k
               - (- x * 10 ^ k) / 10 ^ k))%R by (field; lra).
    rewrite Rabs_Ropp. apply Hdiv. lra.
Qed.

Lemma toFixed_unit (k : nat) (x : R) :
  (0 <= x <= 1)%R -> (0 <= Js.toFixed k x <= 1)%R.
Proof.
  intros [H0 H1].
  assert (Hp : (0 < 10 ^ k)%R) by (apply pow_lt; lra).
  unfold Js.toFixed, Js.roundHalfUp.
  destruct (Rle_dec 0 x); [|contradiction].
  assert (Hy : (0 <= x * 10 ^ k <= 10 ^ k)%R) by nra.
  assert (Hlo : (0 <= Zfloor (x * 10 ^ k + / 2))%Z).
  { apply Zfloor_lub. lra. }
  assert (Hhi : (Zfloor (x * 10 ^ k + / 2) <= 10 ^ Z.of_nat k)%Z).
  { rewrite <- (Zfloor_eq (10 ^ Z.of_nat k) (10 ^ k + / 2)).
    - apply Zfloor_le. lra.
    - rewrite <- pow_IZR. lra. }
  apply IZR_le in Hlo, Hhi. rewrite <- pow_IZR in Hhi.
  split.
  - apply Rmult_le_pos; [exact Hlo | left; now apply Rinv_0_lt_compat].
  - apply Rmult_le_reg_r with (10 ^ k)%R; [exact Hp|].
    unfold Rdiv. rewrite Rmult_assoc, Rinv_l by lra. lra.
Qed.

Lemma toFixed_rounded (k : nat) (x : R) : roundedTo k x (Js.toFixed k x).
Proof.
  assert (Hp : (0 < 10 ^ k)%R) by (apply pow_lt; lra).
  assert (Hi : (0 < / 10 ^ k)%R) by now apply Rinv_0_lt_compat.
  unfold roundedTo, Js.toFixed, Js.roundHalfUp.
  destruct (Rle_dec 0 x) as [H0|H0].
  - pose proof (Zfloor_bound (x * 10 ^ k + / 2)) as Hb.
    set (n := Zfloor (x * 10 ^ k + / 2)) in *.
    split; [now exists n|]. split; [|lra]. intros _.
    assert (Hx : x = (x * 10 ^ k * / 10 ^ k)%R) by (field; lra).
    unfold Rdiv. split.
    + apply Rmult_lt_reg_r with (10 ^ k)%R; [exact Hp|].
      rewrite Rmult_assoc, Rinv_l by lra.
      replace ((x - / 2 * / 10 ^ k) * 10 ^ k)%R with (x * 10 ^ k - / 2)%R
        by (field; lra).
      lra.
    + apply Rmult_le_reg_r with (10 ^ k)%R; [exact Hp|].
      rewrite Rmult_assoc, Rinv_l by lra.
      replace ((x + / 2 * / 10 ^ k) * 10 ^ k)%R with (x * 10 ^ k + / 2)%R
        by (field; lra).
      lra.
  - pose proof (Zfloor_bound (- x * 10 ^ k + / 2)) as Hb.
    set (n := Zfloor (- x * 10 ^ k + / 2)) in *.
    split; [exists (- n)%Z; rewrite opp_IZR; unfold Rdiv; ring|].
    split; [lra|]. intros _.
    unfold Rdiv. split.
    + apply Rmult_le_reg_r with (10 ^ k)%R; [exact Hp|].
      rewrite <- Ropp_mult_distr_l, Rmult_assoc, Rinv_l by lra.
      replace ((x - / 2 * / 10 ^ k) * 10 ^ k)%R with (x * 10 ^ k - / 2)%R
        by (field; lra).
      lra.
    + apply Rmult_lt_reg_r with (10 ^ k)%R; [exact Hp|].
      rewrite <- Ropp_mult_distr_l, Rmult_assoc, Rinv_l by lra.
      replace ((x + / 2 * / 10 ^ k) * 10 ^ k)%R with (x * 10 ^ k + / 2)%R
        by (field; lra).
      lra.
Qed.

Lemma clamp_unit (x : R) : (0 <= Rmin (Rmax x 0) 1 <= 1)%R.
Proof. unfold Rmin, Rmax. repeat destruct (Rle_dec _ _); lra. Qed.

Lemma predefined_leg (route : list string) (idx : Z) :
  In route ROUTES -> (0 <= idx <= 2)%Z ->
  exists from to,
    Js.index route idx = Some (Station.code from)
    /\ Js.index route (idx + 1) = Some (Station.code to)
    /\ stationByCode (Some (Station.code from)) = Some from
    /\ stationByCode (Some (Station.code to)) = Some to
    /\ (forall o, Js.orElse (Some (Station.code to)) o = Some (Station.code to)).
Proof.
  intros Hr Hi.
  assert (Hidx : idx = 0%Z \/ idx = 1%Z \/ idx = 2%Z) by lia.
  unfold ROUTES, ROUTES_rest, ROUTE_0 in Hr. cbn [In] in Hr.
  repeat (destruct Hr as [<- | Hr];
          [destruct Hidx as [-> | [-> | ->]];
           (eexists (Station.mk _ _ _ _ _ _), (Station.mk _ _ _ _ _ _);
            split; [reflexivity|]; split; [reflexivity|];
            split; [reflexivity|]; split; [reflexivity|];
            intros o; reflexivity)|]).
  destruct Hr.
Qed.

End Snapshots.

Section SnapshotOfTrain.

Variable now : string.

Lemma Rabs_zero_le (x y e : R) : x = y -> (0 <= e)%R -> (Rabs (x - y) <= e)%R.
Proof. intros -> He. now rewrite Rminus_diag, Rabs_R0. Qed.

Lemma trainSnapshot_predefined (t : Train.t) :
  onPredefinedRoute t ->
  let s := trainSnapshot now t in
  showsTrain now t s
  /\ (0 <= Snapshot.legProgress s <= 1)%R
  /\ exists fromStation toStation,
       In fromStation STATIONS /\ In toStation STATIONS
       /\ Js.index (Train.route t) (Train.currentLegIndex t)
          = Some (Station.code fromStation)
       /\ Js.index (Train.route t) (Train.currentLegIndex t + 1)
          = Some (Station.code toStation)
       /\ (dwellingAtStation t ->
           reportsPosition s toStation toStation 0
           /\ Snapshot.speedKmh s = 0%Z
           /\ Snapshot.legProgress s = 0%R
           /\ Snapshot.currentLocation s
              = (Some (Station.lat toStation), Some (Station.lon toStation)))
       /\ (~ dwellingAtStation t ->
           let p := Rmin (Rmax (Train.legProgress t) 0) 1 in
           reportsPosition s fromStation toStation p
           /\ Snapshot.speedKmh s = Train.displaySpeedKmh t
           /\ roundedTo 3 p (Snapshot.legProgress s)
           /\ exists lat lon : R,
                Snapshot.currentLocation s = (Some lat, Some lon)
                /\ roundedTo 5
                     (Station.lat fromStation
                      + (Station.lat toStation - Station.lat fromStation) * p) lat
                /\ roundedTo 5
                     (Station.lon fromStation
                      + (Station.lon toStation - Station.lon fromStation) * p) lon).
Proof.
  intros [Hr Hi].
  destruct (predefined_leg _ _ Hr Hi) as (from & to & Hf & Ht & Hsf & Hst & Hor).
  pose proof (proj2 (stationByCode_Some _ _ Hsf)) as Hinf.
  pose proof (proj2 (stationByCode_Some _ _ Hst)) as Hint.
  unfold trainSnapshot. cbv zeta. rewrite Hf, Ht, !Hor, Hsf, Hst.
  unfold dwellingAtStation.
  destruct (Rlt_dec 0 (Train.dwellRemainingHours t)) as [Hd|Hd];
    destruct (Rle_dec 1 (Train.legProgress t)) as [Hp|Hp]; cbn [andb].
  - split; [repeat split|]. split; [cbn; lra|].
    exists from, to. repeat (split; [first [assumption | reflexivity]|]). split.
    + intros _. unfold reportsPosition. cbn.
      split; [|repeat split].
      split; [reflexivity|]. split; [reflexivity|].
      split; [apply Rabs_zero_le; [reflexivity | lra]|].
      exists (Station.lat to), (Station.lon to). split; [reflexivity|].
      split; apply Rabs_zero_le; try ring; lra.
    + intros H. exfalso. apply H. split; assumption.
  - split; [repeat split|].
    split; [cbn [Snapshot.legProgress]; apply toFixed_unit, clamp_unit|].
    exists from, to. repeat (split; [first [assumption | reflexivity]|]). split.
    + intros [_ H]. contradiction.
    + intros _. cbv zeta. split; [|split; [reflexivity|split]].
      * unfold reportsPosition. cbn.
        split; [reflexivity|]. split; [reflexivity|]. split.
        -- eapply Rle_trans; [apply toFixed_error|]. simpl. lra.
        -- do 2 eexists. split; [reflexivity|].
           split; (eapply Rle_trans; [apply toFixed_error|]; simpl; lra).
      * cbn [Snapshot.legProgress]. apply toFixed_rounded.
      * cbn [Snapshot.currentLocation]. do 2 eexists. split; [reflexivity|].
        split; apply toFixed_rounded.
  - split; [repeat split|].
    split; [cbn [Snapshot.legProgress]; apply toFixed_unit, clamp_unit|].
    exists from, to. repeat (split; [first [assumption | reflexivity]|]). split.
    + intros [H _]. contradiction.
    + intros _. cbv zeta. split; [|split; [reflexivity|split]].
      * unfold reportsPosition. cbn.
        split; [reflexivity|]. split; [reflexivity|]. split.
        -- eapply Rle_trans; [apply toFixed_error|]. simpl. lra.
        -- do 2 eexists. split; [reflexivity|].
           split; (eapply Rle_trans; [apply toFixed_error|]; simpl; lra).
      * cbn [Snapshot.legProgress]. apply toFixed_rounded.
      * cbn [Snapshot.currentLocation]. do 2 eexists. split; [reflexivity|].
        split; apply toFixed_rounded.
  - split; [repeat split|].
    split; [cbn [Snapshot.legProgress]; apply toFixed_unit, clamp_unit|].
    exists from, to. repeat (split; [first [assumption | reflexivity]|]). split.
    + intros [H _]. contradiction.
    + intros _. cbv zeta. split; [|split; [reflexivity|split]].
      * unfold reportsPosition. cbn.
        split; [reflexivity|]. split; [reflexivity|]. split.
        -- eapply Rle_trans; [apply toFixed_error|]. simpl. lra.
        -- do 2 eexists. split; [reflexivity|].
           split; (eapply Rle_trans; [apply toFixed_error|]; simpl; lra).
      * cbn [Snapshot.legProgress]. apply toFixed_rounded.
      * cbn [Snapshot.currentLocation]. do 2 eexists. split; [reflexivity|].
        split; apply toFixed_rounded.
Qed.

End SnapshotOfTrain.

Section SnapshotOfFleet.

Lemma index_In {A} (l : list A) (i : Z) (x : A) : Js.index l i = Some x -> In x l.
Proof.
  unfold Js.index. destruct (i <? 0)%Z; [discriminate|]. apply nth_error_In.
Qed.

Lemma trainSnapshot_placed (now : string) (t : Train.t) :
  onPredefinedRoute t -> placedOnRoute (trainSnapshot now t).
Proof.
  intros H.
  destruct (trainSnapshot_predefined now t H)
    as ((_ & _ & Er & _) & _ & from & to & Hf & Ht & Hif & Hit & Hdw & Hmv).
  apply index_In in Hif, Hit. rewrite <- Er in Hif, Hit.
  destruct (Rlt_dec 0 (Train.dwellRemainingHours t)) as [Hd|Hd];
    [destruct (Rle_dec 1 (Train.legProgress t)) as [Hp|Hp]|].
  - exists to, to, 0%R. repeat (split; [assumption|]).
    split; [lra|]. apply Hdw. split; assumption.
  - exists from, to, (Rmin (Rmax (Train.legProgress t) 0) 1).
    repeat (split; [assumption|]). split; [apply clamp_unit|].
    apply Hmv. intros [_ K]. contradiction.
  - exists from, to, (Rmin (Rmax (Train.legProgress t) 0) 1).
    repeat (split; [assumption|]). split; [apply clamp_unit|].
    apply Hmv. intros [K _]. contradiction.
Qed.

Lemma trainSnapshot_speed (now : string) (t : Train.t) :
  speedInRange t -> showsSpeedInRange (trainSnapshot now t).
Proof.
  intros [_ Hs]. unfold showsSpeedInRange, trainSnapshot. cbv zeta.
  destruct (_ && _); [now left|].
  destruct (stationByCode _); [destruct (stationByCode _)|]; exact Hs.
Qed.


End SnapshotOfFleet.



(** X18.  Whatever the configuration, the random draws and the number of
    ticks, every snapshot of the fleet that [createInitialTrains] made
    and [updateTrains] advanced names two stations of the registry that
    are on the train's route, gives coordinates (never null) within
    0.000005 of a point of the straight line between the two stations, a
    progress within [0,1], and a speed that is 0 or between 30 and
    110 km/h. *)
Theorem X18_snapshots_of_the_running_fleet :
  forall (cfg : config) (now0 : Z -> Z -> string) (g : rng)
         (ticks : list string) (g' : rng) (now : string),
    let fleet := fst (runTicks cfg ticks (fst (createInitialTrains cfg now0 g)) g') in
    List.length (getTrainSnapshots now fleet) = Z.to_nat (TRAIN_COUNT cfg)
    /\ Forall (fun s => placedOnRoute s
                        /\ (0 <= Snapshot.legProgress s <= 1)%R
                        /\ showsSpeedInRange s)
         (getTrainSnapshots now fleet).
Proof.
  intros cfg now0 g ticks g' now fleet. split.
  - unfold getTrainSnapshots. rewrite length_map.
    pose proof (runTicks_identity cfg ticks (fst (createInitialTrains cfg now0 g)) g')
      as H.
    apply Forall2_length in H. fold fleet in H. rewrite <- H.
    apply (createInitialTrains_spec cfg now0 g).
  - pose proof (runTicks_predefined cfg ticks _ g'
                  (createInitialTrains_Forall cfg onPredefinedRoute now0 g
                     (initial_onPredefinedRoute cfg))) as Hp.
    pose proof (runTicks_speed cfg ticks _ g'
                  (createInitialTrains_Forall cfg speedInRange now0 g
                     (initial_speedInRange cfg))) as Hs.
    fold fleet in Hp, Hs. unfold getTrainSnapshots. apply Forall_map.
    rewrite Forall_forall in *. intros t Ht.
    split; [apply trainSnapshot_placed, Hp, Ht|].
    split; [apply (trainSnapshot_predefined now t (Hp t Ht))|].
    apply trainSnapshot_speed, Hs, Ht.
Qed.

(** ** More on the filter engine *)

Section FilterTwice.

Variable q : Query.t.

Lemma mapFilter_fix {A} (f : A -> option A) (l : list A) :
  (forall a, In a l -> f a = Some a) -> mapFilter f l = l.
Proof.
  induction l as [|a l IH]; intros H; cbn; [reflexivity|].
  rewrite (H a (or_introl eq_refl)). f_equal. apply IH.
  intros b Hb. apply H. now right.
Qed.

Lemma filter_fix {A} (p : A -> bool) (l : list A) :
  (forall a, In a l -> p a = true) -> List.filter p l = l.
Proof.
  induction l as [|a l IH]; intros H; cbn; [reflexivity|].
  rewrite (H a (or_introl eq_refl)). f_equal. apply IH.
  intros b Hb. apply H. now right.
Qed.

Lemma filterCar_fix (c c' : Car.t) :
  filterCar q c = Some c' -> filterCar q c' = Some c'.
Proof.
  intros H. apply filterCar_Some in H as [Hne ->].
  apply filterCar_Some. cbn [Car.setAirwayBills Car.airwayBills].
  rewrite (filter_fix (awbSurvives q) (List.filter _ _))
    by (intros a Ha; now apply filter_In in Ha).
  split; [exact Hne | reflexivity].
Qed.

Lemma filterCar_number (c c' : Car.t) :
  filterCar q c = Some c' -> Car.carNumber c' = Car.carNumber c.
Proof. intros H. apply filterCar_Some in H as [_ ->]. reflexivity. Qed.

Lemma filterTrain_fix (t t' : Snapshot.t) :
  filterTrain q t = Some t' -> filterTrain q t' = Some t'.
Proof.
  unfold filterTrain. cbv zeta.
  destruct (Js.truthy (Query.trainName q) && _) eqn:En; [discriminate|].
  set (s1 := if Js.truthy (Query.carNumber q)
             then List.filter _ (Snapshot.cars t) else Snapshot.cars t).
  set (s2 := if Js.truthy (awbFilter q) || Js.truthy (Query.station q)
                || Js.truthy (Query.status q)
             then mapFilter (filterCar q) s1 else s1).
  intros H.
  assert (Ht' : t' = Snapshot.setCars t s2 /\ s2 <> []).
  { destruct s2; [discriminate|]. injection H as <-. split; [reflexivity|discriminate]. }
  clear H. destruct Ht' as [-> Hne].
  cbn [Snapshot.setCars Snapshot.name Snapshot.cars]. rewrite En.
  assert (H1 : (if Js.truthy (Query.carNumber q)
                then List.filter
                       (fun car => matchesString (Some (Car.carNumber car))
                                     (Query.carNumber q)) s2
                else s2) = s2).
  { destruct (Js.truthy (Query.carNumber q)) eqn:Ec; [|reflexivity].
    apply filter_fix. intros c' Hc'. subst s2 s1.
    destruct (_ || _ || _).
    - apply mapFilter_In in Hc' as (c & Hc & Hf).
      rewrite (filterCar_number _ _ Hf). now apply filter_In in Hc.
    - now apply filter_In in Hc'. }
  rewrite H1.
  assert (H2 : (if Js.truthy (awbFilter q) || Js.truthy (Query.station q)
                   || Js.truthy (Query.status q)
                then mapFilter (filterCar q) s2 else s2) = s2).
  { subst s2. destruct (_ || _ || _); [|reflexivity].
    apply mapFilter_fix. intros c' Hc'.
    apply mapFilter_In in Hc' as (c & _ & Hf). eapply filterCar_fix, Hf. }
  rewrite H2. destruct s2; [now contradiction Hne | reflexivity].
Qed.

Lemma applyFilters_idem (snapshots : list Snapshot.t) :
  applyFilters q (applyFilters q snapshots) = applyFilters q snapshots.
Proof.
  unfold applyFilters. apply mapFilter_fix. intros t' Ht'.
  apply mapFilter_In in Ht' as (t & _ & Hf). eapply filterTrain_fix, Hf.
Qed.

Lemma filterTrain_nonempty (t t' : Snapshot.t) :
  filterTrain q t = Some t' -> Snapshot.cars t' <> [].
Proof.
  unfold filterTrain. cbv zeta.
  destruct (Js.truthy (Query.trainName q) && _); [discriminate|].
  match goal with
  | |- match ?cs with _ => _ end = _ -> _ =>
      destruct cs; [discriminate|]; intros [= <-]; discriminate
  end.
Qed.

End FilterTwice.

(** X19.  Filtering is idempotent: for every query and every snapshot
    list, filtering the result again with the same query changes nothing.
    And whatever the query, no result contains a train without cars. *)
Theorem X19_applyFilters_idempotent :
  forall (q : Query.t) (snapshots : list Snapshot.t),
    applyFilters q (applyFilters q snapshots) = applyFilters q snapshots
    /\ (forall t, In t (applyFilters q snapshots) -> Snapshot.cars t <> []).
Proof.
  intros q snapshots. split; [apply applyFilters_idem|].
  intros t Ht. apply mapFilter_In in Ht as (t0 & _ & Hf).
  apply (filterTrain_nonempty q t0 t Hf).
Qed.

Section TrainAndCarMatchers.

Variable q : Query.t.

Lemma applyFilters_plain (snapshots : list Snapshot.t) :
  cargoMatcherPresent q = false ->
  applyFilters q snapshots
  = map (fun t => Snapshot.setCars t (matchingCars q t))
      (List.filter (fun t => trainNameOk q t && negb (isEmpty (matchingCars q t)))
         snapshots).
Proof.
  intros Hq. unfold applyFilters.
  induction snapshots as [|t l IH]; [reflexivity|].
  cbn [mapFilter List.filter]. rewrite (filterTrain_plain q t Hq), IH.
  fold (matchingCars q t).
  destruct (trainNameOk q t); cbn [andb]; [|reflexivity].
  destruct (matchingCars q t) eqn:E; cbn [isEmpty negb map];
    [reflexivity | now rewrite E].
Qed.

End TrainAndCarMatchers.

(** X20.  With no cargo matcher in the query (no awb, airwayBill, station
    or status value), the result consists, in order, of the trains that
    pass the train-name matcher, each with exactly those of its cars that
    pass the car-number matcher, whole: every car of the result is a car
    of the input with all its items.  A train none of whose cars passes is
    dropped. *)
Theorem X20_train_and_car_matchers_keep_cars_whole :
  forall (q : Query.t) (snapshots : list Snapshot.t),
    cargoMatcherPresent q = false ->
    applyFilters q snapshots
    = map (fun t => Snapshot.setCars t (matchingCars q t))
        (List.filter (fun t => trainNameOk q t && negb (isEmpty (matchingCars q t)))
           snapshots)
    /\ (forall t', In t' (applyFilters q snapshots) ->
          exists t, In t snapshots /\ trainNameOk q t = true
            /\ t' = Snapshot.setCars t (Snapshot.cars t')
            /\ forall c, In c (Snapshot.cars t') <->
                         In c (Snapshot.cars t) /\ carNumberOk q c = true).
Proof.
  intros q snapshots Hq. split; [now apply applyFilters_plain|].
  intros t' Ht'. rewrite (applyFilters_plain q snapshots Hq) in Ht'.
  apply in_map_iff in Ht' as (t & <- & Ht).
  apply filter_In in Ht as [Hin Hok]. apply andb_prop in Hok as [Hn _].
  exists t. split; [exact Hin|]. split; [exact Hn|]. split; [reflexivity|].
  intros c. cbn [Snapshot.setCars Snapshot.cars]. unfold matchingCars.
  apply filter_In.
Qed.

(** X20 for the sample snapshot and a car-number matcher. *)
Lemma X20_witness :
  applyFilters (Query.mk None None None (Some "r1001"%string) None None)
    [Sample.snapshot]
  = map (fun t => Snapshot.setCars t
                    (matchingCars
                       (Query.mk None None None (Some "r1001"%string) None None) t))
      (List.filter
         (fun t =>
            trainNameOk (Query.mk None None None (Some "r1001"%string) None None) t
            && negb (isEmpty
                       (matchingCars
                          (Query.mk None None None (Some "r1001"%string) None None)
                          t)))
         [Sample.snapshot]).
Proof.
  apply (proj1 (X20_train_and_car_matchers_keep_cars_whole
                  (Query.mk None None None (Some "r1001"%string) None None)
                  [Sample.snapshot] eq_refl)).
Defined.

Section StatusMatcher.

Variable q : Query.t.
Variable f : string.
Hypothesis status_given : Query.status q = Some f.
Hypothesis status_not_empty : f <> ""%string.

Lemma status_truthy : Js.truthy (Query.status q) = true.
Proof. rewrite status_given. destruct f; [now contradiction status_not_empty | reflexivity]. Qed.

Lemma status_cargo_matcher : cargoMatcherPresent q = true.
Proof. unfold cargoMatcherPresent. rewrite status_truthy. apply orb_true_r. Qed.

Lemma status_survivor (a : Awb.t) :
  awbSurvives q a = true -> statusString (Awb.status a) = Js.toUpperCase f.
Proof.
  intros H. apply awbSurvives_iff in H as (_ & _ & Hs).
  destruct (Hs status_truthy) as (f' & Hf' & E).
  rewrite status_given in Hf'. injection Hf' as <-. exact E.
Qed.

Lemma unknown_status_applyFilters (snapshots : list Snapshot.t) :
  (forall s : awbStatus, statusString s <> Js.toUpperCase f) ->
  applyFilters q snapshots = [].
Proof.
  intros H. unfold applyFilters. apply mapFilter_all_none. intros t Ht.
  rewrite (filterTrain_cargo q t status_cargo_matcher).
  destruct (trainNameOk q t); [|reflexivity].
  rewrite mapFilter_all_none; [reflexivity|].
  intros c Hc. unfold filterCar.
  destruct (List.filter (awbSurvives q) (Car.airwayBills c)) as [|a l] eqn:E;
    [reflexivity|].
  assert (Ha : In a (List.filter (awbSurvives q) (Car.airwayBills c)))
    by (rewrite E; now left).
  apply filter_In in Ha as [_ Ha]. apply status_survivor in Ha.
  now contradiction (H (Awb.status a)).
Qed.

Lemma status_items (snapshots : list Snapshot.t) (a : Awb.t) :
  itemOf (applyFilters q snapshots) a ->
  statusString (Awb.status a) = Js.toUpperCase f.
Proof.
  intros (t' & c' & Ht' & Hc' & Ha).
  destruct (applyFilters_sound q snapshots t' status_cargo_matcher Ht')
    as (t & _ & _ & _ & _ & Hcars).
  destruct (Hcars c' Hc') as (c & _ & _ & -> & _).
  cbn [Car.setAirwayBills Car.airwayBills] in Ha.
  apply filter_In in Ha as [_ Ha]. now apply status_survivor.
Qed.

End StatusMatcher.

(** X21.  The status matcher compares whole words: with a non-empty
    status value in the query, every item of the result has exactly the
    status that the value spells once put in upper case; and when the
    value, put in upper case, spells none of LOADED, IN_TRANSIT and
    DELIVERED (a part of a status name, a name with a blank, ...) the
    result is empty, whatever the other criteria and the snapshot list. *)
Theorem X21_status_matcher_is_exact :
  forall (q : Query.t) (f : string) (snapshots : list Snapshot.t),
    Query.status q = Some f -> f <> ""%string ->
    (forall a, itemOf (applyFilters q snapshots) a ->
               statusString (Awb.status a) = Js.toUpperCase f)
    /\ ((forall s : awbStatus, statusString s <> Js.toUpperCase f) ->
        applyFilters q snapshots = []).
Proof.
  intros q f snapshots Hq Hf. split.
  - intros a. now apply (status_items q f Hq Hf).
  - now apply (unknown_status_applyFilters q f Hq Hf).
Qed.

(** X21 for the status value [deliver], a part of a status name. *)
Lemma X21_witness :
  applyFilters (Sample.byStatus "deliver") [Sample.snapshot] = [].
Proof.
  apply (proj2 (X21_status_matcher_is_exact (Sample.byStatus "deliver") "deliver"
                  [Sample.snapshot] eq_refl ltac:(discriminate))).
  intros []; discriminate.
Defined.

Section LetterCase.

Lemma toUpperChar_toLowerChar (c : ascii) :
  Js.toUpperChar (Js.toLowerChar c) = Js.toUpperChar c.
Proof.
  destruct c as [[] [] [] [] [] [] [] []]; vm_compute; reflexivity.
Qed.

Lemma toUpperCase_toLowerCase (s : string) :
  Js.toUpperCase (Js.toLowerCase s) = Js.toUpperCase s.
Proof.
  induction s as [|c s IH]; [reflexivity|].
  cbn. f_equal; [apply toUpperChar_toLowerChar | exact IH].
Qed.

Lemma sameUpToCase_truthy (a b : option string) :
  sameUpToCase a b -> Js.truthy a = Js.truthy b.
Proof.
  unfold sameUpToCase.
  destruct a as [[|c s]|], b as [[|d s']|]; cbn; intros H;
    try reflexivity; discriminate.
Qed.

Lemma sameUpToCase_matches (v a b : option string) :
  sameUpToCase a b -> matchesString v a = matchesString v b.
Proof.
  unfold sameUpToCase, matchesString.
  destruct v, a, b; cbn; intros H; try reflexivity; try discriminate.
  injection H as ->. reflexivity.
Qed.

Lemma sameUpToCase_orElse (a b c d : option string) :
  sameUpToCase a b -> sameUpToCase c d ->
  sameUpToCase (Js.orElse a c) (Js.orElse b d).
Proof.
  intros Hab Hcd. unfold Js.orElse.
  rewrite (sameUpToCase_truthy a b Hab). destruct (Js.truthy b); assumption.
Qed.

Lemma sameUpToCase_status (x : Awb.t) (a b : option string) :
  sameUpToCase a b -> statusDiffers x a = statusDiffers x b.
Proof.
  unfold sameUpToCase, statusDiffers.
  destruct a, b; cbn; intros H; try reflexivity; try discriminate.
  injection H as H. apply (f_equal Js.toUpperCase) in H.
  rewrite !toUpperCase_toLowerCase in H. now rewrite H.
Qed.

Variables q1 q2 : Query.t.
Hypothesis agree : queriesAgreeUpToCase q1 q2.

Lemma agree_awbFilter : sameUpToCase (awbFilter q1) (awbFilter q2).
Proof.
  destruct agree as (Ha & Hb & _). unfold awbFilter.
  now apply sameUpToCase_orElse.
Qed.

Lemma agree_awbSurvives (a : Awb.t) : awbSurvives q1 a = awbSurvives q2 a.
Proof.
  destruct agree as (_ & _ & _ & _ & Hst & Hs).
  pose proof agree_awbFilter as Hf.
  unfold awbSurvives.
  rewrite (sameUpToCase_truthy _ _ Hf), (sameUpToCase_truthy _ _ Hst),
    (sameUpToCase_truthy _ _ Hs), (sameUpToCase_matches _ _ _ Hf),
    !(sameUpToCase_matches _ _ _ Hst), (sameUpToCase_status _ _ _ Hs).
  reflexivity.
Qed.

Lemma agree_filterCar (c : Car.t) : filterCar q1 c = filterCar q2 c.
Proof.
  unfold filterCar.
  now rewrite (filter_ext _ _ agree_awbSurvives).
Qed.

Lemma mapFilter_ext {A B} (f g : A -> option B) (l : list A) :
  (forall a, f a = g a) -> mapFilter f l = mapFilter g l.
Proof.
  intros H. induction l as [|a l IH]; [reflexivity|].
  cbn. now rewrite H, IH.
Qed.

Lemma agree_filterTrain (t : Snapshot.t) : filterTrain q1 t = filterTrain q2 t.
Proof.
  destruct agree as (_ & _ & Hn & Hc & Hst & Hs).
  pose proof agree_awbFilter as Hf.
  unfold filterTrain. cbv zeta.
  rewrite (sameUpToCase_truthy _ _ Hf), (sameUpToCase_truthy _ _ Hst),
    (sameUpToCase_truthy _ _ Hs), (sameUpToCase_truthy _ _ Hn),
    (sameUpToCase_truthy _ _ Hc), (sameUpToCase_matches _ _ _ Hn).
  rewrite (filter_ext _ _
             (fun car => sameUpToCase_matches (Some (Car.carNumber car)) _ _ Hc)).
  destruct (Js.truthy (Query.carNumber q2));
    now rewrite !(mapFilter_ext _ _ _ agree_filterCar).
Qed.

Lemma agree_applyFilters (snapshots : list Snapshot.t) :
  applyFilters q1 snapshots = applyFilters q2 snapshots.
Proof. apply mapFilter_ext, agree_filterTrain. Qed.

End LetterCase.

(** X22.  The filters do not look at the case of letters: two queries
    whose values (of ASCII characters) differ at most in the case of
    their letters give the same result on every snapshot list.  This
    covers the status value too, and the awb and airwayBill values taken
    together. *)
Theorem X22_filters_ignore_letter_case :
  forall (q1 q2 : Query.t) (snapshots : list Snapshot.t),
    asciiQuery q1 = true -> asciiQuery q2 = true ->
    queriesAgreeUpToCase q1 q2 ->
    applyFilters q1 snapshots = applyFilters q2 snapshots.
Proof.
  intros q1 q2 snapshots _ _ H. now apply agree_applyFilters.
Qed.

(** X22 for the status values [delivered] and [DeLiVeReD]. *)
Lemma X22_witness :
  applyFilters (Sample.byStatus "delivered") [Sample.snapshot]
  = applyFilters (Sample.byStatus "DeLiVeReD") [Sample.snapshot].
Proof.
  apply (X22_filters_ignore_letter_case (Sample.byStatus "delivered")
           (Sample.byStatus "DeLiVeReD") [Sample.snapshot] eq_refl eq_refl).
  repeat split.
Defined.

(** ** Histories of the stream endpoint *)

Section StreamHistories.

Variable cfg : config.

Lemma writtenTo_app (c : nat) (w1 w2 : list (nat * nat * Sse.payload)) :
  writtenTo c (w1 ++ w2) = writtenTo c w1 ++ writtenTo c w2.
Proof. apply filter_app. Qed.

Lemma idsOf_app (c : nat) (w1 w2 : list (nat * nat * Sse.payload)) :
  idsOf c (w1 ++ w2) = idsOf c w1 ++ idsOf c w2.
Proof. unfold idsOf. now rewrite writtenTo_app, map_app. Qed.

Lemma In_bumpClient (c : nat) (l : list Sse.client) (k' : Sse.client) :
  In k' (Sse.bumpClient c l) ->
  exists k, In k l /\ Sse.conn k' = Sse.conn k
    /\ Sse.eventId k'
       = if Nat.eqb (Sse.conn k) c then S (Sse.eventId k) else Sse.eventId k.
Proof.
  unfold Sse.bumpClient. intros H. apply in_map_iff in H as (k & <- & Hk).
  exists k. split; [exact Hk|]. destruct (Nat.eqb (Sse.conn k) c); auto.
Qed.

Lemma sendUpdate_shape (now : Sse.reads) (k : Sse.client) (s : Sse.server) (g : rng) :
  exists p,
    Sse.stationCatalog p = STATIONS
    /\ Sse.filtersApplied p = Sse.filtersOf (Sse.query k)
    /\ Sse.clients (fst (Sse.sendUpdate cfg now k s g))
       = Sse.bumpClient (Sse.conn k) (Sse.clients s)
    /\ Sse.written (fst (Sse.sendUpdate cfg now k s g))
       = Sse.written s ++ [(Sse.conn k, Sse.eventId k, p)]
    /\ Sse.clockSteps (fst (Sse.sendUpdate cfg now k s g)) = S (Sse.clockSteps s).
Proof.
  unfold Sse.sendUpdate, bind, ret.
  destruct (updateTrains cfg (Sse.atUpdate now) (Sse.fleet s) g) as [fleet' g'].
  cbn [fst].
  exists {| Sse.timestamp := Sse.atPayload now;
            Sse.filtersApplied := Sse.filtersOf (Sse.query k);
            Sse.trains := applyFilters (Sse.query k)
                            (getTrainSnapshots (Sse.atSnapshot now) fleet');
            Sse.stationCatalog := STATIONS |}.
  cbn. repeat split.
Qed.

Lemma inv_send (now : Sse.reads) (used : list nat) (k : Sse.client)
    (s : Sse.server) (g : rng) :
  streamInvariant used s -> In k (Sse.clients s) ->
  streamInvariant used (fst (Sse.sendUpdate cfg now k s g)).
Proof.
  intros (Hu & Hnd & Hfresh & Hids & Hlen & Hcat) Hk.
  destruct (sendUpdate_shape now k s g) as (p & Hp & _ & Ec & Ew & Es).
  unfold streamInvariant. rewrite Ec, Ew, Es.
  split; [|split; [|split; [|split; [|split]]]].
  - intros k' Hk'. apply In_bumpClient in Hk' as (k0 & Hk0 & -> & _). auto.
  - now rewrite bumpClient_conns.
  - intros c Hc. rewrite writtenTo_app, (Hfresh c Hc). cbn.
    destruct (Nat.eqb_spec (Sse.conn k) c) as [<-|]; [|reflexivity].
    now contradiction Hc; apply Hu.
  - intros c. destruct (Hids c) as (n & Hn & Hev).
    destruct (Nat.eqb_spec (Sse.conn k) c) as [E|E].
    + exists (S n). split.
      * rewrite idsOf_app, Hn, seq_S. f_equal. unfold idsOf, writtenTo. cbn.
        rewrite (proj2 (Nat.eqb_eq _ _) E). cbn. now rewrite (Hev k Hk E).
      * intros k' Hk' Hc'. apply In_bumpClient in Hk' as (k0 & Hk0 & Ec0 & Ee).
        rewrite Ee. rewrite Ec0 in Hc'. rewrite E, <- Hc', Nat.eqb_refl.
        f_equal. now apply Hev.
    + exists n. split.
      * rewrite idsOf_app, Hn. unfold idsOf, writtenTo. cbn.
        rewrite (proj2 (Nat.eqb_neq _ _) E). cbn. apply app_nil_r.
      * intros k' Hk' Hc'. apply In_bumpClient in Hk' as (k0 & Hk0 & Ec0 & Ee).
        rewrite Ee. rewrite Ec0 in Hc'.
        rewrite (proj2 (Nat.eqb_neq (Sse.conn k0) (Sse.conn k))) by congruence.
        now apply Hev.
  - rewrite length_app. cbn. lia.
  - apply Forall_app. split; [exact Hcat|]. constructor; [exact Hp | constructor].
Qed.

Lemma inv_connect (now : Sse.reads) (used : list nat) (c : nat) (q : Query.t)
    (s : Sse.server) (g : rng) :
  streamInvariant used s -> ~ In c used ->
  streamInvariant (c :: used) (fst (Sse.connect cfg now c q s g)).
Proof.
  intros (Hu & Hnd & Hfresh & Hids & Hlen & Hcat) Hc.
  unfold Sse.connect. apply inv_send; [|cbn; apply in_or_app; right; now left].
  unfold streamInvariant. cbn [Sse.clients Sse.written Sse.clockSteps].
  split; [|split; [|split; [|split; [|split]]]]; try assumption.
  - intros k Hk. apply in_app_or in Hk as [Hk | [<- | []]]; [right; auto | now left].
  - rewrite map_app. cbn. apply NoDup_app; [exact Hnd | repeat constructor; auto |].
    intros x Hx [<- | []]. apply in_map_iff in Hx as (k & Ek & Hk).
    apply Hu in Hk. congruence.
  - intros c' Hc'. apply Hfresh. intros H. apply Hc'. now right.
  - intros c'. destruct (Hids c') as (n & Hn & Hev).
    destruct (Nat.eq_dec c c') as [<-|E].
    + exists 0%nat. unfold idsOf. rewrite (Hfresh c Hc). split; [reflexivity|].
      intros k Hk Ek. apply in_app_or in Hk as [Hk | [<- | []]]; [|reflexivity].
      apply Hu in Hk. congruence.
    + exists n. split; [exact Hn|].
      intros k Hk Ek. apply in_app_or in Hk as [Hk | [<- | []]]; [auto|].
      cbn in Ek. congruence.
Qed.

Lemma inv_close (used : list nat) (c : nat) (s : Sse.server) :
  streamInvariant used s -> streamInvariant used (Sse.close c s).
Proof.
  intros (Hu & Hnd & Hfresh & Hids & Hlen & Hcat).
  unfold streamInvariant, Sse.close. cbn [Sse.clients Sse.written Sse.clockSteps].
  split; [|split; [|split; [|split; [|split]]]]; try assumption.
  - intros k Hk. apply filter_In in Hk as [Hk _]. auto.
  - clear -Hnd. induction (Sse.clients s) as [|k l IH]; [constructor|].
    cbn in *. inversion Hnd as [|? ? Hk Hl]; subst.
    destruct (negb _); [|auto]. cbn. constructor; [|auto].
    intros H. apply Hk. apply in_map_iff in H as (k' & E & H').
    apply filter_In in H' as [H' _]. apply in_map_iff. eauto.
  - intros c'. destruct (Hids c') as (n & Hn & Hev). exists n. split; [exact Hn|].
    intros k Hk. apply filter_In in Hk as [Hk _]. auto.
Qed.

Lemma find_client (c : nat) (l : list Sse.client) (k : Sse.client) :
  List.find (fun k => Nat.eqb (Sse.conn k) c) l = Some k ->
  In k l /\ Sse.conn k = c.
Proof.
  intros H. apply find_some in H as [H E]. split; [exact H | now apply Nat.eqb_eq].
Qed.

Lemma inv_timer (now : Sse.reads) (used : list nat) (c : nat)
    (s : Sse.server) (g : rng) :
  streamInvariant used s ->
  streamInvariant used (fst (Sse.timerFires cfg now c s g)).
Proof.
  intros H. unfold Sse.timerFires.
  destruct (List.find _ _) as [k|] eqn:E; [|exact H].
  apply inv_send; [exact H | now apply find_client in E].
Qed.

Lemma inv_run (es : list sseEvent) :
  forall (used : list nat) (s : Sse.server) (g : rng),
    streamInvariant used s ->
    NoDup (connects es) -> (forall c, In c (connects es) -> ~ In c used) ->
    exists used', streamInvariant used' (fst (sseRun cfg es s g)).
Proof.
  induction es as [|e es IH]; intros used s g Hs Hnd Hfresh.
  - now exists used.
  - cbn [sseRun]. unfold bind. destruct e as [now c q | now c | c]; cbn [sseStep connects] in *.
    + pose proof (inv_connect now used c q s g Hs (Hfresh c (or_introl eq_refl))) as H1.
      destruct (Sse.connect cfg now c q s g) as [s1 g1]. cbn [fst] in H1.
      inversion Hnd as [|? ? Hc Hrest]; subst.
      apply (IH (c :: used) s1 g1 H1 Hrest).
      intros c' Hc' [<- | H]; [contradiction|].
      now apply (Hfresh c' (or_intror Hc')).
    + pose proof (inv_timer now used c s g Hs) as H1.
      destruct (Sse.timerFires cfg now c s g) as [s1 g1]. cbn [fst] in H1.
      now apply (IH used s1 g1).
    + unfold ret. apply (IH used); [now apply inv_close | assumption | assumption].
Qed.

Lemma started_invariant (fleet : list Train.t) : streamInvariant [] (started fleet).
Proof.
  unfold streamInvariant, started. cbn.
  split; [intros k []|]. split; [constructor|]. split; [reflexivity|].
  split; [|split; [reflexivity | constructor]].
  intros c. exists 0%nat. split; [reflexivity | intros k []].
Qed.

(** Nothing is written to a connection that is not open and is not
    opened. *)
Lemma quiet_run (c : nat) (es : list sseEvent) :
  forall (s : Sse.server) (g : rng),
    ~ In c (connects es) -> ~ In c (map Sse.conn (Sse.clients s)) ->
    writtenTo c (Sse.written (fst (sseRun cfg es s g))) = writtenTo c (Sse.written s).
Proof.
  induction es as [|e es IH]; intros s g Hes Hs; [reflexivity|].
  cbn [sseRun]. unfold bind.
  assert (Hsend : forall now k s0 g0,
            Sse.conn k <> c -> ~ In c (map Sse.conn (Sse.clients s0)) ->
            ~ In c (map Sse.conn (Sse.clients (fst (Sse.sendUpdate cfg now k s0 g0))))
            /\ writtenTo c (Sse.written (fst (Sse.sendUpdate cfg now k s0 g0)))
               = writtenTo c (Sse.written s0)).
  { intros now k s0 g0 Hk H0.
    destruct (sendUpdate_shape now k s0 g0) as (p & _ & _ & Ec & Ew & _).
    rewrite Ec, Ew, bumpClient_conns, writtenTo_app. split; [exact H0|].
    unfold writtenTo at 2. cbn.
    rewrite (proj2 (Nat.eqb_neq _ _) Hk). apply app_nil_r. }
  destruct e as [now c' q | now c' | c']; cbn [sseStep connects] in *.
  - assert (Hc' : c' <> c) by (intros ->; apply Hes; now left).
    unfold Sse.connect.
    destruct (Hsend now (Sse.mkClient c' q 1)
                {| Sse.fleet := Sse.fleet s;
                   Sse.clients := Sse.clients s ++ [Sse.mkClient c' q 1];
                   Sse.written := Sse.written s;
                   Sse.clockSteps := Sse.clockSteps s |} g Hc') as [H1 H2].
    { cbn. rewrite map_app. intros H. apply in_app_or in H as [H | [H | []]]; auto. }
    destruct (Sse.sendUpdate _ _ _ _ g) as [s1 g1]. cbn [fst] in *.
    rewrite IH; [exact H2 | intros H; apply Hes; now right | exact H1].
  - unfold Sse.timerFires.
    destruct (List.find _ _) as [k|] eqn:E.
    + apply find_client in E as [Hk Ek].
      assert (Hkc : Sse.conn k <> c).
      { intros <-. apply Hs. apply in_map_iff. eauto. }
      destruct (Hsend now k s g Hkc Hs) as [H1 H2].
      destruct (Sse.sendUpdate _ _ _ _ g) as [s1 g1]. cbn [fst] in *.
      rewrite IH; [exact H2 | exact Hes | exact H1].
    + unfold ret. now apply IH.
  - unfold ret. rewrite IH; [reflexivity | exact Hes |].
    cbn. intros H. apply in_map_iff in H as (k & Ek & Hk).
    apply filter_In in Hk as [Hk _]. apply Hs. apply in_map_iff. eauto.
Qed.

Lemma close_not_open (c : nat) (s : Sse.server) :
  ~ In c (map Sse.conn (Sse.clients (Sse.close c s))).
Proof.
  cbn. intros H. apply in_map_iff in H as (k & Ek & Hk).
  apply filter_In in Hk as [_ Hk]. rewrite Ek, Nat.eqb_refl in Hk. discriminate.
Qed.

End StreamHistories.

(** X23.  Take any history of the endpoint from the start of the
    process: requests arriving on new connections, timers firing,
    clients going away, in any order.  The events written to each
    connection carry the ids 1, 2, 3, ... in order, with no gap and no
    repeat, whatever was written to other connections in between; every
    event written went with exactly one call of [updateTrains]; and every
    payload carries the whole station registry. *)
Theorem X23_event_ids_count_from_one :
  forall (cfg : config) (fleet : list Train.t) (es : list sseEvent) (g : rng),
    NoDup (connects es) ->
    let s := fst (sseRun cfg es (started fleet) g) in
    (forall c, exists n, idsOf c (Sse.written s) = seq 1 n)
    /\ List.length (Sse.written s) = Sse.clockSteps s
    /\ Forall (fun x => Sse.stationCatalog (snd x) = STATIONS) (Sse.written s).
Proof.
  intros cfg fleet es g Hnd s.
  destruct (inv_run cfg es [] (started fleet) g (started_invariant fleet) Hnd)
    as (used & _ & _ & _ & Hids & Hlen & Hcat).
  { intros c _ []. }
  fold s in Hids, Hlen, Hcat. split; [|split; assumption].
  intros c. destruct (Hids c) as (n & Hn & _). now exists n.
Qed.

(** X23 for a history with two connections. *)
Lemma X23_witness :
  let s := fst (sseRun defaultConfig
                  [SseConnect Sample.reads 1 Query.empty;
                   SseTimer Sample.reads 1;
                   SseConnect Sample.reads 2 (Sample.byStatus "delivered");
                   SseTimer Sample.reads 2;
                   SseTimer Sample.reads 1;
                   SseClose 1;
                   SseTimer Sample.reads 2]
                  (started [Sample.atKC]) (tapeRng [])) in
  (forall c, exists n, idsOf c (Sse.written s) = seq 1 n)
  /\ List.length (Sse.written s) = Sse.clockSteps s
  /\ Forall (fun x => Sse.stationCatalog (snd x) = STATIONS) (Sse.written s).
Proof.
  apply (X23_event_ids_count_from_one defaultConfig [Sample.atKC]).
  cbn. repeat constructor; cbn; intuition discriminate.
Defined.

(** X24.  Once the client of a connection has gone away, nothing more is
    written to that connection, whatever happens afterwards on other
    connections and whatever timers fire: the events written to it are
    those written before. *)
Theorem X24_nothing_is_written_after_close :
  forall (cfg : config) (c : nat) (es : list sseEvent) (s : Sse.server) (g : rng),
    ~ In c (connects es) ->
    writtenTo c (Sse.written (fst (sseRun cfg es (Sse.close c s) g)))
    = writtenTo c (Sse.written s).
Proof.
  intros cfg c es s g Hes.
  rewrite (quiet_run cfg c es (Sse.close c s) g Hes (close_not_open c s)).
  reflexivity.
Qed.

(** X24 for the first of the two sample subscribers. *)
Lemma X24_witness :
  writtenTo 1 (Sse.written
                 (fst (sseRun defaultConfig
                         [SseTimer Sample.reads 1; SseTimer Sample.reads 2;
                          SseConnect Sample.reads 3 Query.empty;
                          SseTimer Sample.reads 1]
                         (Sse.close 1 Sample.twoSubscribers) (tapeRng []))))
  = writtenTo 1 (Sse.written Sample.twoSubscribers).
Proof.
  apply (X24_nothing_is_written_after_close defaultConfig 1).
  cbn. intros [H | []]. discriminate.
Defined.

(** ** Every leg comes to an end *)

Section LegEnds.

Variable cfg : config.
Hypothesis dt_pos : (0 < dtHours cfg)%R.

Lemma increment_at_least (speed : Z) (from to : Station.t) :
  (30 <= speed)%Z ->
  (minProgressPerTick cfg <= progressIncrement cfg speed from to)%R.
Proof.
  intros Hs. apply IZR_le in Hs.
  eapply Rle_trans; [|apply progressIncrement_lower; nra].
  unfold minProgressPerTick, Rdiv.
  apply Rmult_le_compat_r; [lra | nra].
Qed.

Lemma rollover_below_one (t : Train.t) : (Train.legProgress (rollover t) < 1)%R.
Proof. unfold rollover. destruct (Rle_dec 1 _); cbn; lra. Qed.

Lemma leg_ends (ticks : list string) :
  forall (t : Train.t) (g : rng),
    onPredefinedRoute t -> speedInRange t ->
    ~ (0 < Train.dwellRemainingHours t)%R ->
    (1 <= Train.legProgress (rollover t)
          + INR (List.length ticks) * minProgressPerTick cfg)%R ->
    exists before now after t0 g0,
      ticks = before ++ now :: after
      /\ runTicks cfg before [t] g = ([t0], g0)
      /\ arrivesThisTick cfg t0.
Proof.
  induction ticks as [|now rest IH]; intros t g Hp Hs Hd Hn.
  - pose proof (rollover_below_one t). cbn in Hn. lra.
  - pose proof (rollover_predefined t Hp) as Hp1.
    destruct Hp1 as [Hr1 Hi1].
    destruct (predefined_resolves _ _ Hr1 Hi1) as (from & to & Hf & Ht).
    assert (Hlen : (2 <= List.length (Train.route t))%nat).
    { destruct Hp as [Hr _]. apply ROUTES_length in Hr. lia. }
    destruct (Rle_dec 1 (Train.legProgress (rollover t)
                         + progressIncrement cfg (Train.speedKmh (rollover t)) from to))
      as [Harr|Hway].
    + exists [], now, rest, t, g. split; [reflexivity|]. split; [reflexivity|].
      split; [exact Hlen|]. split; [exact Hd|].
      exists from, to. cbv zeta. auto.
    + assert (Hstay : staysUnderWay cfg t).
      { split; [exact Hlen|]. split; [exact Hd|].
        exists from, to. cbv zeta. repeat split; try assumption. lra. }
      pose proof (updateTrain_transit_effect cfg now t g Hstay)
        as (_ & _ & Hlp & _ & Hdw & _).
      pose proof (proj1 (updateTrain_stamps cfg now t g Hp)) as Hp'.
      pose proof (proj1 (updateTrain_speed cfg now t g Hs)) as Hs'.
      cbv zeta in Hlp, Hdw.
      unfold progressAfter in Hlp. cbv zeta in Hlp. rewrite Hf, Ht in Hlp.
      destruct (updateTrain cfg now t g) as [t' g'] eqn:E. cbn [fst] in *.
      assert (Hinc : (minProgressPerTick cfg
                      <= progressIncrement cfg (Train.speedKmh (rollover t)) from to)%R).
      { apply increment_at_least. rewrite (proj1 (rollover_speed t)).
        destruct Hs as [Hs _]. lia. }
      destruct (IH t' g' Hp' Hs') as (before & now' & after & t0 & g0 & E1 & E2 & E3).
      * now rewrite Hdw.
      * rewrite rollover_not_arrived by lra. rewrite Hlp.
        cbn [List.length] in Hn. rewrite S_INR in Hn. lra.
      * exists (now :: before), now', after, t0, g0.
        split; [now rewrite E1|]. split; [|exact E3].
        cbn [runTicks updateTrains mapM]. unfold bind, ret. rewrite E. exact E2.
Qed.

End LegEnds.

(** X25.  No train is stuck between two stations: a train that is not
    dwelling, on a leg of a predefined route, with a progress of at least
    0 and a speed within 30 to 110 km/h, reaches the end of its leg
    after a bounded number of ticks, whatever the random draws.  With
    ticks that make simulated time pass, any run of ticks long enough for
    [minProgressPerTick] to add up to 1 contains a tick on which the
    train arrives. *)
Theorem X25_every_leg_comes_to_an_end :
  forall (cfg : config) (t : Train.t) (ticks : list string) (g : rng),
    (0 < dtHours cfg)%R ->
    onPredefinedRoute t -> speedInRange t ->
    (0 <= Train.legProgress t)%R ->
    ~ (0 < Train.dwellRemainingHours t)%R ->
    (1 <= INR (List.length ticks) * minProgressPerTick cfg)%R ->
    exists before now after t0 g0,
      ticks = before ++ now :: after
      /\ runTicks cfg before [t] g = ([t0], g0)
      /\ arrivesThisTick cfg t0.
Proof.
  intros cfg t ticks g Hdt Hp Hs Hlp Hd Hn.
  apply (leg_ends cfg Hdt ticks t g Hp Hs Hd).
  assert (0 <= Train.legProgress (rollover t))%R.
  { unfold rollover. destruct (Rle_dec 1 _); cbn; lra. }
  lra.
Qed.

Lemma dtHours_hourly : dtHours Sample.hourlyConfig = 1%R.
Proof. unfold dtHours. cbn. field. Qed.

(** X25 for the sample train leaving LA, with ticks of one simulated hour. *)
Lemma X25_witness :
  exists before now after t0 g0,
    repeat Sample.stamp1 850 = before ++ now :: after
    /\ runTicks Sample.hourlyConfig before [Sample.atLA] (tapeRng []) = ([t0], g0)
    /\ arrivesThisTick Sample.hourlyConfig t0.
Proof.
  apply (X25_every_leg_comes_to_an_end Sample.hourlyConfig Sample.atLA
           (repeat Sample.stamp1 850) (tapeRng [])).
  - rewrite dtHours_hourly. lra.
  - split; [now left | cbn; lia].
  - split; cbn; [lia | right; lia].
  - cbn. lra.
  - cbn. lra.
  - rewrite repeat_length, INR_IZR_INZ. unfold minProgressPerTick.
    rewrite dtHours_hourly. change (Z.of_nat 850) with 850%Z. lra.
Defined.

(** ** Simulated time running backward *)

Section Backward.

Variable cfg : config.
Hypothesis dt_neg : (dtHours cfg < 0)%R.

Lemma step_negative : (minProgressPerTick cfg < 0)%R.
Proof. unfold minProgressPerTick. lra. Qed.

Lemma increment_at_most (speed : Z) (from to : Station.t) :
  (30 <= speed)%Z ->
  (progressIncrement cfg speed from to <= minProgressPerTick cfg)%R.
Proof.
  intros Hs. apply IZR_le in Hs.
  unfold progressIncrement, minProgressPerTick. cbv zeta.
  pose proof (haversineKm_pos (Station.lat from) (Station.lon from)
                (Station.lat to) (Station.lon to)) as Hpos.
  pose proof (haversineKm_le (Station.lat from) (Station.lon from)
                (Station.lat to) (Station.lon to)) as Hle.
  set (d := haversineKm _ _ _ _) in *.
  assert (Hinv : (/ 25484 <= / d)%R) by (apply Rinv_le_contravar; lra).
  assert (Hd : (0 < / d)%R) by now apply Rinv_0_lt_compat.
  unfold Rdiv. apply Rle_trans with (30 * dtHours cfg * / d)%R.
  - apply Rmult_le_compat_r; [lra | nra].
  - assert (H : (0 <= (- (30 * dtHours cfg)) * (/ d - / 25484))%R)
      by (apply Rmult_le_pos; lra).
    nra.
Qed.

Lemma backward_step (nowIso : string) (k : nat) (t : Train.t) (g : rng) :
  drifting cfg k t -> drifting cfg (S k) (fst (updateTrain cfg nowIso t g)).
Proof.
  intros (Hp & Hs & Hd & Hlp).
  pose proof step_negative as Hneg. pose proof (pos_INR k) as Hk.
  assert (Hlt : (Train.legProgress t < 1)%R) by nra.
  pose proof (rollover_not_arrived t Hlt) as Hroll.
  destruct Hp as [Hr Hi].
  destruct (predefined_resolves _ _ Hr Hi) as (from & to & Hf & Ht).
  assert (Hinc : (progressIncrement cfg (Train.speedKmh t) from to
                  <= minProgressPerTick cfg)%R).
  { apply increment_at_most. destruct Hs as [Hs _]. lia. }
  assert (Hstay : staysUnderWay cfg t).
  { split; [apply ROUTES_length in Hr; lia|]. split; [exact Hd|].
    exists from, to. cbv zeta. rewrite Hroll. repeat split; try assumption. lra. }
  pose proof (updateTrain_transit_effect cfg nowIso t g Hstay)
    as (_ & _ & Hlp' & _ & Hdw & _).
  cbv zeta in Hlp', Hdw.
  unfold progressAfter in Hlp'. cbv zeta in Hlp'. rewrite Hroll, Hf, Ht in Hlp'.
  split; [apply (updateTrain_stamps cfg nowIso t g (conj Hr Hi))|].
  split; [apply (updateTrain_speed cfg nowIso t g Hs)|].
  split; [now rewrite Hdw|].
  rewrite Hlp', S_INR. lra.
Qed.

Lemma mapM_Forall_step {A B} (P : A -> Prop) (Q : B -> Prop) (f : A -> Rand B) :
  (forall a g, P a -> Q (fst (f a g))) ->
  forall l g, Forall P l -> Forall Q (fst (mapM f l g)).
Proof.
  intros Hf l. induction l as [|a l IH]; intros g Hl.
  - constructor.
  - rewrite mapM_cons. cbn [fst]. inversion Hl; subst.
    constructor; [now apply Hf | now apply IH].
Qed.

Lemma backward_run (ticks : list string) :
  forall (k : nat) (trains : list Train.t) (g : rng),
    Forall (drifting cfg k) trains ->
    Forall (drifting cfg (k + List.length ticks))
      (fst (runTicks cfg ticks trains g)).
Proof.
  induction ticks as [|now rest IH]; intros k trains g Hl.
  - cbn. now rewrite Nat.add_0_r.
  - cbn [runTicks List.length]. unfold bind.
    pose proof (mapM_Forall_step (drifting cfg k) (drifting cfg (S k))
                  (updateTrain cfg now)
                  (fun t g' => backward_step now k t g') trains g Hl) as H1.
    fold (updateTrains cfg now trains g) in H1.
    destruct (updateTrains cfg now trains g) as [trains' g']. cbn [fst] in H1.
    rewrite Nat.add_succ_r. now apply (IH (S k)).
Qed.

Lemma initial_drifting (i : Z) (t : Train.t) :
  isInitialTrain cfg i t -> drifting cfg 0 t.
Proof.
  intros H.
  split; [now apply (initial_onPredefinedRoute cfg i)|].
  split; [now apply (initial_speedInRange cfg i)|].
  destruct H as (_ & _ & _ & _ & Hlp & _ & _ & Hdw & _).
  split; [rewrite Hdw; lra|]. cbn [INR]. lra.
Qed.

Lemma backward_fleet (now0 : Z -> Z -> string) (g g' : rng) (ticks : list string) :
  (1 + INR (List.length ticks) * minProgressPerTick cfg <= 0)%R ->
  Forall (fun t => (Train.legProgress t < 0)%R)
    (fst (runTicks cfg ticks (fst (createInitialTrains cfg now0 g)) g')).
Proof.
  intros Hn.
  pose proof (backward_run ticks 0 _ g'
                (createInitialTrains_Forall cfg (drifting cfg 0) now0 g
                   initial_drifting)) as H.
  eapply Forall_impl; [|exact H].
  intros t (_ & _ & _ & Hlp). cbn [Nat.add] in Hlp. lra.
Qed.

End Backward.

(** C2, as the specification states it, fails for a configuration that
    makes simulated time run backward.  With [TIME_SCALE=-60] a train that
    stands at the start of its leg, well placed, has a negative
    legProgress after one tick: the increment is added as it is, and only
    the upper end is clamped.  And in a run from the start of the process
    under that configuration, every one of the ten trains has a negative
    legProgress after 10200 ticks (by [backward_fleet] this is so whatever
    the random draws). *)
Lemma C2_counterexample_negative_time_scale :
  (dtHours Sample.backwardConfig < 0)%R
  /\ trainSane Sample.atLA
  /\ (Train.legProgress
        (fst (updateTrain Sample.backwardConfig Sample.stamp1 Sample.atLA
                (tapeRng []))) < 0)%R
  /\ ~ legInvariant
        (fst (updateTrain Sample.backwardConfig Sample.stamp1 Sample.atLA
                (tapeRng [])))
  /\ List.length
       (fst (runTicks Sample.backwardConfig (repeat Sample.stamp1 (102 * 100))
               (fst (createInitialTrains Sample.backwardConfig
                       (fun _ _ => Sample.stamp0) (tapeRng [])))
               (snd (createInitialTrains Sample.backwardConfig
                       (fun _ _ => Sample.stamp0) (tapeRng []))))) = 10%nat
  /\ Forall (fun t => (Train.legProgress t < 0)%R /\ ~ legInvariant t)
       (fst (runTicks Sample.backwardConfig (repeat Sample.stamp1 (102 * 100))
               (fst (createInitialTrains Sample.backwardConfig
                       (fun _ _ => Sample.stamp0) (tapeRng [])))
               (snd (createInitialTrains Sample.backwardConfig
                       (fun _ _ => Sample.stamp0) (tapeRng []))))).
Proof.
  pose proof haversineKm_LA_KC as [Hl Hh].
  assert (Hdt : (dtHours Sample.backwardConfig < 0)%R)
    by (rewrite dtHours_backward; lra).
  assert (Hinc : (progressIncrement Sample.backwardConfig 60
                    (Station.mk "LA" "Los Angeles Freight Yard" "Los Angeles" "CA"
                       34.033 (-118.238))
                    (Station.mk "KC" "Kansas City Intermodal" "Kansas City" "MO"
                       39.104 (-94.598)) < 0)%R).
  { unfold progressIncrement. cbv zeta. rewrite dtHours_backward.
    cbn [Station.lat Station.lon].
    set (d := haversineKm 34.033 (-118.238) 39.104 (-94.598)) in *.
    assert (Hd : (0 < / d)%R) by (apply Rinv_0_lt_compat; lra).
    unfold Rdiv. nra. }
  assert (Hlt : (Train.legProgress
                   (fst (updateTrain Sample.backwardConfig Sample.stamp1 Sample.atLA
                           (tapeRng []))) < 0)%R).
  { rewrite (updateTrain_in_transit Sample.backwardConfig Sample.stamp1 Sample.atLA
               (tapeRng []) _ _ ltac:(cbn; lia)
               ltac:(cbn [Train.dwellRemainingHours Sample.atLA Sample.freshTrain]; lra)
               ltac:(cbn [Train.legProgress Sample.atLA Sample.freshTrain]; lra)
               eq_refl eq_refl);
      cbn [Train.legProgress Train.speedKmh Sample.atLA Sample.freshTrain].
    - unfold transit, bind, ret. destruct (tweakSpeed _ _) as [s g1].
      cbn [fst Train.legProgress]. lra.
    - lra. }
  split; [exact Hdt|].
  split; [exact atLA_sane|]. split; [exact Hlt|].
  split; [intros [[H0 _] _]; lra|]. split.
  - pose proof (runTicks_identity Sample.backwardConfig
                  (repeat Sample.stamp1 (102 * 100))
                  (fst (createInitialTrains Sample.backwardConfig
                          (fun _ _ => Sample.stamp0) (tapeRng [])))
                  (snd (createInitialTrains Sample.backwardConfig
                          (fun _ _ => Sample.stamp0) (tapeRng [])))) as H.
    apply Forall2_length in H. rewrite <- H.
    rewrite (proj1 (createInitialTrains_spec Sample.backwardConfig _ _)).
    reflexivity.
  - eapply Forall_impl; [|apply (backward_fleet Sample.backwardConfig Hdt)].
    + intros t Ht. split; [exact Ht|]. intros [[H0 _] _]. lra.
    + rewrite repeat_length, mult_INR, !INR_IZR_INZ.
      change (Z.of_nat 102) with 102%Z. change (Z.of_nat 100) with 100%Z.
      unfold minProgressPerTick. rewrite dtHours_backward. lra.
Qed.
